(** * Paging core of [proyecto_memoria.py]: a shallow embedding

    The simulator object of the Python source ([SimuladorOS]) is a record;
    its methods are computations in a state-and-exception monad [M], so
    that a Python exception leaves the mutations performed so far in
    place, exactly as in the interpreter.  Python integers are [Z]; the
    lists and deques of the source are Rocq lists; dictionaries with a
    fixed set of keys are records; process control blocks live in an
    object store ([pcbs]) and are referred to by handles, because several
    queues and the page-fault path alias the same [PCB] object. *)

From Stdlib Require Import ZArith List String Ascii Bool Lia.
From stdpp Require Import base numbers list strings pretty.

#[local] Open Scope string_scope.
#[local] Open Scope list_scope.
#[local] Open Scope Z_scope.

(** ** Data model *)

(** A RAM frame holds [None] or the dictionary
    [{pid, page, loaded_time, last_access, referenced}]. *)
Record Frame : Type := mkFrame {
  fr_pid : Z;
  fr_page : Z;
  fr_loaded_time : Z;
  fr_last_access : Z;
  fr_referenced : bool
}.

(** A swap slot holds [None] or [{pid, page, stored_time}]. *)
Record Slot : Type := mkSlot {
  sw_pid : Z;
  sw_page : Z;
  sw_stored_time : Z
}.

(** A page-table entry [{present, frame, swap_slot, last_access}]. *)
Record PTE : Type := mkPTE {
  present : bool;
  frame : option Z;
  swap_slot : option Z;
  last_access : Z
}.

Inductive Estado : Type :=
  | NUEVO | LISTO | EJECUTANDO | ESPERANDO | TERMINADO.

(** [tabla_paginas] is the dictionary [{i: entry for i in range(paginas)}];
    its key set never changes after construction, so it is the list of its
    values in key (and iteration) order. *)
Record PCB : Type := mkPCB {
  pid : Z;
  nombre : string;
  tamano_kb : Z;
  prioridad : Z;
  instrucciones_totales : Z;
  instrucciones_restantes : Z;
  estado : Estado;
  paginas : Z;
  tabla_paginas : list PTE;
  motivo_terminacion : string
}.

(** The [OrderedDict] of the TLB, oldest entry first. *)
Record TLB : Type := mkTLB {
  size : Z;
  entries : list ((Z * Z) * option Z)
}.

(** A reference to a [PCB] object: its position in the object store. *)
Abbreviation handle := nat.

(** The messages passed to [log], with the values they interpolate. *)
Inductive Event : Type :=
  | EvCreado (p : Z)
  | EvDirectoSwap (pagina p slot : Z)
  | EvSinEspacio (pagina p : Z)
  | EvCargada (pagina p frame_index : Z)
  | EvSwapLleno
  | EvSwapping (page p slot frame_index : Z)
  | EvAccesoInvalido (page p : Z)
  | EvFallo (p page : Z)
  | EvNoMarcoSwap
  | EvSwapIn (page p slot frame_index : Z)
  | EvNoMarcoNueva
  | EvDespacho (p : Z)
  | EvTerminado (p : Z) (motivo : string)
  | EvNoEncontradoTerminar
  | EvSuspendidoActual (p : Z)
  | EvSuspendido (p : Z)
  | EvNoSuspender
  | EvReanudado (p : Z)
  | EvNoReanudar.

(** The attributes of a [SimuladorOS] instance.  [arrival_prob] is a float
    that is only compared with a random draw; the result of that comparison
    is an input of [ejecutar_ciclo] below. *)
Record SimuladorOS : Type := mkSim {
  ram_kb : Z;
  swap_kb : Z;
  page_kb : Z;
  replacement_algo : string;
  tlb_enabled : bool;
  max_rand_mem : Z;
  max_rand_instr : Z;
  num_marcos_ram : Z;
  num_marcos_swap : Z;
  ram : list (option Frame);
  free_frames : list Z;
  swap : list (option Slot);
  free_swap_slots : list Z;
  fifo_queue : list Z;
  clock_pointer : Z;
  pcbs : list PCB;
  cola_listos : list handle;
  cola_bloqueados : list handle;
  procesos_terminados : list handle;
  proceso_actual : option handle;
  contador_pid : Z;
  tlb : option TLB;
  total_accesos : Z;
  total_fallos : Z;
  swap_ins : Z;
  swap_outs : Z;
  ticks : Z;
  log_events : list (Z * Event);
  access_clock : Z
}.

(** Attribute assignment, one setter per mutable attribute. *)
Definition set_ram (v : list (option Frame)) (s : SimuladorOS) : SimuladorOS :=
  {| ram_kb := ram_kb s; swap_kb := swap_kb s; page_kb := page_kb s; replacement_algo :=
     replacement_algo s; tlb_enabled := tlb_enabled s; max_rand_mem := max_rand_mem s;
     max_rand_instr := max_rand_instr s; num_marcos_ram := num_marcos_ram s; num_marcos_swap :=
     num_marcos_swap s; ram := v; free_frames := free_frames s; swap := swap s; free_swap_slots
     := free_swap_slots s; fifo_queue := fifo_queue s; clock_pointer := clock_pointer s; pcbs :=
     pcbs s; cola_listos := cola_listos s; cola_bloqueados := cola_bloqueados s;
     procesos_terminados := procesos_terminados s; proceso_actual := proceso_actual s;
     contador_pid := contador_pid s; tlb := tlb s; total_accesos := total_accesos s;
     total_fallos := total_fallos s; swap_ins := swap_ins s; swap_outs := swap_outs s; ticks :=
     ticks s; log_events := log_events s; access_clock := access_clock s |}.

Definition set_free_frames (v : list Z) (s : SimuladorOS) : SimuladorOS :=
  {| ram_kb := ram_kb s; swap_kb := swap_kb s; page_kb := page_kb s; replacement_algo :=
     replacement_algo s; tlb_enabled := tlb_enabled s; max_rand_mem := max_rand_mem s;
     max_rand_instr := max_rand_instr s; num_marcos_ram := num_marcos_ram s; num_marcos_swap :=
     num_marcos_swap s; ram := ram s; free_frames := v; swap := swap s; free_swap_slots :=
     free_swap_slots s; fifo_queue := fifo_queue s; clock_pointer := clock_pointer s; pcbs :=
     pcbs s; cola_listos := cola_listos s; cola_bloqueados := cola_bloqueados s;
     procesos_terminados := procesos_terminados s; proceso_actual := proceso_actual s;
     contador_pid := contador_pid s; tlb := tlb s; total_accesos := total_accesos s;
     total_fallos := total_fallos s; swap_ins := swap_ins s; swap_outs := swap_outs s; ticks :=
     ticks s; log_events := log_events s; access_clock := access_clock s |}.

Definition set_swap (v : list (option Slot)) (s : SimuladorOS) : SimuladorOS :=
  {| ram_kb := ram_kb s; swap_kb := swap_kb s; page_kb := page_kb s; replacement_algo :=
     replacement_algo s; tlb_enabled := tlb_enabled s; max_rand_mem := max_rand_mem s;
     max_rand_instr := max_rand_instr s; num_marcos_ram := num_marcos_ram s; num_marcos_swap :=
     num_marcos_swap s; ram := ram s; free_frames := free_frames s; swap := v; free_swap_slots
     := free_swap_slots s; fifo_queue := fifo_queue s; clock_pointer := clock_pointer s; pcbs :=
     pcbs s; cola_listos := cola_listos s; cola_bloqueados := cola_bloqueados s;
     procesos_terminados := procesos_terminados s; proceso_actual := proceso_actual s;
     contador_pid := contador_pid s; tlb := tlb s; total_accesos := total_accesos s;
     total_fallos := total_fallos s; swap_ins := swap_ins s; swap_outs := swap_outs s; ticks :=
     ticks s; log_events := log_events s; access_clock := access_clock s |}.

Definition set_free_swap_slots (v : list Z) (s : SimuladorOS) : SimuladorOS :=
  {| ram_kb := ram_kb s; swap_kb := swap_kb s; page_kb := page_kb s; replacement_algo :=
     replacement_algo s; tlb_enabled := tlb_enabled s; max_rand_mem := max_rand_mem s;
     max_rand_instr := max_rand_instr s; num_marcos_ram := num_marcos_ram s; num_marcos_swap :=
     num_marcos_swap s; ram := ram s; free_frames := free_frames s; swap := swap s;
     free_swap_slots := v; fifo_queue := fifo_queue s; clock_pointer := clock_pointer s; pcbs :=
     pcbs s; cola_listos := cola_listos s; cola_bloqueados := cola_bloqueados s;
     procesos_terminados := procesos_terminados s; proceso_actual := proceso_actual s;
     contador_pid := contador_pid s; tlb := tlb s; total_accesos := total_accesos s;
     total_fallos := total_fallos s; swap_ins := swap_ins s; swap_outs := swap_outs s; ticks :=
     ticks s; log_events := log_events s; access_clock := access_clock s |}.

Definition set_fifo_queue (v : list Z) (s : SimuladorOS) : SimuladorOS :=
  {| ram_kb := ram_kb s; swap_kb := swap_kb s; page_kb := page_kb s; replacement_algo :=
     replacement_algo s; tlb_enabled := tlb_enabled s; max_rand_mem := max_rand_mem s;
     max_rand_instr := max_rand_instr s; num_marcos_ram := num_marcos_ram s; num_marcos_swap :=
     num_marcos_swap s; ram := ram s; free_frames := free_frames s; swap := swap s;
     free_swap_slots := free_swap_slots s; fifo_queue := v; clock_pointer := clock_pointer s;
     pcbs := pcbs s; cola_listos := cola_listos s; cola_bloqueados := cola_bloqueados s;
     procesos_terminados := procesos_terminados s; proceso_actual := proceso_actual s;
     contador_pid := contador_pid s; tlb := tlb s; total_accesos := total_accesos s;
     total_fallos := total_fallos s; swap_ins := swap_ins s; swap_outs := swap_outs s; ticks :=
     ticks s; log_events := log_events s; access_clock := access_clock s |}.

Definition set_clock_pointer (v : Z) (s : SimuladorOS) : SimuladorOS :=
  {| ram_kb := ram_kb s; swap_kb := swap_kb s; page_kb := page_kb s; replacement_algo :=
     replacement_algo s; tlb_enabled := tlb_enabled s; max_rand_mem := max_rand_mem s;
     max_rand_instr := max_rand_instr s; num_marcos_ram := num_marcos_ram s; num_marcos_swap :=
     num_marcos_swap s; ram := ram s; free_frames := free_frames s; swap := swap s;
     free_swap_slots := free_swap_slots s; fifo_queue := fifo_queue s; clock_pointer := v; pcbs
     := pcbs s; cola_listos := cola_listos s; cola_bloqueados := cola_bloqueados s;
     procesos_terminados := procesos_terminados s; proceso_actual := proceso_actual s;
     contador_pid := contador_pid s; tlb := tlb s; total_accesos := total_accesos s;
     total_fallos := total_fallos s; swap_ins := swap_ins s; swap_outs := swap_outs s; ticks :=
     ticks s; log_events := log_events s; access_clock := access_clock s |}.

Definition set_pcbs (v : list PCB) (s : SimuladorOS) : SimuladorOS :=
  {| ram_kb := ram_kb s; swap_kb := swap_kb s; page_kb := page_kb s; replacement_algo :=
     replacement_algo s; tlb_enabled := tlb_enabled s; max_rand_mem := max_rand_mem s;
     max_rand_instr := max_rand_instr s; num_marcos_ram := num_marcos_ram s; num_marcos_swap :=
     num_marcos_swap s; ram := ram s; free_frames := free_frames s; swap := swap s;
     free_swap_slots := free_swap_slots s; fifo_queue := fifo_queue s; clock_pointer :=
     clock_pointer s; pcbs := v; cola_listos := cola_listos s; cola_bloqueados :=
     cola_bloqueados s; procesos_terminados := procesos_terminados s; proceso_actual :=
     proceso_actual s; contador_pid := contador_pid s; tlb := tlb s; total_accesos :=
     total_accesos s; total_fallos := total_fallos s; swap_ins := swap_ins s; swap_outs :=
     swap_outs s; ticks := ticks s; log_events := log_events s; access_clock := access_clock s
     |}.

Definition set_cola_listos (v : list handle) (s : SimuladorOS) : SimuladorOS :=
  {| ram_kb := ram_kb s; swap_kb := swap_kb s; page_kb := page_kb s; replacement_algo :=
     replacement_algo s; tlb_enabled := tlb_enabled s; max_rand_mem := max_rand_mem s;
     max_rand_instr := max_rand_instr s; num_marcos_ram := num_marcos_ram s; num_marcos_swap :=
     num_marcos_swap s; ram := ram s; free_frames := free_frames s; swap := swap s;
     free_swap_slots := free_swap_slots s; fifo_queue := fifo_queue s; clock_pointer :=
     clock_pointer s; pcbs := pcbs s; cola_listos := v; cola_bloqueados := cola_bloqueados s;
     procesos_terminados := procesos_terminados s; proceso_actual := proceso_actual s;
     contador_pid := contador_pid s; tlb := tlb s; total_accesos := total_accesos s;
     total_fallos := total_fallos s; swap_ins := swap_ins s; swap_outs := swap_outs s; ticks :=
     ticks s; log_events := log_events s; access_clock := access_clock s |}.

Definition set_cola_bloqueados (v : list handle) (s : SimuladorOS) : SimuladorOS :=
  {| ram_kb := ram_kb s; swap_kb := swap_kb s; page_kb := page_kb s; replacement_algo :=
     replacement_algo s; tlb_enabled := tlb_enabled s; max_rand_mem := max_rand_mem s;
     max_rand_instr := max_rand_instr s; num_marcos_ram := num_marcos_ram s; num_marcos_swap :=
     num_marcos_swap s; ram := ram s; free_frames := free_frames s; swap := swap s;
     free_swap_slots := free_swap_slots s; fifo_queue := fifo_queue s; clock_pointer :=
     clock_pointer s; pcbs := pcbs s; cola_listos := cola_listos s; cola_bloqueados := v;
     procesos_terminados := procesos_terminados s; proceso_actual := proceso_actual s;
     contador_pid := contador_pid s; tlb := tlb s; total_accesos := total_accesos s;
     total_fallos := total_fallos s; swap_ins := swap_ins s; swap_outs := swap_outs s; ticks :=
     ticks s; log_events := log_events s; access_clock := access_clock s |}.

Definition set_procesos_terminados (v : list handle) (s : SimuladorOS) : SimuladorOS :=
  {| ram_kb := ram_kb s; swap_kb := swap_kb s; page_kb := page_kb s; replacement_algo :=
     replacement_algo s; tlb_enabled := tlb_enabled s; max_rand_mem := max_rand_mem s;
     max_rand_instr := max_rand_instr s; num_marcos_ram := num_marcos_ram s; num_marcos_swap :=
     num_marcos_swap s; ram := ram s; free_frames := free_frames s; swap := swap s;
     free_swap_slots := free_swap_slots s; fifo_queue := fifo_queue s; clock_pointer :=
     clock_pointer s; pcbs := pcbs s; cola_listos := cola_listos s; cola_bloqueados :=
     cola_bloqueados s; procesos_terminados := v; proceso_actual := proceso_actual s;
     contador_pid := contador_pid s; tlb := tlb s; total_accesos := total_accesos s;
     total_fallos := total_fallos s; swap_ins := swap_ins s; swap_outs := swap_outs s; ticks :=
     ticks s; log_events := log_events s; access_clock := access_clock s |}.

Definition set_proceso_actual (v : option handle) (s : SimuladorOS) : SimuladorOS :=
  {| ram_kb := ram_kb s; swap_kb := swap_kb s; page_kb := page_kb s; replacement_algo :=
     replacement_algo s; tlb_enabled := tlb_enabled s; max_rand_mem := max_rand_mem s;
     max_rand_instr := max_rand_instr s; num_marcos_ram := num_marcos_ram s; num_marcos_swap :=
     num_marcos_swap s; ram := ram s; free_frames := free_frames s; swap := swap s;
     free_swap_slots := free_swap_slots s; fifo_queue := fifo_queue s; clock_pointer :=
     clock_pointer s; pcbs := pcbs s; cola_listos := cola_listos s; cola_bloqueados :=
     cola_bloqueados s; procesos_terminados := procesos_terminados s; proceso_actual := v;
     contador_pid := contador_pid s; tlb := tlb s; total_accesos := total_accesos s;
     total_fallos := total_fallos s; swap_ins := swap_ins s; swap_outs := swap_outs s; ticks :=
     ticks s; log_events := log_events s; access_clock := access_clock s |}.

Definition set_contador_pid (v : Z) (s : SimuladorOS) : SimuladorOS :=
  {| ram_kb := ram_kb s; swap_kb := swap_kb s; page_kb := page_kb s; replacement_algo :=
     replacement_algo s; tlb_enabled := tlb_enabled s; max_rand_mem := max_rand_mem s;
     max_rand_instr := max_rand_instr s; num_marcos_ram := num_marcos_ram s; num_marcos_swap :=
     num_marcos_swap s; ram := ram s; free_frames := free_frames s; swap := swap s;
     free_swap_slots := free_swap_slots s; fifo_queue := fifo_queue s; clock_pointer :=
     clock_pointer s; pcbs := pcbs s; cola_listos := cola_listos s; cola_bloqueados :=
     cola_bloqueados s; procesos_terminados := procesos_terminados s; proceso_actual :=
     proceso_actual s; contador_pid := v; tlb := tlb s; total_accesos := total_accesos s;
     total_fallos := total_fallos s; swap_ins := swap_ins s; swap_outs := swap_outs s; ticks :=
     ticks s; log_events := log_events s; access_clock := access_clock s |}.

Definition set_tlb (v : option TLB) (s : SimuladorOS) : SimuladorOS :=
  {| ram_kb := ram_kb s; swap_kb := swap_kb s; page_kb := page_kb s; replacement_algo :=
     replacement_algo s; tlb_enabled := tlb_enabled s; max_rand_mem := max_rand_mem s;
     max_rand_instr := max_rand_instr s; num_marcos_ram := num_marcos_ram s; num_marcos_swap :=
     num_marcos_swap s; ram := ram s; free_frames := free_frames s; swap := swap s;
     free_swap_slots := free_swap_slots s; fifo_queue := fifo_queue s; clock_pointer :=
     clock_pointer s; pcbs := pcbs s; cola_listos := cola_listos s; cola_bloqueados :=
     cola_bloqueados s; procesos_terminados := procesos_terminados s; proceso_actual :=
     proceso_actual s; contador_pid := contador_pid s; tlb := v; total_accesos := total_accesos
     s; total_fallos := total_fallos s; swap_ins := swap_ins s; swap_outs := swap_outs s; ticks
     := ticks s; log_events := log_events s; access_clock := access_clock s |}.

Definition set_total_accesos (v : Z) (s : SimuladorOS) : SimuladorOS :=
  {| ram_kb := ram_kb s; swap_kb := swap_kb s; page_kb := page_kb s; replacement_algo :=
     replacement_algo s; tlb_enabled := tlb_enabled s; max_rand_mem := max_rand_mem s;
     max_rand_instr := max_rand_instr s; num_marcos_ram := num_marcos_ram s; num_marcos_swap :=
     num_marcos_swap s; ram := ram s; free_frames := free_frames s; swap := swap s;
     free_swap_slots := free_swap_slots s; fifo_queue := fifo_queue s; clock_pointer :=
     clock_pointer s; pcbs := pcbs s; cola_listos := cola_listos s; cola_bloqueados :=
     cola_bloqueados s; procesos_terminados := procesos_terminados s; proceso_actual :=
     proceso_actual s; contador_pid := contador_pid s; tlb := tlb s; total_accesos := v;
     total_fallos := total_fallos s; swap_ins := swap_ins s; swap_outs := swap_outs s; ticks :=
     ticks s; log_events := log_events s; access_clock := access_clock s |}.

Definition set_total_fallos (v : Z) (s : SimuladorOS) : SimuladorOS :=
  {| ram_kb := ram_kb s; swap_kb := swap_kb s; page_kb := page_kb s; replacement_algo :=
     replacement_algo s; tlb_enabled := tlb_enabled s; max_rand_mem := max_rand_mem s;
     max_rand_instr := max_rand_instr s; num_marcos_ram := num_marcos_ram s; num_marcos_swap :=
     num_marcos_swap s; ram := ram s; free_frames := free_frames s; swap := swap s;
     free_swap_slots := free_swap_slots s; fifo_queue := fifo_queue s; clock_pointer :=
     clock_pointer s; pcbs := pcbs s; cola_listos := cola_listos s; cola_bloqueados :=
     cola_bloqueados s; procesos_terminados := procesos_terminados s; proceso_actual :=
     proceso_actual s; contador_pid := contador_pid s; tlb := tlb s; total_accesos :=
     total_accesos s; total_fallos := v; swap_ins := swap_ins s; swap_outs := swap_outs s; ticks
     := ticks s; log_events := log_events s; access_clock := access_clock s |}.

Definition set_swap_ins (v : Z) (s : SimuladorOS) : SimuladorOS :=
  {| ram_kb := ram_kb s; swap_kb := swap_kb s; page_kb := page_kb s; replacement_algo :=
     replacement_algo s; tlb_enabled := tlb_enabled s; max_rand_mem := max_rand_mem s;
     max_rand_instr := max_rand_instr s; num_marcos_ram := num_marcos_ram s; num_marcos_swap :=
     num_marcos_swap s; ram := ram s; free_frames := free_frames s; swap := swap s;
     free_swap_slots := free_swap_slots s; fifo_queue := fifo_queue s; clock_pointer :=
     clock_pointer s; pcbs := pcbs s; cola_listos := cola_listos s; cola_bloqueados :=
     cola_bloqueados s; procesos_terminados := procesos_terminados s; proceso_actual :=
     proceso_actual s; contador_pid := contador_pid s; tlb := tlb s; total_accesos :=
     total_accesos s; total_fallos := total_fallos s; swap_ins := v; swap_outs := swap_outs s;
     ticks := ticks s; log_events := log_events s; access_clock := access_clock s |}.

Definition set_swap_outs (v : Z) (s : SimuladorOS) : SimuladorOS :=
  {| ram_kb := ram_kb s; swap_kb := swap_kb s; page_kb := page_kb s; replacement_algo :=
     replacement_algo s; tlb_enabled := tlb_enabled s; max_rand_mem := max_rand_mem s;
     max_rand_instr := max_rand_instr s; num_marcos_ram := num_marcos_ram s; num_marcos_swap :=
     num_marcos_swap s; ram := ram s; free_frames := free_frames s; swap := swap s;
     free_swap_slots := free_swap_slots s; fifo_queue := fifo_queue s; clock_pointer :=
     clock_pointer s; pcbs := pcbs s; cola_listos := cola_listos s; cola_bloqueados :=
     cola_bloqueados s; procesos_terminados := procesos_terminados s; proceso_actual :=
     proceso_actual s; contador_pid := contador_pid s; tlb := tlb s; total_accesos :=
     total_accesos s; total_fallos := total_fallos s; swap_ins := swap_ins s; swap_outs := v;
     ticks := ticks s; log_events := log_events s; access_clock := access_clock s |}.

Definition set_ticks (v : Z) (s : SimuladorOS) : SimuladorOS :=
  {| ram_kb := ram_kb s; swap_kb := swap_kb s; page_kb := page_kb s; replacement_algo :=
     replacement_algo s; tlb_enabled := tlb_enabled s; max_rand_mem := max_rand_mem s;
     max_rand_instr := max_rand_instr s; num_marcos_ram := num_marcos_ram s; num_marcos_swap :=
     num_marcos_swap s; ram := ram s; free_frames := free_frames s; swap := swap s;
     free_swap_slots := free_swap_slots s; fifo_queue := fifo_queue s; clock_pointer :=
     clock_pointer s; pcbs := pcbs s; cola_listos := cola_listos s; cola_bloqueados :=
     cola_bloqueados s; procesos_terminados := procesos_terminados s; proceso_actual :=
     proceso_actual s; contador_pid := contador_pid s; tlb := tlb s; total_accesos :=
     total_accesos s; total_fallos := total_fallos s; swap_ins := swap_ins s; swap_outs :=
     swap_outs s; ticks := v; log_events := log_events s; access_clock := access_clock s |}.

Definition set_log_events (v : list (Z * Event)) (s : SimuladorOS) : SimuladorOS :=
  {| ram_kb := ram_kb s; swap_kb := swap_kb s; page_kb := page_kb s; replacement_algo :=
     replacement_algo s; tlb_enabled := tlb_enabled s; max_rand_mem := max_rand_mem s;
     max_rand_instr := max_rand_instr s; num_marcos_ram := num_marcos_ram s; num_marcos_swap :=
     num_marcos_swap s; ram := ram s; free_frames := free_frames s; swap := swap s;
     free_swap_slots := free_swap_slots s; fifo_queue := fifo_queue s; clock_pointer :=
     clock_pointer s; pcbs := pcbs s; cola_listos := cola_listos s; cola_bloqueados :=
     cola_bloqueados s; procesos_terminados := procesos_terminados s; proceso_actual :=
     proceso_actual s; contador_pid := contador_pid s; tlb := tlb s; total_accesos :=
     total_accesos s; total_fallos := total_fallos s; swap_ins := swap_ins s; swap_outs :=
     swap_outs s; ticks := ticks s; log_events := v; access_clock := access_clock s |}.

Definition set_access_clock (v : Z) (s : SimuladorOS) : SimuladorOS :=
  {| ram_kb := ram_kb s; swap_kb := swap_kb s; page_kb := page_kb s; replacement_algo :=
     replacement_algo s; tlb_enabled := tlb_enabled s; max_rand_mem := max_rand_mem s;
     max_rand_instr := max_rand_instr s; num_marcos_ram := num_marcos_ram s; num_marcos_swap :=
     num_marcos_swap s; ram := ram s; free_frames := free_frames s; swap := swap s;
     free_swap_slots := free_swap_slots s; fifo_queue := fifo_queue s; clock_pointer :=
     clock_pointer s; pcbs := pcbs s; cola_listos := cola_listos s; cola_bloqueados :=
     cola_bloqueados s; procesos_terminados := procesos_terminados s; proceso_actual :=
     proceso_actual s; contador_pid := contador_pid s; tlb := tlb s; total_accesos :=
     total_accesos s; total_fallos := total_fallos s; swap_ins := swap_ins s; swap_outs :=
     swap_outs s; ticks := ticks s; log_events := log_events s; access_clock := v |}.

(** ** Python exceptions and the monad of methods *)

(** [DanglingRef] is not a Python exception: it marks a handle without an
    object in the store, which no run of the program produces. *)
Inductive exn : Type :=
  | ZeroDivisionError | IndexError | KeyError | ValueError | OverflowError | DanglingRef.

Inductive outcome (A : Type) : Type :=
  | Ok (a : A)
  | Raise (e : exn).
Arguments Ok {A} a.
Arguments Raise {A} e.

Definition M (A : Type) : Type := SimuladorOS -> outcome A * SimuladorOS.

Definition ret {A} (a : A) : M A := fun s => (Ok a, s).

Definition bind {A B} (m : M A) (k : A -> M B) : M B :=
  fun s => match m s with
           | (Ok a, s') => k a s'
           | (Raise e, s') => (Raise e, s')
           end.

Definition raise {A} (e : exn) : M A := fun s => (Raise e, s).
Definition get : M SimuladorOS := fun s => (Ok s, s).
Definition modify (f : SimuladorOS -> SimuladorOS) : M unit := fun s => (Ok tt, f s).

Notation "'let*' x ':=' m 'in' k" := (bind m (fun x => k))
  (at level 10, x name, m at level 100, k at level 200).
Notation "m ';;' k" := (bind m (fun _ => k))
  (at level 100, k at level 200, right associativity).

Definition lift_opt {A} (e : exn) (o : option A) : M A :=
  match o with Some a => ret a | None => raise e end.

Definition when (b : bool) (m : M unit) : M unit := if b then m else ret tt.

(** [for x in xs: body x] *)
Fixpoint for_each {A} (xs : list A) (body : A -> M unit) : M unit :=
  match xs with
  | [] => ret tt
  | x :: xs' => body x ;; for_each xs' body
  end.

(** ** Python primitives *)

(** [l[i]] on a list: negative indices count from the end. *)
Definition py_index {A} (l : list A) (i : Z) : option nat :=
  let n := Z.of_nat (length l) in
  if (0 <=? i) && (i <? n) then Some (Z.to_nat i)
  else if (- n <=? i) && (i <? 0) then Some (Z.to_nat (n + i))
  else None.

Definition py_get {A} (l : list A) (i : Z) : option A :=
  match py_index l i with
  | Some k => l !! k
  | None => None
  end.

Definition py_set {A} (l : list A) (i : Z) (x : A) : option (list A) :=
  match py_index l i with
  | Some k => Some (<[k := x]> l)
  | None => None
  end.

(** [a // b] and [a % b] are floor division and its remainder, as [Z.div]
    and [Z.modulo]; a zero divisor raises. *)
Definition py_floordiv (a b : Z) : M Z :=
  if b =? 0 then raise ZeroDivisionError else ret (a / b).

Definition py_mod (a b : Z) : M Z :=
  if b =? 0 then raise ZeroDivisionError else ret (a mod b).

(** [n / d] rounded to the nearest integer, a tie to the even one, for
    [d > 0]. *)
Definition round_half_even (n d : Z) : Z :=
  let q := n / d in
  let r := n mod d in
  if 2 * r <? d then q
  else if d <? 2 * r then q + 1
  else if Z.even q then q else q + 1.

(** [a / b] on integers [a >= 0] and [b > 0] is the double nearest to the
    quotient (ties to even): the pair [(m, sh)] stands for [m * 2^sh], with
    a significand of 53 bits and no exponent below -1074.  [None] is the
    [OverflowError] of a quotient that rounds to [2^1024] or more. *)
Definition true_div_abs (a b : Z) : option (Z * Z) :=
  if a =? 0 then Some (0, 0)
  else
    let e0 := Z.log2 a - Z.log2 b in
    let e :=
      if 0 <=? e0 then (if b * 2 ^ e0 <=? a then e0 else e0 - 1)
      else (if b <=? a * 2 ^ (- e0) then e0 else e0 - 1) in
    let sh := Z.max (e - 52) (- 1074) in
    let m :=
      if 0 <=? sh then round_half_even a (b * 2 ^ sh)
      else round_half_even (a * 2 ^ (- sh)) b in
    if (0 <=? sh) && (2 ^ 1024 <=? m * 2 ^ sh) then None else Some (m, sh).

(** [math.ceil] of the double [v * 2^sh]. *)
Definition ceil_scaled (v sh : Z) : Z :=
  if 0 <=? sh then v * 2 ^ sh else - ((- v) / 2 ^ (- sh)).

(** [math.ceil(a / b)] for integers and [b <> 0]: the quotient is rounded
    to a double first. *)
Definition ceil_true_div (a b : Z) : option Z :=
  match true_div_abs (Z.abs a) (Z.abs b) with
  | Some (m, sh) => Some (ceil_scaled (Z.sgn a * Z.sgn b * m) sh)
  | None => None
  end.

Definition py_ceil_div (a b : Z) : M Z :=
  if b =? 0 then raise ZeroDivisionError
  else
    match ceil_true_div a b with
    | Some n => ret n
    | None => raise OverflowError
    end.

(** [range(n)] *)
Definition py_range (n : Z) : list Z := seqZ 0 n.

(** [deque.remove(x)] inside [try ... except ValueError: pass]. *)
Fixpoint remove_first (x : Z) (l : list Z) : list Z :=
  match l with
  | [] => []
  | y :: l' => if x =? y then l' else y :: remove_first x l'
  end.

Fixpoint remove_first_handle (x : handle) (l : list handle) : list handle :=
  match l with
  | [] => []
  | y :: l' => if Nat.eqb x y then l' else y :: remove_first_handle x l'
  end.

(** [str.upper()] for a name written in ASCII.  Python's method also maps
    letters outside ASCII; the run of the program on such a name is the run
    of the model on the name that [str.upper()] returns, which has no
    lower-case ASCII letter and which [upper] therefore leaves as it is. *)
Definition upper_ascii (c : ascii) : ascii :=
  let n := nat_of_ascii c in
  if (Nat.leb 97 n && Nat.leb n 122)%bool then ascii_of_nat (n - 32) else c.

Fixpoint upper (s : string) : string :=
  match s with
  | EmptyString => EmptyString
  | String c s' => String (upper_ascii c) (upper s')
  end.

(** [random.randint(a, b)] with the draw [d] supplied by the caller. *)
Definition randint (a b d : Z) : M Z :=
  if b <? a then raise ValueError else ret (a + d mod (b - a + 1)).

(** ** The TLB ([class TLB]) *)

Definition key_eqb (k1 k2 : Z * Z) : bool :=
  (fst k1 =? fst k2) && (snd k1 =? snd k2).

(** [entries[key]], when [key in entries]. *)
Fixpoint od_get {V} (k : Z * Z) (es : list ((Z * Z) * V)) : option V :=
  match es with
  | [] => None
  | (k', v) :: es' => if key_eqb k k' then Some v else od_get k es'
  end.

(** [entries.pop(key)] *)
Fixpoint od_pop {V} (k : Z * Z) (es : list ((Z * Z) * V)) : list ((Z * Z) * V) :=
  match es with
  | [] => []
  | (k', v) :: es' => if key_eqb k k' then es' else (k', v) :: od_pop k es'
  end.

(** [TLB.lookup]: a hit moves the entry to the back. *)
Definition tlb_lookup (t : TLB) (p page : Z) : option Z * TLB :=
  match od_get (p, page) (entries t) with
  | Some fr => (fr, mkTLB (size t) (od_pop (p, page) (entries t) ++ [((p, page), fr)]))
  | None => (None, t)
  end.

(** [TLB.add]; [None] is the [KeyError] of [popitem] on an empty dictionary. *)
Definition tlb_add (t : TLB) (p page : Z) (fr : option Z) : option TLB :=
  match od_get (p, page) (entries t) with
  | Some _ => Some (mkTLB (size t) (od_pop (p, page) (entries t) ++ [((p, page), fr)]))
  | None =>
      if size t <=? Z.of_nat (length (entries t)) then
        match entries t with
        | [] => None
        | _ :: es => Some (mkTLB (size t) (es ++ [((p, page), fr)]))
        end
      else Some (mkTLB (size t) (entries t ++ [((p, page), fr)]))
  end.

(** [TLB.invalidate_pid] *)
Definition tlb_invalidate_pid (t : TLB) (p : Z) : TLB :=
  mkTLB (size t) (List.filter (fun e => negb (fst (fst e) =? p)) (entries t)).

(** ** Access to the object store, the frames and the slots *)

Definition set_tabla_paginas (v : list PTE) (c : PCB) : PCB :=
  {| pid := pid c; nombre := nombre c; tamano_kb := tamano_kb c; prioridad := prioridad c;
     instrucciones_totales := instrucciones_totales c;
     instrucciones_restantes := instrucciones_restantes c; estado := estado c;
     paginas := paginas c; tabla_paginas := v; motivo_terminacion := motivo_terminacion c |}.

Definition set_estado (v : Estado) (c : PCB) : PCB :=
  {| pid := pid c; nombre := nombre c; tamano_kb := tamano_kb c; prioridad := prioridad c;
     instrucciones_totales := instrucciones_totales c;
     instrucciones_restantes := instrucciones_restantes c; estado := v;
     paginas := paginas c; tabla_paginas := tabla_paginas c;
     motivo_terminacion := motivo_terminacion c |}.

Definition set_motivo_terminacion (v : string) (c : PCB) : PCB :=
  {| pid := pid c; nombre := nombre c; tamano_kb := tamano_kb c; prioridad := prioridad c;
     instrucciones_totales := instrucciones_totales c;
     instrucciones_restantes := instrucciones_restantes c; estado := estado c;
     paginas := paginas c; tabla_paginas := tabla_paginas c; motivo_terminacion := v |}.

Definition set_instrucciones_restantes (v : Z) (c : PCB) : PCB :=
  {| pid := pid c; nombre := nombre c; tamano_kb := tamano_kb c; prioridad := prioridad c;
     instrucciones_totales := instrucciones_totales c;
     instrucciones_restantes := v; estado := estado c;
     paginas := paginas c; tabla_paginas := tabla_paginas c;
     motivo_terminacion := motivo_terminacion c |}.

(** [tabla_paginas.get(page)]: a dictionary lookup, no negative indexing. *)
Definition pt_get (t : list PTE) (page : Z) : option PTE :=
  if page <? 0 then None else t !! Z.to_nat page.

Definition deref (h : handle) : M PCB :=
  let* s := get in lift_opt DanglingRef (pcbs s !! h).

Definition update_pcb (h : handle) (f : PCB -> PCB) : M unit :=
  let* c := deref h in
  modify (fun s => set_pcbs (<[h := f c]> (pcbs s)) s).

(** [pcb.tabla_paginas[page][...] = ...]: the assignments to one entry,
    which raise [KeyError] when [page] is not a key. *)
Definition pte_update (h : handle) (page : Z) (f : PTE -> PTE) : M unit :=
  let* c := deref h in
  match pt_get (tabla_paginas c) page with
  | None => raise KeyError
  | Some e =>
      update_pcb h (set_tabla_paginas (<[Z.to_nat page := f e]> (tabla_paginas c)))
  end.

Definition ram_get (i : Z) : M (option Frame) :=
  let* s := get in lift_opt IndexError (py_get (ram s) i).

Definition ram_set (i : Z) (v : option Frame) : M unit :=
  let* s := get in
  match py_set (ram s) i v with
  | Some r => modify (set_ram r)
  | None => raise IndexError
  end.

Definition swap_get (i : Z) : M (option Slot) :=
  let* s := get in lift_opt IndexError (py_get (swap s) i).

Definition swap_set (i : Z) (v : option Slot) : M unit :=
  let* s := get in
  match py_set (swap s) i v with
  | Some r => modify (set_swap r)
  | None => raise IndexError
  end.

(** [SimuladorOS.log] (the console output is not modelled). *)
Definition log (ev : Event) : M unit :=
  modify (fun s => set_log_events (log_events s ++ [(ticks s, ev)]) s).

(** ** [find_pcb_by_pid] *)

Definition pcb_has_pid (s : SimuladorOS) (p : Z) (h : handle) : bool :=
  match pcbs s !! h with
  | Some c => pid c =? p
  | None => false
  end.

Definition find_pcb_by_pid (s : SimuladorOS) (p : Z) : option handle :=
  match List.find (pcb_has_pid s p) (option_list (proceso_actual s)) with
  | Some h => Some h
  | None =>
    match List.find (pcb_has_pid s p) (cola_listos s) with
    | Some h => Some h
    | None =>
      match List.find (pcb_has_pid s p) (cola_bloqueados s) with
      | Some h => Some h
      | None => List.find (pcb_has_pid s p) (procesos_terminados s)
      end
    end
  end.

(** ** Placement, eviction and victim selection *)

Definition is_algo (s : SimuladorOS) (name : string) : bool :=
  String.eqb (replacement_algo s) name.

(** [place_page_in_frame] *)
Definition place_page_in_frame (h : handle) (pagina frame_index : Z) : M unit :=
  let* c := deref h in
  let* s := get in
  ram_set frame_index (Some (mkFrame (pid c) pagina (ticks s) (ticks s) true)) ;;
  pte_update h pagina (fun _ => mkPTE true (Some frame_index) None (ticks s)) ;;
  when (is_algo s "FIFO")
       (modify (fun s => set_fifo_queue (fifo_queue s ++ [frame_index]) s)) ;;
  log (EvCargada pagina (pid c) frame_index).

(** [swap_out_frame]: the slot used, or [None] when the frame is empty or
    no slot is free. *)
Definition swap_out_frame (frame_index : Z) : M (option Z) :=
  let* content := ram_get frame_index in
  match content with
  | None => ret None
  | Some c =>
      let p := fr_pid c in
      let page := fr_page c in
      let* s := get in
      match free_swap_slots s with
      | [] => log EvSwapLleno ;; ret None
      | slot :: rest =>
          modify (set_free_swap_slots rest) ;;
          swap_set slot (Some (mkSlot p page (ticks s))) ;;
          let* s1 := get in
          match find_pcb_by_pid s1 p with
          | Some vh => pte_update vh page (fun _ => mkPTE false None (Some slot) (ticks s1))
          | None => ret tt
          end ;;
          ram_set frame_index None ;;
          modify (fun s => set_fifo_queue (remove_first frame_index (fifo_queue s)) s) ;;
          modify (fun s => set_free_frames (free_frames s ++ [frame_index]) s) ;;
          modify (fun s => set_swap_outs (swap_outs s + 1) s) ;;
          log (EvSwapping page p slot frame_index) ;;
          ret (Some slot)
      end
  end.

(** The FIFO branch (and the final [else]) of [select_victim_frame]:
    [popleft] on the queue of loaded frames. *)
Definition select_fifo : M (option Z) :=
  let* s := get in
  match fifo_queue s with
  | f :: q => modify (set_fifo_queue q) ;; ret (Some f)
  | [] => ret None
  end.

(** The LRU loop over [enumerate(self.ram)]; the accumulator is the pair
    [(oldest, oldest_time)], [None] while both are [None]. *)
Fixpoint lru_loop (i : Z) (fs : list (option Frame)) (oldest : option (Z * Z))
  : option (Z * Z) :=
  match fs with
  | [] => oldest
  | None :: fs' => lru_loop (i + 1) fs' oldest
  | Some f :: fs' =>
      let la := fr_last_access f in
      match oldest with
      | None => lru_loop (i + 1) fs' (Some (i, la))
      | Some (_, oldest_time) =>
          if la <? oldest_time then lru_loop (i + 1) fs' (Some (i, la))
          else lru_loop (i + 1) fs' oldest
      end
  end.

Definition select_lru (fs : list (option Frame)) : option Z :=
  option_map fst (lru_loop 0 fs None).

Definition clear_referenced (f : Frame) : Frame :=
  mkFrame (fr_pid f) (fr_page f) (fr_loaded_time f) (fr_last_access f) false.

(** The CLOCK loop [while scans < n]; [fuel] is [n - scans], which only the
    branch that clears a referenced bit decreases.  With [fuel = 0] the
    code after the loop runs. *)
Fixpoint clock_sweep (fuel : nat) (n : Z) : M (option Z) :=
  match fuel with
  | O =>
      let* s := get in
      let* victim := py_mod (clock_pointer s) n in
      let* cp := py_mod (victim + 1) n in
      modify (set_clock_pointer cp) ;;
      ret (Some victim)
  | S fuel' =>
      let* s := get in
      let* fr := py_mod (clock_pointer s) n in
      let* f := ram_get fr in
      match f with
      | None =>
          let* cp := py_mod (clock_pointer s + 1) n in
          modify (set_clock_pointer cp) ;;
          ret (Some fr)
      | Some c =>
          if negb (fr_referenced c) then
            let* cp := py_mod (fr + 1) n in
            modify (set_clock_pointer cp) ;;
            ret (Some fr)
          else
            ram_set fr (Some (clear_referenced c)) ;;
            let* cp := py_mod (clock_pointer s + 1) n in
            modify (set_clock_pointer cp) ;;
            clock_sweep fuel' n
      end
  end.

(** [select_victim_frame] *)
Definition select_victim_frame : M (option Z) :=
  let* s := get in
  if is_algo s "FIFO" then select_fifo
  else if is_algo s "LRU" then ret (select_lru (ram s))
  else if is_algo s "CLOCK" then
    clock_sweep (Z.to_nat (num_marcos_ram s)) (num_marcos_ram s)
  else select_fifo.

(** ** Admission *)

(** The body of the loop of [allocate_pages_for_process]. *)
Definition allocate_page (h : handle) (pagina : Z) : M unit :=
  let* s := get in
  match free_frames s with
  | fr :: rest =>
      modify (set_free_frames rest) ;;
      place_page_in_frame h pagina fr
  | [] =>
      let* victim_frame := select_victim_frame in
      match victim_frame with
      | None =>
          let* s := get in
          match free_swap_slots s with
          | swap_slot :: rest =>
              modify (set_free_swap_slots rest) ;;
              let* c := deref h in
              pte_update h pagina (fun e => mkPTE false None (Some swap_slot) (last_access e)) ;;
              swap_set swap_slot (Some (mkSlot (pid c) pagina (ticks s))) ;;
              log (EvDirectoSwap pagina (pid c) swap_slot) ;;
              modify (fun s => set_swap_outs (swap_outs s + 1) s)
          | [] =>
              let* c := deref h in
              log (EvSinEspacio pagina (pid c))
          end
      | Some v =>
          swap_out_frame v ;;
          place_page_in_frame h pagina v
      end
  end.

(** [allocate_pages_for_process] *)
Definition allocate_pages_for_process (h : handle) : M unit :=
  let* c := deref h in
  for_each (py_range (paginas c)) (allocate_page h).

(** [PCB(pid, nombre, tam_kb, prioridad, instr)]; [page_kb_global] is the
    [page_kb] of the simulator, which the constructor of [SimuladorOS]
    stores in it. *)
Definition new_PCB (p : Z) (nom : string) (tam_kb prio instr : Z) : M PCB :=
  let* s := get in
  let* n := py_ceil_div tam_kb (page_kb s) in
  ret (mkPCB p nom tam_kb prio instr instr NUEVO n
             (replicate (Z.to_nat n) (mkPTE false None None 0)) "").

(** [crear_proceso]; the result is the new [PCB] object. *)
Definition crear_proceso (nom : string) (tam_kb prio instr : Z) : M handle :=
  let* s := get in
  let p := contador_pid s in
  let* c := new_PCB p nom tam_kb prio instr in
  let h := length (pcbs s) in
  modify (fun s => set_pcbs (pcbs s ++ [c]) s) ;;
  modify (fun s => set_contador_pid (contador_pid s + 1) s) ;;
  update_pcb h (set_estado LISTO) ;;
  modify (fun s => set_cola_listos (cola_listos s ++ [h]) s) ;;
  log (EvCreado p) ;;
  allocate_pages_for_process h ;;
  ret h.

(** ** Page access *)

Definition touch (clock : Z) (f : Frame) : Frame :=
  mkFrame (fr_pid f) (fr_page f) (fr_loaded_time f) clock true.

Definition set_last_access (clock : Z) (e : PTE) : PTE :=
  mkPTE (present e) (frame e) (swap_slot e) clock.

(** [if self.tlb: self.tlb.add(pid, page, frame)] *)
Definition tlb_add_if_enabled (p page : Z) (fr : option Z) : M unit :=
  let* s := get in
  match tlb s with
  | None => ret tt
  | Some t =>
      match tlb_add t p page fr with
      | Some t' => modify (set_tlb (Some t'))
      | None => raise KeyError
      end
  end.

(** The TLB probe at the head of [access_page]: [true] when the method
    returns on a TLB hit. *)
Definition tlb_probe (h : handle) (page_index : Z) : M bool :=
  let* s := get in
  match tlb s with
  | None => ret false
  | Some t =>
      let* c := deref h in
      let (fr, t') := tlb_lookup t (pid c) page_index in
      modify (set_tlb (Some t')) ;;
      match fr with
      | None => ret false
      | Some frame_index =>
          let* content := ram_get frame_index in
          match content with
          | Some f => ram_set frame_index (Some (touch (access_clock s) f))
          | None => ret tt
          end ;;
          pte_update h page_index (set_last_access (access_clock s)) ;;
          ret true
      end
  end.

(** The branch of [access_page] for a page held in swap slot [slot]. *)
Definition swap_in (h : handle) (page_index slot : Z) : M bool :=
  let* c := deref h in
  let* s := get in
  let* got :=
    match free_frames s with
    | fr :: rest => modify (set_free_frames rest) ;; ret (Some fr)
    | [] =>
        let* victim := select_victim_frame in
        match victim with
        | None => log EvNoMarcoSwap ;; ret None
        | Some v =>
            swap_out_frame v ;;
            let* s1 := get in
            match free_frames s1 with
            | fr :: rest => modify (set_free_frames rest) ;; ret (Some fr)
            | [] => ret (Some v)
            end
        end
    end in
  match got with
  | None => ret false
  | Some frame_index =>
      let* s2 := get in
      ram_set frame_index
        (Some (mkFrame (pid c) page_index (ticks s2) (access_clock s2) true)) ;;
      pte_update h page_index
        (fun _ => mkPTE true (Some frame_index) None (access_clock s2)) ;;
      swap_set slot None ;;
      modify (fun s => set_free_swap_slots (free_swap_slots s ++ [slot]) s) ;;
      modify (fun s => set_swap_ins (swap_ins s + 1) s) ;;
      log (EvSwapIn page_index (pid c) slot frame_index) ;;
      when (is_algo s2 "FIFO")
           (modify (fun s => set_fifo_queue (fifo_queue s ++ [frame_index]) s)) ;;
      tlb_add_if_enabled (pid c) page_index (Some frame_index) ;;
      ret true
  end.

(** The branch of [access_page] for a page that was never loaded. *)
Definition load_new (h : handle) (page_index : Z) : M bool :=
  let* s := get in
  match free_frames s with
  | fr :: rest =>
      modify (set_free_frames rest) ;;
      place_page_in_frame h page_index fr ;;
      ret true
  | [] =>
      let* victim_frame := select_victim_frame in
      match victim_frame with
      | None => log EvNoMarcoNueva ;; ret false
      | Some v =>
          swap_out_frame v ;;
          place_page_in_frame h page_index v ;;
          ret true
      end
  end.

(** [access_page]: [True] for a hit or a serviced fault, [False] for an
    invalid page or a fault that could not be serviced. *)
Definition access_page (h : handle) (page_index : Z) : M bool :=
  modify (fun s => set_total_accesos (total_accesos s + 1) s) ;;
  modify (fun s => set_access_clock (access_clock s + 1) s) ;;
  modify (fun s => set_ticks (ticks s + 1) s) ;;
  let* tlb_hit := tlb_probe h page_index in
  if tlb_hit then ret true
  else
    let* c := deref h in
    match pt_get (tabla_paginas c) page_index with
    | None => log (EvAccesoInvalido page_index (pid c)) ;; ret false
    | Some entry =>
        if present entry then
          let* s := get in
          match frame entry with
          | Some frame_index =>
              let* content := ram_get frame_index in
              match content with
              | Some f => ram_set frame_index (Some (touch (access_clock s) f))
              | None => ret tt
              end
          | None => ret tt
          end ;;
          pte_update h page_index (set_last_access (access_clock s)) ;;
          tlb_add_if_enabled (pid c) page_index (frame entry) ;;
          ret true
        else
          modify (fun s => set_total_fallos (total_fallos s + 1) s) ;;
          log (EvFallo (pid c) page_index) ;;
          match swap_slot entry with
          | Some slot => swap_in h page_index slot
          | None => load_new h page_index
          end
    end.

(** ** Termination, scheduling and the queue operations *)

(** The body of the loop of [terminar_proceso] for one page-table entry. *)
Definition release_entry (entry : PTE) : M unit :=
  match frame entry with
  | Some fr =>
      if present entry then
        let* s := get in
        if (0 <=? fr) && (fr <? num_marcos_ram s) then
          let* content := ram_get fr in
          match content with
          | Some _ =>
              ram_set fr None ;;
              modify (fun s => set_free_frames (free_frames s ++ [fr]) s) ;;
              modify (fun s => set_fifo_queue (remove_first fr (fifo_queue s)) s)
          | None => ret tt
          end
        else ret tt
      else ret tt
  | None => ret tt
  end ;;
  match swap_slot entry with
  | Some slot =>
      let* s := get in
      if (0 <=? slot) && (slot <? num_marcos_swap s) then
        let* content := swap_get slot in
        match content with
        | Some _ =>
            swap_set slot None ;;
            modify (fun s => set_free_swap_slots (free_swap_slots s ++ [slot]) s)
        | None => ret tt
        end
      else ret tt
  | None => ret tt
  end.

(** [terminar_proceso]; the loop does not assign to the page table it
    iterates over. *)
Definition terminar_proceso (h : handle) (motivo : string) : M unit :=
  let* c := deref h in
  for_each (tabla_paginas c) release_entry ;;
  modify (fun s => set_tlb (option_map (fun t => tlb_invalidate_pid t (pid c)) (tlb s)) s) ;;
  update_pcb h (set_estado TERMINADO) ;;
  update_pcb h (set_motivo_terminacion motivo) ;;
  modify (fun s => set_procesos_terminados (procesos_terminados s ++ [h]) s) ;;
  log (EvTerminado (pid c) motivo).

(** [forzar_terminacion] *)
Definition forzar_terminacion (pid_a_matar : Z) : M unit :=
  let* s := get in
  match List.find (pcb_has_pid s pid_a_matar) (cola_listos s) with
  | Some h =>
      modify (fun s => set_cola_listos (remove_first_handle h (cola_listos s)) s) ;;
      terminar_proceso h "Forzada por Usuario"
  | None =>
    match List.find (pcb_has_pid s pid_a_matar) (cola_bloqueados s) with
    | Some h =>
        modify (fun s => set_cola_bloqueados (remove_first_handle h (cola_bloqueados s)) s) ;;
        terminar_proceso h "Forzada por Usuario"
    | None =>
      match List.find (pcb_has_pid s pid_a_matar) (option_list (proceso_actual s)) with
      | Some h =>
          terminar_proceso h "Forzada por Usuario" ;;
          modify (set_proceso_actual None)
      | None => log EvNoEncontradoTerminar
      end
    end
  end.

(** [suspender_proceso] *)
Definition suspender_proceso (p : Z) : M unit :=
  let* s := get in
  match List.find (pcb_has_pid s p) (option_list (proceso_actual s)) with
  | Some h =>
      update_pcb h (set_estado ESPERANDO) ;;
      modify (fun s => set_cola_bloqueados (cola_bloqueados s ++ [h]) s) ;;
      log (EvSuspendidoActual p) ;;
      modify (set_proceso_actual None)
  | None =>
    match List.find (pcb_has_pid s p) (cola_listos s) with
    | Some h =>
        modify (fun s => set_cola_listos (remove_first_handle h (cola_listos s)) s) ;;
        update_pcb h (set_estado ESPERANDO) ;;
        modify (fun s => set_cola_bloqueados (cola_bloqueados s ++ [h]) s) ;;
        log (EvSuspendido p)
    | None => log EvNoSuspender
    end
  end.

(** [reanudar_proceso] *)
Definition reanudar_proceso (p : Z) : M unit :=
  let* s := get in
  match List.find (pcb_has_pid s p) (cola_bloqueados s) with
  | Some h =>
      modify (fun s => set_cola_bloqueados (remove_first_handle h (cola_bloqueados s)) s) ;;
      update_pcb h (set_estado LISTO) ;;
      modify (fun s => set_cola_listos (cola_listos s ++ [h]) s) ;;
      log (EvReanudado p)
  | None => log EvNoReanudar
  end.

(** [planificar] *)
Definition planificar : M unit :=
  let* s := get in
  match proceso_actual s, cola_listos s with
  | None, h :: rest =>
      modify (set_cola_listos rest) ;;
      modify (set_proceso_actual (Some h)) ;;
      update_pcb h (set_estado EJECUTANDO) ;;
      let* c := deref h in
      log (EvDespacho (pid c))
  | _, _ => ret tt
  end.

(** The random draws of one scheduling cycle: whether
    [random.random() < arrival_prob], and the values behind the calls of
    [random.randint]. *)
Record Draws : Type := mkDraws {
  arrives : bool;
  d_tam : Z;
  d_instr : Z;
  d_prio : Z;
  d_page : Z
}.

(** [crear_proceso_aleatorio] *)
Definition crear_proceso_aleatorio (d : Draws) : M handle :=
  let* s := get in
  let* tam := randint 1 (Z.max 1 (Z.min (max_rand_mem s) (ram_kb s + swap_kb s))) (d_tam d) in
  let* instr := randint 1 (Z.max 1 (max_rand_instr s)) (d_instr d) in
  let nom := ("P" ++ pretty (contador_pid s) ++ "_rand")%string in
  let* prio := randint 1 10 (d_prio d) in
  crear_proceso nom tam prio instr.

(** [ejecutar_ciclo] *)
Definition ejecutar_ciclo (d : Draws) : M unit :=
  modify (fun s => set_ticks (ticks s + 1) s) ;;
  modify (fun s => set_access_clock (access_clock s + 1) s) ;;
  (if arrives d then crear_proceso_aleatorio d ;; ret tt else ret tt) ;;
  let* s := get in
  match proceso_actual s with None => planificar | Some _ => ret tt end ;;
  let* s := get in
  match proceso_actual s with
  | None => ret tt
  | Some p =>
      let* c := deref p in
      if paginas c =? 0 then
        terminar_proceso p "Sin páginas" ;;
        modify (set_proceso_actual None)
      else
        let* page_to_access := randint 0 (paginas c - 1) (d_page d) in
        access_page p page_to_access ;;
        let* c1 := deref p in
        update_pcb p (set_instrucciones_restantes (instrucciones_restantes c1 - 1)) ;;
        let* c2 := deref p in
        if instrucciones_restantes c2 <=? 0 then
          terminar_proceso p "Finalización Normal" ;;
          modify (set_proceso_actual None)
        else ret tt
  end.

(** [SimuladorOS(ram_kb, swap_kb, page_kb, replacement_algo, tlb_enabled,
    tlb_size, ..., max_rand_mem, max_rand_instr)]: [None] when the
    constructor raises [ZeroDivisionError]. *)
Definition init (ram_kb0 swap_kb0 page_kb0 : Z) (algo : string) (tlb_on : bool)
    (tlb_size max_mem max_instr : Z) : option SimuladorOS :=
  if page_kb0 =? 0 then None
  else
    let n := ram_kb0 / page_kb0 in
    let m := swap_kb0 / page_kb0 in
    Some {| ram_kb := ram_kb0; swap_kb := swap_kb0; page_kb := page_kb0;
            replacement_algo := upper algo; tlb_enabled := tlb_on;
            max_rand_mem := max_mem; max_rand_instr := max_instr;
            num_marcos_ram := n; num_marcos_swap := m;
            ram := replicate (Z.to_nat n) None; free_frames := py_range n;
            swap := replicate (Z.to_nat m) None; free_swap_slots := py_range m;
            fifo_queue := []; clock_pointer := 0;
            pcbs := []; cola_listos := []; cola_bloqueados := [];
            procesos_terminados := []; proceso_actual := None; contador_pid := 1;
            tlb := if tlb_on then Some (mkTLB tlb_size []) else None;
            total_accesos := 0; total_fallos := 0; swap_ins := 0; swap_outs := 0;
            ticks := 0; log_events := []; access_clock := 0 |}.

(** ** Driver scripts and reachable states *)

(** The operations the menu of [main] (and a test driver) performs on the
    simulator.  An operation that raises leaves its partial mutations in
    the state, as in Python; [OpCrear] is the one [main] recovers from.  A
    Python caller can only pass an existing [PCB] to [access_page]; the
    handles of [OpAccess] are not restricted, which only enlarges the set
    of reachable states. *)
Inductive Op : Type :=
  | OpCrear (nom : string) (tam_kb prio instr : Z)
  | OpAleatorio (d : Draws)
  | OpCiclo (d : Draws)
  | OpAccess (h : handle) (page_index : Z)
  | OpSuspender (p : Z)
  | OpReanudar (p : Z)
  | OpForzar (p : Z).

Definition do_op (o : Op) : M unit :=
  match o with
  | OpCrear nom tam_kb prio instr => crear_proceso nom tam_kb prio instr ;; ret tt
  | OpAleatorio d => crear_proceso_aleatorio d ;; ret tt
  | OpCiclo d => ejecutar_ciclo d
  | OpAccess h page_index => access_page h page_index ;; ret tt
  | OpSuspender p => suspender_proceso p
  | OpReanudar p => reanudar_proceso p
  | OpForzar p => forzar_terminacion p
  end.

Definition run_ops (ops : list Op) (s : SimuladorOS) : SimuladorOS :=
  fold_left (fun s o => snd (do_op o s)) ops s.

(** The configuration handed to the constructor. *)
Record Config : Type := mkConfig {
  cfg_ram_kb : Z;
  cfg_swap_kb : Z;
  cfg_page_kb : Z;
  cfg_replacement : string;
  cfg_tlb_enabled : bool;
  cfg_tlb_size : Z;
  cfg_max_rand_mem : Z;
  cfg_max_rand_instr : Z
}.

Definition boot (c : Config) : option SimuladorOS :=
  init (cfg_ram_kb c) (cfg_swap_kb c) (cfg_page_kb c) (cfg_replacement c)
       (cfg_tlb_enabled c) (cfg_tlb_size c) (cfg_max_rand_mem c) (cfg_max_rand_instr c).

(** The state a script leaves a freshly constructed simulator in. *)
Definition run_script (c : Config) (ops : list Op) : option SimuladorOS :=
  option_map (run_ops ops) (boot c).

Definition reachable (s : SimuladorOS) : Prop :=
  exists c ops, run_script c ops = Some s.

(** ** Frame conditions *)

(** [m] leaves the observation [f] of the state as it found it, whether it
    returns or raises. *)
Definition keeps {A B} (f : SimuladorOS -> A) (m : M B) : Prop :=
  forall s, f (snd (m s)) = f s.

(** ** Concrete simulators used by the examples *)

(** A simulator without frames, slots or processes. *)
Definition blank : SimuladorOS :=
  {| ram_kb := 0; swap_kb := 0; page_kb := 1; replacement_algo := "FIFO";
     tlb_enabled := false; max_rand_mem := 0; max_rand_instr := 0;
     num_marcos_ram := 0; num_marcos_swap := 0;
     ram := []; free_frames := []; swap := []; free_swap_slots := [];
     fifo_queue := []; clock_pointer := 0;
     pcbs := []; cola_listos := []; cola_bloqueados := [];
     procesos_terminados := []; proceso_actual := None; contador_pid := 1;
     tlb := None;
     total_accesos := 0; total_fallos := 0; swap_ins := 0; swap_outs := 0;
     ticks := 0; log_events := []; access_clock := 0 |}.

(** The state after a script ([blank] when the constructor raises). *)
Definition state_after (c : Config) (ops : list Op) : SimuladorOS :=
  default blank (run_script c ops).

(** One frame and one slot under FIFO, after admitting a three-page
    process: the last page is resident, page 0 is in the only slot. *)
Definition exhausted_cfg : Config := mkConfig 256 256 256 "FIFO" false 4 1024 30.
Definition exhausted_script : list Op := [OpCrear "P1" 768 1 10].
Definition exhausted_state : SimuladorOS := state_after exhausted_cfg exhausted_script.

(** The same shortage written down directly, with every table consistent:
    page 1 of process 1 in the only frame, page 0 in the only slot. *)
Definition exhausted_consistent : SimuladorOS :=
  {| ram_kb := 256; swap_kb := 256; page_kb := 256; replacement_algo := "LRU";
     tlb_enabled := false; max_rand_mem := 1024; max_rand_instr := 30;
     num_marcos_ram := 1; num_marcos_swap := 1;
     ram := [Some (mkFrame 1 1 0 0 true)]; free_frames := [];
     swap := [Some (mkSlot 1 0 0)]; free_swap_slots := [];
     fifo_queue := []; clock_pointer := 0;
     pcbs := [mkPCB 1 "P1" 512 1 10 10 LISTO 2
                    [mkPTE false None (Some 0) 0; mkPTE true (Some 0) None 0] ""];
     cola_listos := [0%nat]; cola_bloqueados := [];
     procesos_terminados := []; proceso_actual := None; contador_pid := 2;
     tlb := None;
     total_accesos := 0; total_fallos := 0; swap_ins := 0; swap_outs := 1;
     ticks := 0; log_events := []; access_clock := 0 |}.

(** Two frames under LRU with the TLB on: process 1 touches both of its
    pages, then the admission of process 2 evicts page 0 of process 1. *)
Definition stale_tlb_cfg : Config := mkConfig 512 512 256 "LRU" true 4 1024 30.
Definition stale_tlb_script : list Op :=
  [OpCrear "A" 512 1 10; OpAccess 0%nat 0; OpAccess 0%nat 1; OpCrear "B" 256 1 10].
Definition stale_tlb_state : SimuladorOS := state_after stale_tlb_cfg stale_tlb_script.

(** A page larger than the RAM: no frames at all. *)
Definition no_frames_cfg (algo : string) : Config :=
  mkConfig 128 512 256 algo false 4 1024 30.

(** One frame, two slots, and a replacement name that is none of the
    three algorithms. *)
Definition one_frame_cfg (algo : string) : Config :=
  mkConfig 256 512 256 algo false 4 1024 30.

(** ** Observations used in the statements *)

(** Everything but the frames and the CLOCK pointer. *)
Definition outside_clock (s : SimuladorOS) : SimuladorOS :=
  set_ram [] (set_clock_pointer 0 s).

(** The frames with their referenced bits forgotten. *)
Definition forget_referenced (fs : list (option Frame)) : list (option Frame) :=
  map (option_map clear_referenced) fs.

(** Two frames and two slots holding a two-page process, per policy. *)
Definition two_frame_cfg (algo : string) : Config :=
  mkConfig 512 512 256 algo false 4 1024 30.
Definition two_frame_state (algo : string) : SimuladorOS :=
  state_after (two_frame_cfg algo) [OpCrear "A" 512 1 5; OpAccess 0%nat 1].

(** An idle simulator to which a process of size 0 is admitted. *)
Definition zero_size_state : SimuladorOS :=
  state_after (two_frame_cfg "FIFO") [OpCrear "Z" 0 1 5].

(** How far the tick counter is ahead of the access clock. *)
Definition drift (s : SimuladorOS) : Z := ticks s - access_clock s.

(** The two counters, and with them the number of accesses counted. *)
Definition clock_pair (s : SimuladorOS) : Z * Z := (ticks s, access_clock s).

Definition clocks (s : SimuladorOS) : Z * Z * Z :=
  (ticks s, access_clock s, total_accesos s).

(** At most one access has been counted, and each counter has advanced by
    as much as the number of accesses. *)
Definition clock_step (v v' : Z * Z * Z) : Prop :=
  let '(t, a, n) := v in
  let '(t', a', n') := v' in
  t' - t = n' - n /\ a' - a = n' - n /\ 0 <= n' - n <= 1.

(** What [access_page] leaves behind for a page outside the table of the
    process [c]: three counters advanced and one log line. *)
Definition after_invalid_access (c : PCB) (page_index : Z) (s : SimuladorOS) : SimuladorOS :=
  set_log_events (log_events s ++ [(ticks s + 1, EvAccesoInvalido page_index (pid c))])
    (set_ticks (ticks s + 1)
       (set_access_clock (access_clock s + 1)
          (set_total_accesos (total_accesos s + 1) s))).

(** The TLB has no entry for page [page_index] of process [p]. *)
Definition tlb_misses (s : SimuladorOS) (p page_index : Z) : Prop :=
  forall t, tlb s = Some t -> od_get (p, page_index) (entries t) = None.

(** The swap side of the simulator and the two capacities. *)
Definition swap_side (s : SimuladorOS) : list (option Slot) * list Z * Z * Z :=
  (swap s, free_swap_slots s, num_marcos_ram s, num_marcos_swap s).

(** Everything but the frames, the free-frame queue and the FIFO queue. *)
Definition outside_release (s : SimuladorOS) : SimuladorOS :=
  set_ram [] (set_free_frames [] (set_fifo_queue [] s)).

(** The page-table entry of a page resident in frame [f]. *)
Definition resident_in (e : PTE) (f : Z) : Prop :=
  present e = true /\ frame e = Some f /\ swap_slot e = None.

Definition free_frame_count (s : SimuladorOS) : nat := length (free_frames s).
Definition free_slot_count (s : SimuladorOS) : nat := length (free_swap_slots s).

(** The ceiling of [tam_kb / page_kb]: the number of pages of a process of
    [tam_kb] KB whenever the code's float quotient is exact enough, as it
    is for sizes and page sizes of at most 53 bits. *)
Definition pages_for (s : SimuladorOS) (tam_kb : Z) : Z := - ((- tam_kb) / page_kb s).

(** The [PCB] that [crear_proceso] queues before it allocates pages. *)
Definition fresh_PCB (s : SimuladorOS) (nom : string) (tam_kb prio instr : Z) : PCB :=
  mkPCB (contador_pid s) nom tam_kb prio instr instr LISTO (pages_for s tam_kb)
        (replicate (Z.to_nat (pages_for s tam_kb)) (mkPTE false None None 0)) "".

(** The state in which [crear_proceso] starts to allocate pages: the new
    object is stored, the PID counter advanced, the state set to [LISTO],
    the process queued and the creation logged. *)
Definition before_allocation (s : SimuladorOS) (nom : string) (tam_kb prio instr : Z)
  : SimuladorOS :=
  let c := mkPCB (contador_pid s) nom tam_kb prio instr instr NUEVO (pages_for s tam_kb)
                 (replicate (Z.to_nat (pages_for s tam_kb)) (mkPTE false None None 0)) "" in
  set_log_events (log_events s ++ [(ticks s, EvCreado (contador_pid s))])
    (set_cola_listos (cola_listos s ++ [length (pcbs s)])
       (set_pcbs (<[length (pcbs s) := set_estado LISTO c]> (pcbs s ++ [c]))
          (set_contador_pid (contador_pid s + 1) (set_pcbs (pcbs s ++ [c]) s)))).

(** Eight frames and sixteen slots under FIFO, no process; a process of
    nine pages admitted to it; and that process terminated at once. *)
Definition eight_frame_cfg : Config := mkConfig 2048 4096 256 "FIFO" false 4 1024 30.
Definition fresh_eight : SimuladorOS := state_after eight_frame_cfg [].
Definition nine_pages_admitted : SimuladorOS :=
  snd (crear_proceso "A" 2304 1 10 fresh_eight).
Definition nine_pages_terminated : SimuladorOS :=
  snd (forzar_terminacion 1 nine_pages_admitted).

(** One frame and one slot under LRU, the frame taken by a one-page
    process. *)
Definition evict_cfg : Config := mkConfig 256 256 256 "LRU" false 4 1024 30.
Definition one_resident_state : SimuladorOS := state_after evict_cfg [OpCrear "P1" 256 1 5].

(** ** The registry invariant behind the TLB *)

(** The part of the state the invariant speaks about. *)
Definition pcb_view (s : SimuladorOS) : list PCB * option TLB * Z :=
  (pcbs s, tlb s, contador_pid s).

(** PIDs are handed out in creation order, starting from 1, and every key
    of the TLB names a page of an existing process. *)
Definition registry_ok (v : list PCB * option TLB * Z) : Prop :=
  let '(ps, t, next) := v in
  (forall h c, ps !! h = Some c -> pid c = Z.of_nat h + 1) /\
  next = Z.of_nat (length ps) + 1 /\
  (forall tl p page, t = Some tl -> (p, page) ∈ (entries tl).*1 ->
     exists h c, ps !! h = Some c /\ pid c = p /\
                 0 <= page < Z.of_nat (length (tabla_paginas c))).

Definition registry_inv (s : SimuladorOS) : Prop := registry_ok (pcb_view s).

(** The object behind [h] still has the PID and the page count of [c]. *)
Definition holds (h : handle) (c : PCB) (s : SimuladorOS) : Prop :=
  exists c', pcbs s !! h = Some c' /\ pid c' = pid c /\
             length (tabla_paginas c') = length (tabla_paginas c).

(** [page] is a key of the page table of the object behind [h]. *)
Definition page_known (h : handle) (page : Z) (s : SimuladorOS) : Prop :=
  exists c', pcbs s !! h = Some c' /\ 0 <= page < Z.of_nat (length (tabla_paginas c')).

(** Objects stay, with their PID and their page count. *)
Definition grows (s s' : SimuladorOS) : Prop :=
  forall h c, pcbs s !! h = Some c -> holds h c s'.

Definition stable (P : SimuladorOS -> Prop) : Prop :=
  forall s s', grows s s' -> P s -> P s'.

(** From a state with the invariant and [P], the computation [m] ends,
    returning or raising, in a state with the invariant in which the
    objects have stayed. *)
Definition sound {A} (P : SimuladorOS -> Prop) (m : M A) : Prop :=
  forall s, registry_inv s -> P s ->
            registry_inv (snd (m s)) /\ grows s (snd (m s)).

(** ** Further observations *)

(** The keys of a TLB are pairwise different, as in the [OrderedDict] it
    stands for, and their number is within the capacity. *)
Definition tlb_wf (t : TLB) : Prop :=
  NoDup (entries t).*1 /\ Z.of_nat (length (entries t)) <= Z.max 0 (size t).

(** The handles the simulator holds: the running process and the three
    queues. *)
Definition queued (s : SimuladorOS) (h : handle) : Prop :=
  proceso_actual s = Some h \/ h ∈ cola_listos s \/ h ∈ cola_bloqueados s \/
  h ∈ procesos_terminados s.

(** The memory side of the simulator: frames, swap, free queues,
    replacement state, TLB, counters and clocks. *)
Definition memory_view (s : SimuladorOS) :=
  (ram s, swap s, free_frames s, free_swap_slots s, fifo_queue s, clock_pointer s,
   tlb s, (total_accesos s, total_fallos s, swap_ins s, swap_outs s),
   (ticks s, access_clock s)).

(** The page tables of all processes, in creation order. *)
Definition page_tables (s : SimuladorOS) : list (list PTE) :=
  tabla_paginas <$> pcbs s.

(** Whatever [m] does, returning or raising, the state it leaves is
    related by [R] to the state it started from. *)
Definition evolves {A} (R : SimuladorOS -> SimuladorOS -> Prop) (m : M A) : Prop :=
  forall s, R s (snd (m s)).

(** The parameters fixed by the constructor. *)
Definition config_view (s : SimuladorOS) :=
  (ram_kb s, swap_kb s, page_kb s, replacement_algo s, tlb_enabled s,
   max_rand_mem s, max_rand_instr s, num_marcos_ram s, num_marcos_swap s).

(** No counter has gone down. *)
Definition counters_le (s s' : SimuladorOS) : Prop :=
  ticks s <= ticks s' /\ access_clock s <= access_clock s' /\
  total_accesos s <= total_accesos s' /\ total_fallos s <= total_fallos s' /\
  swap_ins s <= swap_ins s' /\ swap_outs s <= swap_outs s' /\
  contador_pid s <= contador_pid s'.

(** The event log has only been appended to. *)
Definition log_extended (s s' : SimuladorOS) : Prop :=
  log_events s `prefix_of` log_events s'.

(** The sizes of the two arrays. *)
Definition array_sizes (s : SimuladorOS) : nat * nat :=
  (length (ram s), length (swap s)).

(** What identifies a process and never changes: PID, name, size,
    priority, total instruction count, page count and page-table size. *)
Definition identity (c : PCB) :=
  (pid c, nombre c, tamano_kb c, prioridad c, instrucciones_totales c, paginas c,
   length (tabla_paginas c)).

(** Every object is still there, with the same identity. *)
Definition objects_persist (s s' : SimuladorOS) : Prop :=
  forall h c, pcbs s !! h = Some c ->
              exists c', pcbs s' !! h = Some c' /\ identity c' = identity c.

(** The three counters an access touches. *)
Definition metrics (s : SimuladorOS) : Z * Z * Z :=
  (total_accesos s, total_fallos s, swap_ins s).

(** [R] between the values of an observation before and after. *)
Definition on {V} (f : SimuladorOS -> V) (Rv : V -> V -> Prop)
  : SimuladorOS -> SimuladorOS -> Prop :=
  fun s s' => Rv (f s) (f s').

(** At most one swap-in more, accesses and faults as they were. *)
Definition swap_in_step (v v' : Z * Z * Z) : Prop :=
  let '(a, f, i) := v in
  let '(a', f', i') := v' in
  a' = a /\ f' = f /\ i <= i' <= i + 1.

(** At most one fault more, and a swap-in only together with a fault. *)
Definition fault_step (v v' : Z * Z * Z) : Prop :=
  let '(a, f, i) := v in
  let '(a', f', i') := v' in
  a' = a /\ 0 <= i' - i /\ i' - i <= f' - f /\ f' - f <= 1.

(** The counters are ordered as their meaning requires. *)
Definition metrics_ordered (s : SimuladorOS) : Prop :=
  0 <= swap_ins s /\ swap_ins s <= total_fallos s /\ total_fallos s <= total_accesos s.

Definition keeps_ordered (s s' : SimuladorOS) : Prop :=
  metrics_ordered s -> metrics_ordered s'.

(** The TLB keeps its capacity, and stays well formed if it was. *)
Definition tlb_ok (s s' : SimuladorOS) : Prop :=
  option_map size (tlb s') = option_map size (tlb s) /\
  ((forall t, tlb s = Some t -> tlb_wf t) -> forall t, tlb s' = Some t -> tlb_wf t).

(** With at least one frame, the CLOCK pointer is a frame index. *)
Definition pointer_in_range (s : SimuladorOS) : Prop :=
  0 < num_marcos_ram s -> 0 <= clock_pointer s < num_marcos_ram s.

Definition keeps_pointer (s s' : SimuladorOS) : Prop :=
  num_marcos_ram s' = num_marcos_ram s /\ (pointer_in_range s -> pointer_in_range s').

(** Two frames under CLOCK, filled by one process and then claimed by a
    second one. *)
Definition clock_script : list Op := [OpCrear "A" 512 1 5; OpCrear "B" 512 1 5].
Definition clock_state : SimuladorOS := state_after (two_frame_cfg "CLOCK") clock_script.

(** ** Admission *)

(** The number of entries of the page table of a process of [tam_kb] KB. *)
Definition page_count (s : SimuladorOS) (tam_kb : Z) : nat := Z.to_nat (pages_for s tam_kb).

(** What an admission into free frames leaves alone. *)
Definition admission_untouched (s : SimuladorOS) :=
  (swap s, free_swap_slots s, tlb s, clock_pointer s,
   (total_accesos s, total_fallos s, swap_ins s, swap_outs s),
   (ticks s, access_clock s),
   (proceso_actual s, cola_bloqueados s, procesos_terminados s)).

Definition free_path_view (s : SimuladorOS) :=
  (admission_untouched s, cola_listos s, contador_pid s, replacement_algo s).

(** The state [place_page_in_frame] leaves when the frame and the page
    exist; [c] is the [PCB] the handle stands for. *)
Definition placed (h : handle) (pagina f : Z) (c : PCB) (s : SimuladorOS) : SimuladorOS :=
  set_log_events (log_events s ++ [(ticks s, EvCargada pagina (pid c) f)])
    ((if is_algo s "FIFO" then set_fifo_queue (fifo_queue s ++ [f]) else fun x => x)
       (set_pcbs
          (<[h := set_tabla_paginas
                    (<[Z.to_nat pagina := mkPTE true (Some f) None (ticks s)]> (tabla_paginas c))
                    c]> (pcbs s))
          (set_ram (<[Z.to_nat f := Some (mkFrame (pid c) pagina (ticks s) (ticks s) true)]>
                      (ram s)) s))).

(** No frame can be taken from anybody: the LRU scan finds no occupied
    frame, or the FIFO queue (also used for unknown policy names) is
    empty. *)
Definition no_victim (s : SimuladorOS) : Prop :=
  (replacement_algo s = "LRU" /\ forall i f, ram s !! i <> Some (Some f)) \/
  (replacement_algo s <> "LRU" /\ replacement_algo s <> "CLOCK" /\ fifo_queue s = []).

(** What an admission that goes to swap leaves alone. *)
Definition swap_admission_untouched (s : SimuladorOS) :=
  (ram s, free_frames s, fifo_queue s, tlb s, clock_pointer s,
   (total_accesos s, total_fallos s, swap_ins s),
   (ticks s, access_clock s),
   (proceso_actual s, cola_bloqueados s, procesos_terminados s)).

Definition swap_path_view (s : SimuladorOS) :=
  (swap_admission_untouched s, cola_listos s, contador_pid s, replacement_algo s).

(** The state the admission loop leaves after it sent a page directly to
    the swap slot [slot]; [e] is the entry of the page before. *)
Definition stored (h : handle) (pagina slot : Z) (c : PCB) (e : PTE) (rest : list Z)
    (s : SimuladorOS) : SimuladorOS :=
  set_swap_outs (swap_outs s + 1)
    (set_log_events (log_events s ++ [(ticks s, EvDirectoSwap pagina (pid c) slot)])
       (set_swap (<[Z.to_nat slot := Some (mkSlot (pid c) pagina (ticks s))]> (swap s))
          (set_pcbs
             (<[h := set_tabla_paginas
                       (<[Z.to_nat pagina := mkPTE false None (Some slot) (last_access e)]>
                          (tabla_paginas c)) c]> (pcbs s))
             (set_free_swap_slots rest s)))).

(** A result of [m] that is not an exception satisfies [P]. *)
Definition yields {A} (P : A -> Prop) (m : M A) : Prop :=
  forall s a, fst (m s) = Ok a -> P a.

(** ** Termination *)

(** What [terminar_proceso] leaves alone: the running process and the two
    queues (its callers update them), the counters, the clocks, the CLOCK
    pointer and the PID counter. *)
Definition termination_untouched (s : SimuladorOS) :=
  ((proceso_actual s, cola_listos s, cola_bloqueados s),
   (total_accesos s, total_fallos s, swap_ins s, swap_outs s),
   (ticks s, access_clock s), clock_pointer s, contador_pid s).

Definition release_view (s : SimuladorOS) :=
  (termination_untouched s, pcbs s, tlb s, procesos_terminados s, log_events s,
   num_marcos_ram s, num_marcos_swap s).

(** Memory is only given back: the arrays keep their sizes, whatever
    occupies a frame or a slot afterwards occupied it before, the free
    queues are only appended to and the FIFO queue only loses elements. *)
Definition frees (s s' : SimuladorOS) : Prop :=
  length (ram s') = length (ram s) /\
  length (swap s') = length (swap s) /\
  (forall i x, ram s' !! i = Some (Some x) -> ram s !! i = Some (Some x)) /\
  (forall i x, swap s' !! i = Some (Some x) -> swap s !! i = Some (Some x)) /\
  free_frames s `prefix_of` free_frames s' /\
  free_swap_slots s `prefix_of` free_swap_slots s' /\
  fifo_queue s' `sublist_of` fifo_queue s.

Definition released (s s' : SimuladorOS) : Prop :=
  frees s s' /\ release_view s' = release_view s.

(** ** Eviction and page access *)

(** What an eviction leaves alone; the TLB is part of it. *)
Definition eviction_untouched (s : SimuladorOS) :=
  (tlb s, clock_pointer s, (total_accesos s, total_fallos s, swap_ins s),
   (ticks s, access_clock s),
   (proceso_actual s, cola_listos s, cola_bloqueados s, procesos_terminados s),
   contador_pid s, replacement_algo s).

(** What a page access leaves alone whatever it does to memory. *)
Definition access_untouched (s : SimuladorOS) :=
  (clock_pointer s,
   (proceso_actual s, cola_listos s, cola_bloqueados s, procesos_terminados s),
   contador_pid s, replacement_algo s).

(** What a hit leaves alone. *)
Definition hit_untouched (s : SimuladorOS) :=
  (swap s, free_frames s, free_swap_slots s, fifo_queue s, log_events s,
   (total_fallos s, swap_ins s, swap_outs s), access_untouched s).

(** The only page of the only process, evicted by hand. *)
Definition one_evicted_state : SimuladorOS := snd (swap_out_frame 0 one_resident_state).

Definition no_PCB : PCB := mkPCB 0 "" 0 0 0 0 NUEVO 0 [] "".

(** ** The scheduling cycle *)

(** Everything of a process but its page table. *)
Definition pcb_static (c : PCB) : PCB := set_tabla_paginas [] c.

(** The scheduler's side of the state. *)
Definition cpu_view (s : SimuladorOS) :=
  (proceso_actual s, cola_listos s, cola_bloqueados s, procesos_terminados s,
   pcb_static <$> pcbs s, (num_marcos_ram s, num_marcos_swap s)).

(** The process a cycle runs: the current one, or else the head of the
    ready queue. *)
Definition current_or_next (s : SimuladorOS) : option handle :=
  match proceso_actual s with
  | Some p => Some p
  | None => head (cola_listos s)
  end.

(** The part of [ejecutar_ciclo] that runs the current process [p]. *)
Definition run_current (d : Draws) (p : handle) : M unit :=
  let* c := deref p in
  if paginas c =? 0 then
    terminar_proceso p "Sin páginas" ;;
    modify (set_proceso_actual None)
  else
    let* page_to_access := randint 0 (paginas c - 1) (d_page d) in
    access_page p page_to_access ;;
    let* c1 := deref p in
    update_pcb p (set_instrucciones_restantes (instrucciones_restantes c1 - 1)) ;;
    let* c2 := deref p in
    if instrucciones_restantes c2 <=? 0 then
      terminar_proceso p "Finalización Normal" ;;
      modify (set_proceso_actual None)
    else ret tt.

Definition quiet : Draws := mkDraws false 0 0 0 0.

(** * Properties *)

(** ** Reasoning about computations in [M] *)

Lemma bind_ok {A B} (m : M A) (k : A -> M B) s a s' :
  m s = (Ok a, s') -> bind m k s = k a s'.
Proof. intros H. unfold bind. now rewrite H. Qed.

Lemma bind_raise {A B} (m : M A) (k : A -> M B) s e s' :
  m s = (Raise e, s') -> bind m k s = (Raise e, s').
Proof. intros H. unfold bind. now rewrite H. Qed.

Lemma modify_bind {B} (f : SimuladorOS -> SimuladorOS) (k : unit -> M B) s :
  bind (modify f) k s = k tt (f s).
Proof. reflexivity. Qed.

Lemma get_bind {B} (k : SimuladorOS -> M B) s : bind get k s = k s s.
Proof. reflexivity. Qed.

Lemma ret_bind {A B} (a : A) (k : A -> M B) s : bind (ret a) k s = k a s.
Proof. reflexivity. Qed.

Section Keeps.
Context {T : Type} (f : SimuladorOS -> T).

Lemma keeps_ret {A} (a : A) : keeps f (ret a).
Proof. now intros s. Qed.

Lemma keeps_raise {A} e : keeps f (@raise A e).
Proof. now intros s. Qed.

Lemma keeps_get : keeps f get.
Proof. now intros s. Qed.

Lemma keeps_bind {A B} (m : M A) (k : A -> M B) :
  keeps f m -> (forall a, keeps f (k a)) -> keeps f (bind m k).
Proof.
  intros Hm Hk s. unfold bind. specialize (Hm s).
  destruct (m s) as [[a|e] s1]; simpl in *.
  - now rewrite Hk.
  - exact Hm.
Qed.

Lemma keeps_modify (g : SimuladorOS -> SimuladorOS) :
  (forall s, f (g s) = f s) -> keeps f (modify g).
Proof. intros H s. apply H. Qed.

Lemma keeps_lift_opt {A} e (o : option A) : keeps f (lift_opt e o).
Proof. destruct o; [apply keeps_ret | apply keeps_raise]. Qed.

Lemma keeps_for_each {A} (xs : list A) (body : A -> M unit) :
  (forall x, keeps f (body x)) -> keeps f (for_each xs body).
Proof.
  intros H. induction xs as [|x xs IH]; simpl.
  - apply keeps_ret.
  - apply keeps_bind; auto.
Qed.

Lemma keeps_py_mod a b : keeps f (py_mod a b).
Proof. unfold py_mod. destruct (b =? 0); [apply keeps_raise | apply keeps_ret]. Qed.

Lemma keeps_randint a b d : keeps f (randint a b d).
Proof. unfold randint. destruct (b <? a); [apply keeps_raise | apply keeps_ret]. Qed.

Lemma keeps_deref h : keeps f (deref h).
Proof. unfold deref. apply keeps_bind; [apply keeps_get | intros; apply keeps_lift_opt]. Qed.

Lemma keeps_ram_get i : keeps f (ram_get i).
Proof. unfold ram_get. apply keeps_bind; [apply keeps_get | intros; apply keeps_lift_opt]. Qed.

Lemma keeps_swap_get i : keeps f (swap_get i).
Proof. unfold swap_get. apply keeps_bind; [apply keeps_get | intros; apply keeps_lift_opt]. Qed.

End Keeps.

(** One step of a frame-condition proof: split a [bind], close a
    primitive, branch on a scrutinee, or unfold the method at the head. *)
Ltac keeps_head m :=
  lazymatch m with
  | ?f _ _ _ _ _ => unfold f
  | ?f _ _ _ _ => unfold f
  | ?f _ _ _ => unfold f
  | ?f _ _ => unfold f
  | ?f _ => unfold f
  | ?f => unfold f
  end.

Ltac keeps_step :=
  lazymatch goal with
  | |- keeps _ (bind _ _) => apply keeps_bind; [| intro]
  | |- keeps _ (ret _) => apply keeps_ret
  | |- keeps _ (raise _) => apply keeps_raise
  | |- keeps _ get => apply keeps_get
  | |- keeps _ (modify _) => apply keeps_modify; intro; first [reflexivity | solve [auto]]
  | |- keeps _ (lift_opt _ _) => apply keeps_lift_opt
  | |- keeps _ (py_mod _ _) => apply keeps_py_mod
  | |- keeps _ (randint _ _ _) => apply keeps_randint
  | |- keeps _ (for_each _ _) => apply keeps_for_each; intro
  | |- keeps _ (match ?x with _ => _ end) => destruct x
  | |- keeps _ ?m => first [ solve [auto with keeps] | keeps_head m ]
  end.

Ltac keeps_auto := repeat keeps_step.

Create HintDb keeps.

(** Reduce the projections of a state built by setters. *)
Ltac proj_simpl :=
  cbn [
    ram_kb swap_kb page_kb replacement_algo tlb_enabled max_rand_mem max_rand_instr
    num_marcos_ram num_marcos_swap ram free_frames swap free_swap_slots fifo_queue
    clock_pointer pcbs cola_listos cola_bloqueados procesos_terminados proceso_actual
    contador_pid tlb total_accesos total_fallos swap_ins swap_outs ticks log_events
    access_clock set_ram set_free_frames set_swap set_free_swap_slots set_fifo_queue
    set_clock_pointer set_pcbs set_cola_listos set_cola_bloqueados set_procesos_terminados
    set_proceso_actual set_contador_pid set_tlb set_total_accesos set_total_fallos
    set_swap_ins set_swap_outs set_ticks set_log_events set_access_clock
    pid nombre tamano_kb prioridad instrucciones_totales instrucciones_restantes estado
    paginas tabla_paginas motivo_terminacion set_tabla_paginas set_estado
    set_motivo_terminacion set_instrucciones_restantes ].

Tactic Notation "proj_simpl" "in" hyp(H) :=
  cbn [
    ram_kb swap_kb page_kb replacement_algo tlb_enabled max_rand_mem max_rand_instr
    num_marcos_ram num_marcos_swap ram free_frames swap free_swap_slots fifo_queue
    clock_pointer pcbs cola_listos cola_bloqueados procesos_terminados proceso_actual
    contador_pid tlb total_accesos total_fallos swap_ins swap_outs ticks log_events
    access_clock set_ram set_free_frames set_swap set_free_swap_slots set_fifo_queue
    set_clock_pointer set_pcbs set_cola_listos set_cola_bloqueados set_procesos_terminados
    set_proceso_actual set_contador_pid set_tlb set_total_accesos set_total_fallos
    set_swap_ins set_swap_outs set_ticks set_log_events set_access_clock
    pid nombre tamano_kb prioridad instrucciones_totales instrucciones_restantes estado
    paginas tabla_paginas motivo_terminacion set_tabla_paginas set_estado
    set_motivo_terminacion set_instrucciones_restantes ] in H.

(** ** Policy names *)

Lemma upper_ascii_idempotent (c : ascii) : upper_ascii (upper_ascii c) = upper_ascii c.
Proof. destruct c as [[] [] [] [] [] [] [] []]; reflexivity. Qed.

(** The constructor sees a policy name only through [upper], which leaves
    an upper-cased name unchanged. *)
Lemma upper_idempotent (s : string) : upper (upper s) = upper s.
Proof.
  induction s as [|c s IH]; simpl; [reflexivity|].
  now rewrite upper_ascii_idempotent, IH.
Qed.

(** ** LRU victim selection *)

(** The invariant of the LRU loop: the result is either the accumulator it
    started from, when no remaining frame is strictly older, or the first
    remaining frame whose stamp is minimal and strictly below the
    accumulator's. *)
Lemma lru_loop_inv (fs : list (option Frame)) : forall (i : Z) (acc : option (Z * Z)),
  match lru_loop i fs acc with
  | None => acc = None /\ forall k f, fs !! k = Some (Some f) -> False
  | Some (v, t) =>
      (acc = Some (v, t) /\
       forall k f, fs !! k = Some (Some f) -> t <= fr_last_access f)
      \/
      (exists (k : nat) f,
          v = i + Z.of_nat k /\ fs !! k = Some (Some f) /\ fr_last_access f = t /\
          (forall k' f', fs !! k' = Some (Some f') -> t <= fr_last_access f') /\
          (forall k' f', (k' < k)%nat -> fs !! k' = Some (Some f') ->
                         t < fr_last_access f') /\
          (forall j t0, acc = Some (j, t0) -> t < t0))
  end.
Proof.
  induction fs as [|o fs IH]; intros i acc; simpl.
  - destruct acc as [[v t]|].
    + left. split; [reflexivity|]. intros k f H. now rewrite lookup_nil in H.
    + split; [reflexivity|]. intros k f H. now rewrite lookup_nil in H.
  - destruct o as [f0|].
    + (* an occupied frame *)
      assert (Hnew : forall (acc' : option (Z * Z)),
                 acc' = Some (i, fr_last_access f0) ->
                 (forall j t0, acc = Some (j, t0) -> fr_last_access f0 < t0) ->
                 match lru_loop (i + 1) fs acc' with
                 | None => acc = None /\ forall k f, (Some f0 :: fs) !! k = Some (Some f) -> False
                 | Some (v, t) =>
                     (acc = Some (v, t) /\
                      forall k f, (Some f0 :: fs) !! k = Some (Some f) -> t <= fr_last_access f)
                     \/
                     (exists (k : nat) f,
                         v = i + Z.of_nat k /\ (Some f0 :: fs) !! k = Some (Some f) /\
                         fr_last_access f = t /\
                         (forall k' f', (Some f0 :: fs) !! k' = Some (Some f') ->
                                        t <= fr_last_access f') /\
                         (forall k' f', (k' < k)%nat -> (Some f0 :: fs) !! k' = Some (Some f') ->
                                        t < fr_last_access f') /\
                         (forall j t0, acc = Some (j, t0) -> t < t0))
                 end).
      { intros acc' -> Hlt. specialize (IH (i + 1) (Some (i, fr_last_access f0))).
        destruct (lru_loop (i + 1) fs (Some (i, fr_last_access f0))) as [[v t]|].
        - right. destruct IH as [[Heq Hmin] | (k & f & Hv & Hk & Hla & Hmin & Hfirst & Hacc)].
          + injection Heq as <- <-. exists 0%nat, f0. repeat split.
            * lia.
            * intros [|k'] f' Hk'; simpl in Hk'.
              -- injection Hk' as <-. lia.
              -- eauto.
            * intros k' f' Hlt'. lia.
            * exact Hlt.
          + exists (S k), f. repeat split; try assumption.
            * lia.
            * intros [|k'] f' Hk'; simpl in Hk'.
              -- injection Hk' as <-. specialize (Hacc _ _ eq_refl). lia.
              -- eauto.
            * intros [|k'] f' Hlt' Hk'; simpl in Hk'.
              -- injection Hk' as <-. exact (Hacc _ _ eq_refl).
              -- apply (Hfirst k'); [lia | assumption].
            * intros j t0 Hj. specialize (Hacc _ _ eq_refl). specialize (Hlt _ _ Hj). lia.
        - destruct IH as [IH _]. discriminate IH. }
      destruct acc as [[j0 t0]|].
      * destruct (fr_last_access f0 <? t0) eqn:Hcmp.
        -- apply Hnew; [reflexivity|]. intros j t1 [= <- <-]. lia.
        -- specialize (IH (i + 1) (Some (j0, t0))).
           destruct (lru_loop (i + 1) fs (Some (j0, t0))) as [[v t]|].
           ++ destruct IH as [[Heq Hmin] | (k & f & Hv & Hk & Hla & Hmin & Hfirst & Hacc)].
              ** left. split; [assumption|]. injection Heq as <- <-.
                 intros [|k'] f' Hk'; simpl in Hk'.
                 --- injection Hk' as <-. lia.
                 --- eauto.
              ** right. exists (S k), f. repeat split; try assumption.
                 --- lia.
                 --- intros [|k'] f' Hk'; simpl in Hk'.
                     +++ injection Hk' as <-. specialize (Hacc _ _ eq_refl). lia.
                     +++ eauto.
                 --- intros [|k'] f' Hlt' Hk'; simpl in Hk'.
                     +++ injection Hk' as <-. specialize (Hacc _ _ eq_refl). lia.
                     +++ apply (Hfirst k'); [lia | assumption].
           ++ destruct IH as [IH _]. discriminate IH.
      * apply Hnew; [reflexivity|]. intros j t0 [=].
    + (* an empty frame *)
      specialize (IH (i + 1) acc).
      destruct (lru_loop (i + 1) fs acc) as [[v t]|].
      * destruct IH as [[Heq Hmin] | (k & f & Hv & Hk & Hla & Hmin & Hfirst & Hacc)].
        -- left. split; [assumption|]. intros [|k'] f' Hk'; simpl in Hk'; [discriminate | eauto].
        -- right. exists (S k), f. repeat split; try assumption.
           ++ lia.
           ++ intros [|k'] f' Hk'; simpl in Hk'; [discriminate | eauto].
           ++ intros [|k'] f' Hlt' Hk'; simpl in Hk'; [discriminate|].
              apply (Hfirst k'); [lia | assumption].
      * destruct IH as [-> Hnone]. split; [reflexivity|].
        intros [|k'] f' Hk'; simpl in Hk'; [discriminate | eauto].
Qed.

(** What [select_lru] returns on a list of frames with an occupied one. *)
Lemma select_lru_spec (fs : list (option Frame)) :
  (exists i f, fs !! i = Some (Some f)) ->
  exists (v : nat) fv,
    select_lru fs = Some (Z.of_nat v) /\ fs !! v = Some (Some fv) /\
    (forall j fj, fs !! j = Some (Some fj) -> fr_last_access fv <= fr_last_access fj) /\
    (forall j fj, fs !! j = Some (Some fj) ->
                  fr_last_access fj = fr_last_access fv -> (v <= j)%nat).
Proof.
  intros (i & f & Hi). unfold select_lru.
  pose proof (lru_loop_inv fs 0 None) as H.
  destruct (lru_loop 0 fs None) as [[v t]|].
  - destruct H as [[Heq _] | (k & fk & Hv & Hk & Hla & Hmin & Hfirst & _)]; [discriminate|].
    exists k, fk. simpl. subst v t. repeat split; try assumption.
    intros j fj Hj Heq. destruct (Nat.le_gt_cases k j) as [Hle|Hgt]; [assumption|].
    specialize (Hfirst j fj Hgt Hj). lia.
  - destruct H as [_ H]. exfalso. eauto.
Qed.

Lemma select_victim_frame_lru (s : SimuladorOS) :
  replacement_algo s = "LRU" ->
  select_victim_frame s = (Ok (select_lru (ram s)), s).
Proof.
  intros H. unfold select_victim_frame, is_algo. rewrite get_bind, H. reflexivity.
Qed.

(** C7.  Under LRU, when some frame is occupied, [select_victim_frame]
    returns (without changing the state) the index of an occupied frame
    whose [last_access] is the minimum over the occupied frames, and every
    occupied frame with the same stamp has an index at least as large. *)
Theorem select_victim_lru_minimum (s : SimuladorOS) :
  replacement_algo s = "LRU" ->
  (exists i f, ram s !! i = Some (Some f)) ->
  exists (v : nat) fv,
    select_victim_frame s = (Ok (Some (Z.of_nat v)), s) /\
    ram s !! v = Some (Some fv) /\
    (forall j fj, ram s !! j = Some (Some fj) ->
                  fr_last_access fv <= fr_last_access fj) /\
    (forall j fj, ram s !! j = Some (Some fj) ->
                  fr_last_access fj = fr_last_access fv -> (v <= j)%nat).
Proof.
  intros Halgo Hocc. rewrite (select_victim_frame_lru s Halgo).
  destruct (select_lru_spec (ram s) Hocc) as (v & fv & Hsel & Hv & Hmin & Htie).
  exists v, fv. rewrite Hsel. auto.
Qed.

(** ** A fault with neither a free frame nor a free slot *)

(** On the consistent shortage the fault on the swapped page 0 is reported
    as serviced, and page 0 replaces page 1 in the frame although page 1
    was written nowhere: its entry still names frame 0. *)
Lemma access_overwrites_on_consistent_state :
  free_frames exhausted_consistent = [] /\
  free_swap_slots exhausted_consistent = [] /\
  fst (access_page 0%nat 0 exhausted_consistent) = Ok true /\
  ram (snd (access_page 0%nat 0 exhausted_consistent)) = [Some (mkFrame 1 0 1 1 true)] /\
  map tabla_paginas (pcbs (snd (access_page 0%nat 0 exhausted_consistent))) =
    [[mkPTE true (Some 0) None 1; mkPTE true (Some 0) None 0]].
Proof. vm_compute. repeat split. Qed.

(** C1 (defect).  After the script
    [exhausted_script] page 0 of process 1 is in the only swap slot, the
    only frame holds page 2, and both free queues are empty.  The access
    to page 0 returns [True], overwrites the frame with page 0 and empties
    the slot, instead of reporting an unresolved fault and leaving frames,
    slots and page tables alone. *)
Theorem access_swapped_without_slot_overwrites_victim :
  run_script exhausted_cfg exhausted_script = Some exhausted_state /\
  free_frames exhausted_state = [] /\
  free_swap_slots exhausted_state = [] /\
  ram exhausted_state = [Some (mkFrame 1 2 0 0 true)] /\
  swap exhausted_state = [Some (mkSlot 1 0 0)] /\
  (pcbs exhausted_state !! 0%nat) ≫= (fun c => pt_get (tabla_paginas c) 0)
    = Some (mkPTE false None (Some 0) 0) /\
  fst (access_page 0%nat 0 exhausted_state) = Ok true /\
  ram (snd (access_page 0%nat 0 exhausted_state)) = [Some (mkFrame 1 0 1 1 true)] /\
  swap (snd (access_page 0%nat 0 exhausted_state)) = [None] /\
  (pcbs (snd (access_page 0%nat 0 exhausted_state)) !! 0%nat)
      ≫= (fun c => pt_get (tabla_paginas c) 2)
    = Some (mkPTE true (Some 0) None 0).
Proof. vm_compute. repeat split. Qed.

(** ** The TLB after an eviction *)

(** [swap_out_frame] never assigns to the TLB. *)
Lemma swap_out_frame_keeps_tlb frame_index : keeps tlb (swap_out_frame frame_index).
Proof. keeps_auto. Qed.

(** C2 (defect).  In the state reached by
    [stale_tlb_script] the TLB maps page 0 of process 1 to frame 0, which
    after the eviction holds page 0 of process 2, while the page table has
    page 0 of process 1 in swap slot 0.  The next access to that page
    returns [True] on the TLB hit: no fault is counted and the page stays
    in swap. *)
Theorem tlb_entry_survives_eviction :
  run_script stale_tlb_cfg stale_tlb_script = Some stale_tlb_state /\
  tlb stale_tlb_state = Some (mkTLB 4 [((1, 0), Some 0); ((1, 1), Some 1)]) /\
  ram stale_tlb_state !! 0%nat = Some (Some (mkFrame 2 0 2 2 true)) /\
  (pcbs stale_tlb_state !! 0%nat) ≫= (fun c => pt_get (tabla_paginas c) 0)
    = Some (mkPTE false None (Some 0) 2) /\
  fst (access_page 0%nat 0 stale_tlb_state) = Ok true /\
  total_fallos (snd (access_page 0%nat 0 stale_tlb_state)) = total_fallos stale_tlb_state /\
  swap (snd (access_page 0%nat 0 stale_tlb_state)) = swap stale_tlb_state /\
  (pcbs (snd (access_page 0%nat 0 stale_tlb_state)) !! 0%nat)
      ≫= (fun c => pt_get (tabla_paginas c) 0)
    = Some (mkPTE false None (Some 0) 3).
Proof. vm_compute. repeat split. Qed.

(** ** No frames at all *)

(** With CLOCK and no frames the loop is skipped and the modulus after it
    has a zero divisor. *)
Lemma select_victim_frame_clock_no_frames (s : SimuladorOS) :
  replacement_algo s = "CLOCK" -> num_marcos_ram s = 0 ->
  select_victim_frame s = (Raise ZeroDivisionError, s).
Proof.
  intros Halgo Hn. unfold select_victim_frame, is_algo.
  rewrite get_bind, Halgo, Hn. reflexivity.
Qed.

(** Under FIFO and LRU the pages of a three-page process go to the two
    slots in order and the third page stays unassigned. *)
Lemma no_frames_fifo_lru_fill_swap :
  forall algo, algo = "FIFO" \/ algo = "LRU" ->
    let s := state_after (no_frames_cfg algo) [OpCrear "A" 768 1 5] in
    swap s = [Some (mkSlot 1 0 0); Some (mkSlot 1 1 0)] /\
    map tabla_paginas (pcbs s) =
      [[mkPTE false None (Some 0) 0; mkPTE false None (Some 1) 0; mkPTE false None None 0]].
Proof. intros algo [-> | ->]; vm_compute; split; reflexivity. Qed.

(** C3 (defect).  With [page_kb = 256 > ram_kb = 128]
    and the CLOCK policy the constructor succeeds with zero frames, and the
    admission of a one-page process raises [ZeroDivisionError] inside
    victim selection; the process is left in the ready queue with its page
    unassigned and both slots still free. *)
Theorem admission_clock_no_frames_raises :
  option_map num_marcos_ram (boot (no_frames_cfg "CLOCK")) = Some 0 /\
  fst (select_victim_frame (state_after (no_frames_cfg "CLOCK") [])) =
    Raise ZeroDivisionError /\
  fst (crear_proceso "A" 256 1 5 (state_after (no_frames_cfg "CLOCK") [])) =
    Raise ZeroDivisionError /\
  free_swap_slots (snd (crear_proceso "A" 256 1 5 (state_after (no_frames_cfg "CLOCK") [])))
    = [0; 1] /\
  map tabla_paginas
      (pcbs (snd (crear_proceso "A" 256 1 5 (state_after (no_frames_cfg "CLOCK") []))))
    = [[mkPTE false None None 0]].
Proof. vm_compute. repeat split. Qed.

(** ** An unrecognised replacement name *)

(** C4 (defect).  One frame, two slots, and a
    two-page process.  Under [FIFO] the second page evicts the first;
    under the unknown name [RANDOM] the queue of loaded frames stays
    empty, no victim is found, and the second page goes to swap: the page
    tables and frames of the two runs differ. *)
Theorem unknown_policy_differs_from_fifo :
  let fifo := state_after (one_frame_cfg "FIFO") [OpCrear "A" 512 1 5] in
  let other := state_after (one_frame_cfg "RANDOM") [OpCrear "A" 512 1 5] in
  map tabla_paginas (pcbs fifo)
    = [[mkPTE false None (Some 0) 0; mkPTE true (Some 0) None 0]] /\
  map tabla_paginas (pcbs other)
    = [[mkPTE true (Some 0) None 0; mkPTE false None (Some 0) 0]] /\
  ram fifo = [Some (mkFrame 1 1 0 0 true)] /\
  ram other = [Some (mkFrame 1 0 0 0 true)] /\
  fifo_queue fifo = [0] /\
  fifo_queue other = [].
Proof. vm_compute. repeat split. Qed.

(** ** Executing the primitives *)

Lemma py_index_in_range {A} (l : list A) (i : Z) :
  0 <= i < Z.of_nat (length l) -> py_index l i = Some (Z.to_nat i).
Proof.
  intros H. unfold py_index.
  destruct (0 <=? i) eqn:H1; [|lia]. destruct (i <? Z.of_nat (length l)) eqn:H2; [|lia].
  reflexivity.
Qed.

Lemma py_get_in_range {A} (l : list A) (i : Z) :
  0 <= i < Z.of_nat (length l) -> py_get l i = l !! Z.to_nat i.
Proof. intros H. unfold py_get. now rewrite py_index_in_range. Qed.

Lemma py_set_in_range {A} (l : list A) (i : Z) (x : A) :
  0 <= i < Z.of_nat (length l) -> py_set l i x = Some (<[Z.to_nat i := x]> l).
Proof. intros H. unfold py_set. now rewrite py_index_in_range. Qed.

Lemma py_mod_ok a n s : n <> 0 -> py_mod a n s = (Ok (a mod n), s).
Proof. intros H. unfold py_mod. apply Z.eqb_neq in H. now rewrite H. Qed.

Lemma ram_get_ok i o s : py_get (ram s) i = Some o -> ram_get i s = (Ok o, s).
Proof. intros H. unfold ram_get. rewrite get_bind, H. reflexivity. Qed.

Lemma ram_set_ok i v r s :
  py_set (ram s) i v = Some r -> ram_set i v s = (Ok tt, set_ram r s).
Proof. intros H. unfold ram_set. rewrite get_bind, H. reflexivity. Qed.

Lemma swap_get_ok i o s : py_get (swap s) i = Some o -> swap_get i s = (Ok o, s).
Proof. intros H. unfold swap_get. rewrite get_bind, H. reflexivity. Qed.

Lemma swap_set_ok i v r s :
  py_set (swap s) i v = Some r -> swap_set i v s = (Ok tt, set_swap r s).
Proof. intros H. unfold swap_set. rewrite get_bind, H. reflexivity. Qed.

Lemma deref_ok h c s : pcbs s !! h = Some c -> deref h s = (Ok c, s).
Proof. intros H. unfold deref. rewrite get_bind, H. reflexivity. Qed.

(** ** What victim selection changes *)

(** The CLOCK sweep assigns to the frames and to the pointer only. *)
Lemma clock_sweep_keeps {A} (f : SimuladorOS -> A) :
  (forall r s, f (set_ram r s) = f s) ->
  (forall v s, f (set_clock_pointer v s) = f s) ->
  forall fuel n, keeps f (clock_sweep fuel n).
Proof. intros Hram Hcp fuel n. induction fuel as [|fuel IH]; simpl; keeps_auto. Qed.
#[local] Hint Extern 1 (keeps _ (clock_sweep _ _)) =>
  apply clock_sweep_keeps; intros; reflexivity : keeps.

Lemma clock_sweep_keeps_outside fuel n : keeps outside_clock (clock_sweep fuel n).
Proof. auto with keeps. Qed.

Lemma forget_referenced_clear (fs : list (option Frame)) (k : nat) (c : Frame) :
  fs !! k = Some (Some c) ->
  forget_referenced (<[k := Some (clear_referenced c)]> fs) = forget_referenced fs.
Proof.
  intros H. unfold forget_referenced. rewrite list_fmap_insert. simpl.
  apply list_insert_id. rewrite list_lookup_fmap, H. reflexivity.
Qed.

(** With at least one frame the CLOCK sweep returns a frame index in
    range; it leaves the pointer in range and changes no frame beyond its
    referenced bit. *)
Lemma clock_sweep_total (n : Z) : 0 < n -> forall fuel s,
  Z.of_nat (length (ram s)) = n ->
  exists v s', clock_sweep fuel n s = (Ok (Some v), s') /\ 0 <= v < n /\
               forget_referenced (ram s') = forget_referenced (ram s) /\
               0 <= clock_pointer s' < n.
Proof.
  intros Hn. induction fuel as [|fuel IH]; intros s Hlen; simpl.
  - rewrite get_bind.
    erewrite bind_ok by (apply py_mod_ok; lia).
    erewrite bind_ok by (apply py_mod_ok; lia).
    rewrite modify_bind. eexists _, _. split; [reflexivity|]. simpl.
    pose proof (Z.mod_pos_bound (clock_pointer s) n Hn).
    pose proof (Z.mod_pos_bound (clock_pointer s mod n + 1) n Hn). auto.
  - rewrite get_bind.
    erewrite bind_ok by (apply py_mod_ok; lia).
    pose proof (Z.mod_pos_bound (clock_pointer s) n Hn) as Hfr.
    set (fr := clock_pointer s mod n) in *.
    assert (Hget : exists o, py_get (ram s) fr = Some o /\ ram s !! Z.to_nat fr = Some o).
    { rewrite py_get_in_range by lia.
      destruct (lookup_lt_is_Some_2 (ram s) (Z.to_nat fr)) as [o Ho]; [lia|]. eauto. }
    destruct Hget as (o & Hget & Hlook).
    erewrite bind_ok by (apply ram_get_ok; exact Hget).
    destruct o as [c|].
    + destruct (fr_referenced c) eqn:Href; simpl.
      * erewrite bind_ok
          by (apply ram_set_ok; rewrite py_set_in_range by lia; reflexivity).
        erewrite bind_ok by (apply py_mod_ok; lia).
        rewrite modify_bind.
        match goal with |- context [clock_sweep fuel n ?s1] =>
          destruct (IH s1) as (v & s' & Hrun & Hv & Hram & Hcp) end.
        { simpl. rewrite length_insert. exact Hlen. }
        exists v, s'. split; [exact Hrun|]. split; [exact Hv|]. split; [|exact Hcp].
        rewrite Hram. simpl. now apply forget_referenced_clear.
      * erewrite bind_ok by (apply py_mod_ok; lia).
        rewrite modify_bind. eexists _, _. split; [reflexivity|]. simpl.
        pose proof (Z.mod_pos_bound (fr + 1) n Hn). auto.
    + erewrite bind_ok by (apply py_mod_ok; lia).
      rewrite modify_bind. eexists _, _. split; [reflexivity|]. simpl.
      pose proof (Z.mod_pos_bound (clock_pointer s + 1) n Hn). auto.
Qed.

Lemma select_fifo_effect (s : SimuladorOS) :
  select_fifo s = (Ok (head (fifo_queue s)), set_fifo_queue (tail (fifo_queue s)) s).
Proof.
  unfold select_fifo. rewrite get_bind.
  destruct s as [? ? ? ? ? ? ? ? ? ? ? ? ? q ? ? ? ? ? ? ? ? ? ? ? ? ? ? ?].
  destruct q as [|f q]; reflexivity.
Qed.

(** C8 (amended).  What [select_victim_frame] changes depends on the
    policy.  Under LRU it returns the scan result and the state is the
    same.  Under FIFO, and under any name other than LRU and CLOCK, it
    returns the head of the FIFO queue and removes it from that queue,
    changing nothing else.  Under CLOCK with at least one frame it returns
    a frame index in range and changes only the CLOCK pointer and the
    referenced bits of the frames: the occupants of the frames, the free
    queues, the FIFO queue, the swap slots and the page tables stay. *)
Theorem select_victim_frame_effects (s : SimuladorOS) :
  (replacement_algo s = "LRU" ->
     select_victim_frame s = (Ok (select_lru (ram s)), s)) /\
  (replacement_algo s <> "LRU" -> replacement_algo s <> "CLOCK" ->
     select_victim_frame s =
       (Ok (head (fifo_queue s)), set_fifo_queue (tail (fifo_queue s)) s)) /\
  (replacement_algo s = "CLOCK" -> 0 < num_marcos_ram s ->
     Z.of_nat (length (ram s)) = num_marcos_ram s ->
     exists v s',
       select_victim_frame s = (Ok (Some v), s') /\
       0 <= v < num_marcos_ram s /\
       outside_clock s' = outside_clock s /\
       forget_referenced (ram s') = forget_referenced (ram s) /\
       0 <= clock_pointer s' < num_marcos_ram s).
Proof.
  split; [apply select_victim_frame_lru|]. split.
  - intros Hlru Hclock. unfold select_victim_frame, is_algo. rewrite get_bind.
    apply String.eqb_neq in Hlru, Hclock. rewrite Hlru, Hclock.
    destruct (replacement_algo s =? "FIFO")%string; apply select_fifo_effect.
  - intros Halgo Hn Hlen. unfold select_victim_frame, is_algo. rewrite get_bind, Halgo.
    simpl.
    destruct (clock_sweep_total (num_marcos_ram s) Hn (Z.to_nat (num_marcos_ram s)) s Hlen)
      as (v & s' & Hrun & Hv & Hram & Hcp).
    exists v, s'. rewrite Hrun. repeat split; try tauto.
    pose proof (clock_sweep_keeps_outside (Z.to_nat (num_marcos_ram s)) (num_marcos_ram s) s)
      as Hk.
    rewrite Hrun in Hk. exact Hk.
Qed.

(** The LRU selection on two occupied frames with the stamps 0 and 1. *)
Lemma select_victim_lru_minimum_witness :
  exists (v : nat) fv,
    select_victim_frame (two_frame_state "LRU")
      = (Ok (Some (Z.of_nat v)), two_frame_state "LRU") /\
    ram (two_frame_state "LRU") !! v = Some (Some fv) /\
    (forall j fj, ram (two_frame_state "LRU") !! j = Some (Some fj) ->
                  fr_last_access fv <= fr_last_access fj) /\
    (forall j fj, ram (two_frame_state "LRU") !! j = Some (Some fj) ->
                  fr_last_access fj = fr_last_access fv -> (v <= j)%nat).
Proof.
  apply (select_victim_lru_minimum (two_frame_state "LRU")).
  - reflexivity.
  - exists 0%nat, (mkFrame 1 0 0 0 true). reflexivity.
Defined.

(** C8, as stated, fails: under FIFO the selection pops the queue of
    loaded frames. *)
Lemma select_victim_fifo_pops_queue :
  fifo_queue (two_frame_state "FIFO") = [0; 1] /\
  fst (select_victim_frame (two_frame_state "FIFO")) = Ok (Some 0) /\
  fifo_queue (snd (select_victim_frame (two_frame_state "FIFO"))) = [1] /\
  snd (select_victim_frame (two_frame_state "FIFO")) <> two_frame_state "FIFO".
Proof.
  split; [reflexivity|]. split; [reflexivity|]. split; [reflexivity|].
  intros H. apply (f_equal fifo_queue) in H. vm_compute in H. discriminate H.
Qed.

(** The three policies on the same two occupied frames. *)
Lemma select_victim_frame_effects_witness :
  select_victim_frame (two_frame_state "LRU")
    = (Ok (select_lru (ram (two_frame_state "LRU"))), two_frame_state "LRU") /\
  select_victim_frame (two_frame_state "FIFO")
    = (Ok (head (fifo_queue (two_frame_state "FIFO"))),
       set_fifo_queue (tail (fifo_queue (two_frame_state "FIFO"))) (two_frame_state "FIFO")) /\
  exists v s',
    select_victim_frame (two_frame_state "CLOCK") = (Ok (Some v), s') /\
    0 <= v < num_marcos_ram (two_frame_state "CLOCK") /\
    outside_clock s' = outside_clock (two_frame_state "CLOCK") /\
    forget_referenced (ram s') = forget_referenced (ram (two_frame_state "CLOCK")) /\
    0 <= clock_pointer s' < num_marcos_ram (two_frame_state "CLOCK").
Proof.
  split; [|split].
  - apply (proj1 (select_victim_frame_effects (two_frame_state "LRU"))). reflexivity.
  - apply (proj1 (proj2 (select_victim_frame_effects (two_frame_state "FIFO")))).
    + vm_compute. discriminate.
    + vm_compute. discriminate.
  - apply (proj2 (proj2 (select_victim_frame_effects (two_frame_state "CLOCK")))).
    + reflexivity.
    + vm_compute. reflexivity.
    + reflexivity.
Defined.

(** ** Admission of a process without pages *)

Lemma update_pcb_ok h f c s :
  pcbs s !! h = Some c ->
  update_pcb h f s = (Ok tt, set_pcbs (<[h := f c]> (pcbs s)) s).
Proof. intros H. unfold update_pcb. erewrite bind_ok by (apply deref_ok; exact H). reflexivity. Qed.

Lemma log_bind {B} ev (k : unit -> M B) s :
  bind (log ev) k s = k tt (set_log_events (log_events s ++ [(ticks s, ev)]) s).
Proof. reflexivity. Qed.

(** ** The page count: [math.ceil] of a float quotient *)

Lemma ceil_true_div_zero b : ceil_true_div 0 b = Some 0.
Proof. reflexivity. Qed.

Lemma round_half_even_bounds n d :
  0 < d -> 2 * n - d <= 2 * (round_half_even n d * d) <= 2 * n + d.
Proof.
  intros Hd. unfold round_half_even.
  pose proof (Z.div_mod n d ltac:(lia)) as Hdm.
  pose proof (Z.mod_pos_bound n d Hd) as Hr.
  destruct (2 * (n mod d) <? d) eqn:H1; [apply Z.ltb_lt in H1; nia|].
  apply Z.ltb_ge in H1.
  destruct (d <? 2 * (n mod d)) eqn:H2; [apply Z.ltb_lt in H2; nia|].
  apply Z.ltb_ge in H2.
  destruct (Z.even (n / d)); nia.
Qed.

Lemma ceil_spec a b : 0 < b -> (- ((- a) / b) - 1) * b < a <= - ((- a) / b) * b.
Proof.
  intros Hb. pose proof (Z.div_mod (- a) b ltac:(lia)).
  pose proof (Z.mod_pos_bound (- a) b Hb). nia.
Qed.

Lemma ceil_unique x d c : 0 < d -> (c - 1) * d < x <= c * d -> - ((- x) / d) = c.
Proof.
  intros Hd H. pose proof (Z.div_mod (- x) d ltac:(lia)).
  pose proof (Z.mod_pos_bound (- x) d Hd). nia.
Qed.

(** Within 53 bits the rounding of the quotient does not reach the next
    integer, so the ceiling of the double is the ceiling of the quotient. *)
Lemma ceil_true_div_exact a b :
  0 <= a < 2 ^ 53 -> 0 < b < 2 ^ 53 -> ceil_true_div a b = Some (- ((- a) / b)).
Proof.
  intros Ha Hb. unfold ceil_true_div.
  rewrite (Z.abs_eq a), (Z.abs_eq b) by lia. rewrite (Z.sgn_pos b) by lia.
  unfold true_div_abs. destruct (a =? 0) eqn:Ha0.
  { apply Z.eqb_eq in Ha0. subst a. simpl. rewrite Zdiv_0_l. reflexivity. }
  apply Z.eqb_neq in Ha0. rewrite (Z.sgn_pos a) by lia.
  set (e0 := Z.log2 a - Z.log2 b).
  set (e := if 0 <=? e0 then (if b * 2 ^ e0 <=? a then e0 else e0 - 1)
            else (if b <=? a * 2 ^ (- e0) then e0 else e0 - 1)).
  assert (Hla : 0 <= Z.log2 a <= 52).
  { split; [apply Z.log2_nonneg|]. apply Z.lt_succ_r. apply Z.log2_lt_pow2; lia. }
  assert (Hlb : 0 <= Z.log2 b <= 52).
  { split; [apply Z.log2_nonneg|]. apply Z.lt_succ_r. apply Z.log2_lt_pow2; lia. }
  assert (Hblog : b < 2 ^ (Z.log2 b + 1)).
  { pose proof (Z.log2_spec b ltac:(lia)) as [_ H]. now rewrite <- Z.add_1_r in H. }
  assert (He : - 53 <= e <= 52) by (subst e e0; repeat destruct (_ <=? _); lia).
  assert (Hbe : b < 2 ^ (53 - e)).
  { subst e. destruct (0 <=? e0) eqn:H0.
    - apply Z.leb_le in H0. destruct (b * 2 ^ e0 <=? a) eqn:Ht.
      + apply Z.leb_le in Ht.
        assert (Hp : 2 ^ 53 = 2 ^ (53 - e0) * 2 ^ e0)
          by (rewrite <- Z.pow_add_r by lia; f_equal; lia).
        assert (0 < 2 ^ e0) by (apply Z.pow_pos_nonneg; lia).
        nia.
      + eapply Z.lt_le_trans; [exact Hblog|]. apply Z.pow_le_mono_r; subst e0; lia.
    - apply Z.leb_gt in H0. destruct (b <=? a * 2 ^ (- e0)) eqn:Ht.
      + apply Z.leb_le in Ht.
        assert (Hp : 2 ^ (53 - e0) = 2 ^ 53 * 2 ^ (- e0))
          by (rewrite <- Z.pow_add_r by lia; f_equal; lia).
        assert (0 < 2 ^ (- e0)) by (apply Z.pow_pos_nonneg; lia).
        nia.
      + eapply Z.lt_le_trans; [exact Hblog|]. apply Z.pow_le_mono_r; subst e0; lia. }
  clearbody e. clear e0.
  rewrite Z.max_l by lia.
  set (c := - ((- a) / b)).
  pose proof (ceil_spec a b ltac:(lia)) as Hc. fold c in Hc.
  destruct (0 <=? e - 52) eqn:Hsh.
  - apply Z.leb_le in Hsh. assert (e = 52) by lia. subst e.
    change (52 - 52) with 0 in *. change (53 - 52) with 1 in Hbe.
    change (2 ^ 1) with 2 in Hbe. assert (b = 1) by lia. subst b.
    change (2 ^ 0) with 1. rewrite !Z.mul_1_r.
    assert (Hm : round_half_even a 1 = a).
    { pose proof (round_half_even_bounds a 1 ltac:(lia)). lia. }
    rewrite Hm.
    assert (Hov : (2 ^ 1024 <=? a) = false).
    { apply Z.leb_gt. eapply Z.lt_le_trans; [apply Ha|]. apply Z.pow_le_mono_r; lia. }
    rewrite Hov. simpl andb. cbv iota. f_equal. unfold ceil_scaled. simpl.
    rewrite Z.mul_1_l. subst c. rewrite Z.div_1_r. lia.
  - apply Z.leb_gt in Hsh. simpl andb. cbv iota. f_equal.
    unfold ceil_scaled. rewrite (proj2 (Z.leb_gt 0 (e - 52))) by lia.
    rewrite Z.mul_1_l.
    set (k := - (e - 52)) in *. assert (Hk : 0 < k) by lia.
    assert (HP : 0 < 2 ^ k) by (apply Z.pow_pos_nonneg; lia).
    assert (HbP : b < 2 * 2 ^ k).
    { replace (2 * 2 ^ k) with (2 ^ (53 - e)); [exact Hbe|].
      replace (53 - e) with (1 + k) by lia. rewrite Z.pow_add_r by lia. reflexivity. }
    pose proof (round_half_even_bounds (a * 2 ^ k) b ltac:(lia)) as Hm.
    set (m := round_half_even (a * 2 ^ k) b) in *. set (P := 2 ^ k) in *.
    clearbody m P c. apply ceil_unique; [exact HP|]. nia.
Qed.

(** The page count is the exact ceiling when the size and the page size
    have at most 53 bits, and for the size 0. *)
Lemma page_count_exact s tam_kb :
  0 <= tam_kb < 2 ^ 53 -> 0 < page_kb s < 2 ^ 53 ->
  ceil_true_div tam_kb (page_kb s) = Some (pages_for s tam_kb).
Proof. intros Ht Hp. apply ceil_true_div_exact; assumption. Qed.

Lemma pages_for_zero s : pages_for s 0 = 0.
Proof. unfold pages_for. simpl. now rewrite Zdiv_0_l. Qed.

Lemma page_count_zero s : ceil_true_div 0 (page_kb s) = Some (pages_for s 0).
Proof. now rewrite pages_for_zero. Qed.

(** The constructor of [PCB] raises, or returns an object in state [NUEVO]
    with an empty page table of some size. *)
Lemma new_PCB_cases p nom tam_kb prio instr s :
  (exists e, new_PCB p nom tam_kb prio instr s = (Raise e, s)) \/
  (exists n, new_PCB p nom tam_kb prio instr s =
     (Ok (mkPCB p nom tam_kb prio instr instr NUEVO n
                (replicate (Z.to_nat n) (mkPTE false None None 0)) ""), s)).
Proof.
  unfold new_PCB, py_ceil_div. rewrite get_bind.
  destruct (page_kb s =? 0); [left; eexists; reflexivity|].
  destruct (ceil_true_div tam_kb (page_kb s)) as [n|].
  - right. exists n. reflexivity.
  - left. eexists. reflexivity.
Qed.

Lemma new_PCB_ok p nom tam_kb prio instr s :
  page_kb s <> 0 ->
  ceil_true_div tam_kb (page_kb s) = Some (pages_for s tam_kb) ->
  new_PCB p nom tam_kb prio instr s =
    (Ok (mkPCB p nom tam_kb prio instr instr NUEVO (pages_for s tam_kb)
               (replicate (Z.to_nat (pages_for s tam_kb)) (mkPTE false None None 0)) ""), s).
Proof.
  intros H Hex. unfold new_PCB, py_ceil_div. rewrite get_bind.
  apply Z.eqb_neq in H. rewrite H, Hex. reflexivity.
Qed.

(** [crear_proceso] up to the call of [allocate_pages_for_process]. *)
Lemma crear_proceso_prefix nom tam_kb prio instr s :
  page_kb s <> 0 ->
  ceil_true_div tam_kb (page_kb s) = Some (pages_for s tam_kb) ->
  crear_proceso nom tam_kb prio instr s =
    bind (allocate_pages_for_process (length (pcbs s))) (fun _ => ret (length (pcbs s)))
         (before_allocation s nom tam_kb prio instr).
Proof.
  intros Hpk Hex. unfold crear_proceso. rewrite get_bind.
  erewrite bind_ok by (apply new_PCB_ok; [exact Hpk | exact Hex]).
  rewrite !modify_bind.
  erewrite bind_ok.
  2:{ apply update_pcb_ok. proj_simpl. apply list_lookup_middle. reflexivity. }
  rewrite modify_bind, log_bind. reflexivity.
Qed.

Lemma pcbs_before_allocation s nom tam_kb prio instr :
  pcbs (before_allocation s nom tam_kb prio instr)
  = pcbs s ++ [fresh_PCB s nom tam_kb prio instr].
Proof.
  unfold before_allocation. proj_simpl.
  replace (length (pcbs s)) with (length (pcbs s) + 0)%nat at 1 by lia.
  rewrite insert_app_r. reflexivity.
Qed.

(** The admission of a process of size 0 only creates the [PCB], queues it
    as ready and logs the creation. *)
Lemma crear_proceso_zero nom prio instr s :
  page_kb s <> 0 ->
  crear_proceso nom 0 prio instr s =
    (Ok (length (pcbs s)), before_allocation s nom 0 prio instr).
Proof.
  intros Hpk. rewrite crear_proceso_prefix by (exact Hpk || apply page_count_zero).
  unfold allocate_pages_for_process.
  erewrite bind_ok; [reflexivity|].
  erewrite bind_ok.
  2:{ apply deref_ok. rewrite pcbs_before_allocation. apply list_lookup_middle. reflexivity. }
  unfold fresh_PCB. proj_simpl. rewrite pages_for_zero. reflexivity.
Qed.

(** A scheduling cycle without arrival that dispatches a process without
    pages terminates it with the reason [Sin páginas]. *)
Lemma ejecutar_ciclo_zero_pages d s h rest c :
  arrives d = false -> proceso_actual s = None -> cola_listos s = h :: rest ->
  pcbs s !! h = Some c -> paginas c = 0 -> tabla_paginas c = [] ->
  exists s2,
    ejecutar_ciclo d s = (Ok tt, s2) /\
    procesos_terminados s2 = procesos_terminados s ++ [h] /\
    pcbs s2 = <[h := set_motivo_terminacion "Sin páginas" (set_estado TERMINADO c)]> (pcbs s) /\
    cola_listos s2 = rest /\
    proceso_actual s2 = None.
Proof.
  intros Harr Hact Hcola Hc Hpag Htab.
  assert (Hlt : (h < length (pcbs s))%nat) by (eapply lookup_lt_Some; exact Hc).
  unfold ejecutar_ciclo. rewrite !modify_bind, Harr. cbv iota. rewrite ret_bind, get_bind.
  proj_simpl. rewrite Hact.
  erewrite bind_ok.
  2:{ unfold planificar. rewrite get_bind. proj_simpl.
      rewrite Hact, Hcola. rewrite !modify_bind.
      erewrite bind_ok by (apply update_pcb_ok; simpl; exact Hc).
      erewrite bind_ok by (apply deref_ok; simpl; apply list_lookup_insert_eq; exact Hlt).
      reflexivity. }
  rewrite get_bind. proj_simpl.
  erewrite bind_ok by (apply deref_ok; simpl; apply list_lookup_insert_eq; exact Hlt).
  proj_simpl. rewrite Hpag. cbv iota beta. change (0 =? 0) with true. cbv iota.
  erewrite bind_ok.
  2:{ unfold terminar_proceso.
      erewrite bind_ok by (apply deref_ok; simpl; apply list_lookup_insert_eq; exact Hlt).
      proj_simpl. rewrite Htab. simpl for_each. rewrite ret_bind, modify_bind.
      erewrite bind_ok by (apply update_pcb_ok; simpl; apply list_lookup_insert_eq; exact Hlt).
      erewrite bind_ok.
      2:{ apply update_pcb_ok; simpl. apply list_lookup_insert_eq.
          rewrite length_insert. exact Hlt. }
      rewrite modify_bind. reflexivity. }
  eexists. split; [reflexivity|]. simpl. repeat split.
  rewrite !list_insert_insert_eq. reflexivity.
Qed.

(** C9, as stated, fails: directly after the admission the process of
    size 0 is ready, not terminated, and has no termination reason. *)
Lemma zero_size_process_stays_ready :
  cola_listos zero_size_state = [0%nat] /\
  procesos_terminados zero_size_state = [] /\
  pcbs zero_size_state = [mkPCB 1 "Z" 0 1 5 5 LISTO 0 [] ""].
Proof. vm_compute. repeat split. Qed.

(** C9 (amended).  The admission of a process of size 0 (zero pages)
    leaves it at the tail of the ready queue in state [LISTO] with an empty
    termination reason, and leaves the terminated set as it was.  The
    process is terminated with the reason [Sin páginas] by the scheduling
    cycle that dispatches it: on an idle simulator with an empty ready
    queue that is the next cycle without arrival. *)
Theorem zero_page_process_terminated_at_dispatch (s : SimuladorOS) nom prio instr :
  page_kb s <> 0 ->
  exists s1,
    crear_proceso nom 0 prio instr s = (Ok (length (pcbs s)), s1) /\
    cola_listos s1 = cola_listos s ++ [length (pcbs s)] /\
    procesos_terminados s1 = procesos_terminados s /\
    proceso_actual s1 = proceso_actual s /\
    pcbs s1 = pcbs s ++ [mkPCB (contador_pid s) nom 0 prio instr instr LISTO 0 [] ""] /\
    forall d, arrives d = false -> proceso_actual s = None -> cola_listos s = [] ->
      exists s2,
        ejecutar_ciclo d s1 = (Ok tt, s2) /\
        procesos_terminados s2 = procesos_terminados s ++ [length (pcbs s)] /\
        pcbs s2 =
          pcbs s ++ [mkPCB (contador_pid s) nom 0 prio instr instr TERMINADO 0 [] "Sin páginas"] /\
        cola_listos s2 = [] /\
        proceso_actual s2 = None.
Proof.
  intros Hpk. eexists. split; [apply crear_proceso_zero; exact Hpk|].
  assert (Hpcbs : pcbs (before_allocation s nom 0 prio instr)
                  = pcbs s ++ [mkPCB (contador_pid s) nom 0 prio instr instr LISTO 0 [] ""]).
  { rewrite pcbs_before_allocation. unfold fresh_PCB. rewrite pages_for_zero. reflexivity. }
  split; [reflexivity|]. split; [reflexivity|]. split; [reflexivity|].
  split; [exact Hpcbs|].
  intros d Harr Hact Hcola.
  set (c := mkPCB (contador_pid s) nom 0 prio instr instr LISTO 0 [] "") in *.
  destruct (ejecutar_ciclo_zero_pages d (before_allocation s nom 0 prio instr)
              (length (pcbs s)) [] c)
    as (s2 & Hrun & Hterm & Hpcbs2 & Hlistos & Hnone); try reflexivity; try assumption.
  - unfold before_allocation. proj_simpl. rewrite Hcola. reflexivity.
  - rewrite Hpcbs. apply list_lookup_middle. reflexivity.
  - exists s2. split; [exact Hrun|]. split; [exact Hterm|]. split; [|auto].
    rewrite Hpcbs2, Hpcbs.
    replace (length (pcbs s)) with (length (pcbs s) + 0)%nat at 1 by lia.
    rewrite insert_app_r. reflexivity.
Qed.

(** A process of size 0 on a fresh simulator, and the cycle after it. *)
Lemma zero_page_process_terminated_at_dispatch_witness :
  exists s1,
    crear_proceso "Z" 0 1 5 (state_after (two_frame_cfg "FIFO") [])
      = (Ok (length (pcbs (state_after (two_frame_cfg "FIFO") []))), s1) /\
    cola_listos s1 = [0%nat] /\
    procesos_terminados s1 = [] /\
    pcbs s1 = [mkPCB 1 "Z" 0 1 5 5 LISTO 0 [] ""] /\
    exists s2,
      ejecutar_ciclo (mkDraws false 0 0 0 0) s1 = (Ok tt, s2) /\
      procesos_terminados s2 = [0%nat] /\
      pcbs s2 = [mkPCB 1 "Z" 0 1 5 5 TERMINADO 0 [] "Sin páginas"].
Proof.
  destruct (zero_page_process_terminated_at_dispatch
              (state_after (two_frame_cfg "FIFO") []) "Z" 1 5)
    as (s1 & Hrun & Hlistos & Hterm & _ & Hpcbs & Hcycle).
  - vm_compute. discriminate.
  - exists s1. split; [exact Hrun|]. split; [exact Hlistos|]. split; [exact Hterm|].
    split; [exact Hpcbs|].
    destruct (Hcycle (mkDraws false 0 0 0 0)) as (s2 & Hrun2 & Hterm2 & Hpcbs2 & _);
      try reflexivity.
    exists s2. split; [exact Hrun2|]. split; [exact Hterm2 | exact Hpcbs2].
Defined.

(** ** The tick counter and the access clock *)

Lemma crear_proceso_keeps_drift nom tam_kb prio instr :
  keeps drift (crear_proceso nom tam_kb prio instr).
Proof. keeps_auto. Qed.

Lemma crear_proceso_aleatorio_keeps_drift d : keeps drift (crear_proceso_aleatorio d).
Proof. keeps_auto. Qed.

Lemma terminar_proceso_keeps_drift h motivo : keeps drift (terminar_proceso h motivo).
Proof. keeps_auto. Qed.

Lemma forzar_terminacion_keeps_drift p : keeps drift (forzar_terminacion p).
Proof. keeps_auto. Qed.

Lemma suspender_proceso_keeps_drift p : keeps drift (suspender_proceso p).
Proof. keeps_auto. Qed.

Lemma reanudar_proceso_keeps_drift p : keeps drift (reanudar_proceso p).
Proof. keeps_auto. Qed.

Lemma planificar_keeps_drift : keeps drift planificar.
Proof. keeps_auto. Qed.

(** After its three increments, [access_page] touches neither counter. *)
Lemma access_page_clocks h page_index s :
  ticks (snd (access_page h page_index s)) = ticks s + 1 /\
  access_clock (snd (access_page h page_index s)) = access_clock s + 1.
Proof.
  unfold access_page. rewrite !modify_bind.
  match goal with |- context [bind ?m ?k ?st] =>
    assert (Ht : keeps ticks (bind m k)) by keeps_auto;
    assert (Ha : keeps access_clock (bind m k)) by keeps_auto;
    rewrite (Ht st), (Ha st) end.
  split; reflexivity.
Qed.

Lemma access_page_keeps_drift h page_index : keeps drift (access_page h page_index).
Proof.
  intros s. unfold drift. destruct (access_page_clocks h page_index s) as [-> ->]. lia.
Qed.
#[local] Hint Resolve access_page_keeps_drift : keeps.

(** [ejecutar_ciclo] increments both counters before anything else. *)
Lemma ejecutar_ciclo_keeps_drift d : keeps drift (ejecutar_ciclo d).
Proof.
  intros s. unfold ejecutar_ciclo. rewrite !modify_bind.
  match goal with |- context [bind ?m ?k ?st] =>
    assert (Hk : keeps drift (bind m k)) by keeps_auto; rewrite (Hk st) end.
  unfold drift. proj_simpl. lia.
Qed.

Lemma do_op_keeps_drift o : keeps drift (do_op o).
Proof.
  destruct o; simpl.
  - apply keeps_bind; [apply crear_proceso_keeps_drift | intros; apply keeps_ret].
  - apply keeps_bind; [apply crear_proceso_aleatorio_keeps_drift | intros; apply keeps_ret].
  - apply ejecutar_ciclo_keeps_drift.
  - apply keeps_bind; [apply access_page_keeps_drift | intros; apply keeps_ret].
  - apply suspender_proceso_keeps_drift.
  - apply reanudar_proceso_keeps_drift.
  - apply forzar_terminacion_keeps_drift.
Qed.

Lemma run_ops_keeps {A} (f : SimuladorOS -> A) :
  (forall o, keeps f (do_op o)) -> forall ops s, f (run_ops ops s) = f s.
Proof.
  intros H ops. unfold run_ops. induction ops as [|o ops IH]; intros s; simpl.
  - reflexivity.
  - rewrite IH. apply H.
Qed.

Lemma boot_clocks c s0 : boot c = Some s0 -> ticks s0 = 0 /\ access_clock s0 = 0.
Proof.
  unfold boot, init. destruct (cfg_page_kb c =? 0); [discriminate|].
  intros [= <-]. split; reflexivity.
Qed.

(** ** Access to a page outside the page table *)

Lemma set_tlb_same (s : SimuladorOS) : set_tlb (tlb s) s = s.
Proof. now destruct s. Qed.

(** When the TLB has no entry for the page, an access outside the page
    table returns [False]; only [total_accesos], [access_clock], [ticks]
    and the log change. *)
Lemma access_page_invalid h page_index c s :
  pcbs s !! h = Some c ->
  pt_get (tabla_paginas c) page_index = None ->
  tlb_misses s (pid c) page_index ->
  access_page h page_index s = (Ok false, after_invalid_access c page_index s).
Proof.
  intros Hc Hpt Hmiss. unfold access_page. rewrite !modify_bind.
  set (s3 := set_ticks _ _).
  assert (Hprobe : tlb_probe h page_index s3 = (Ok false, s3)).
  { unfold tlb_probe. rewrite get_bind.
    destruct (tlb s3) as [t|] eqn:Ht; [|reflexivity].
    erewrite bind_ok by (apply deref_ok; exact Hc).
    unfold tlb_lookup. rewrite (Hmiss t Ht). rewrite modify_bind.
    unfold ret. f_equal. rewrite <- Ht. apply set_tlb_same. }
  erewrite bind_ok by exact Hprobe. cbv iota.
  erewrite bind_ok by (apply deref_ok; exact Hc).
  rewrite Hpt. reflexivity.
Qed.

Lemma pt_get_outside (t : list PTE) (page : Z) :
  ~ (0 <= page < Z.of_nat (length t)) -> pt_get t page = None.
Proof.
  intros H. unfold pt_get. destruct (page <? 0) eqn:Hneg; [reflexivity|].
  apply lookup_ge_None. lia.
Qed.

(** C5, as stated, fails: the access to page 7 of a two-page process
    returns [False] but the three counters have advanced. *)
Lemma access_out_of_range_advances_counters :
  fst (access_page 0%nat 7 (two_frame_state "FIFO")) = Ok false /\
  total_accesos (two_frame_state "FIFO") = 1 /\
  ticks (two_frame_state "FIFO") = 1 /\
  access_clock (two_frame_state "FIFO") = 1 /\
  total_accesos (snd (access_page 0%nat 7 (two_frame_state "FIFO"))) = 2 /\
  ticks (snd (access_page 0%nat 7 (two_frame_state "FIFO"))) = 2 /\
  access_clock (snd (access_page 0%nat 7 (two_frame_state "FIFO"))) = 2.
Proof. vm_compute. repeat split. Qed.

(** What an access outside the page table changes, given that the TLB has
    no entry for the page. *)
Lemma access_out_of_range_effect (s : SimuladorOS) h c page_index :
  pcbs s !! h = Some c ->
  ~ (0 <= page_index < Z.of_nat (length (tabla_paginas c))) ->
  tlb_misses s (pid c) page_index ->
  fst (access_page h page_index s) = Ok false /\
  ram (snd (access_page h page_index s)) = ram s /\
  swap (snd (access_page h page_index s)) = swap s /\
  free_frames (snd (access_page h page_index s)) = free_frames s /\
  free_swap_slots (snd (access_page h page_index s)) = free_swap_slots s /\
  fifo_queue (snd (access_page h page_index s)) = fifo_queue s /\
  clock_pointer (snd (access_page h page_index s)) = clock_pointer s /\
  pcbs (snd (access_page h page_index s)) = pcbs s /\
  tlb (snd (access_page h page_index s)) = tlb s /\
  total_fallos (snd (access_page h page_index s)) = total_fallos s /\
  swap_ins (snd (access_page h page_index s)) = swap_ins s /\
  swap_outs (snd (access_page h page_index s)) = swap_outs s /\
  total_accesos (snd (access_page h page_index s)) = total_accesos s + 1 /\
  ticks (snd (access_page h page_index s)) = ticks s + 1 /\
  access_clock (snd (access_page h page_index s)) = access_clock s + 1.
Proof.
  intros Hc Hout Hmiss.
  rewrite (access_page_invalid h page_index c s Hc (pt_get_outside _ _ Hout) Hmiss).
  unfold after_invalid_access. proj_simpl. repeat split.
Qed.

(** ** Admission into free frames, followed by termination *)

Lemma pte_update_ok h page f c e s :
  pcbs s !! h = Some c ->
  pt_get (tabla_paginas c) page = Some e ->
  pte_update h page f s =
    (Ok tt,
     set_pcbs (<[h := set_tabla_paginas (<[Z.to_nat page := f e]> (tabla_paginas c)) c]> (pcbs s))
              s).
Proof.
  intros Hc He. unfold pte_update.
  erewrite bind_ok by (apply deref_ok; exact Hc).
  rewrite He. apply update_pcb_ok. exact Hc.
Qed.

Lemma pt_get_in_range (t : list PTE) (page : Z) :
  0 <= page < Z.of_nat (length t) -> exists e, pt_get t page = Some e.
Proof.
  intros H. unfold pt_get. destruct (page <? 0) eqn:Hneg; [lia|].
  apply lookup_lt_is_Some_2. lia.
Qed.

(** [place_page_in_frame] on a frame and a page that exist. *)
Lemma place_page_in_frame_ok h pagina f c s :
  pcbs s !! h = Some c ->
  0 <= f < Z.of_nat (length (ram s)) ->
  0 <= pagina < Z.of_nat (length (tabla_paginas c)) ->
  exists s1,
    place_page_in_frame h pagina f s = (Ok tt, s1) /\
    ram s1 = <[Z.to_nat f := Some (mkFrame (pid c) pagina (ticks s) (ticks s) true)]> (ram s) /\
    pcbs s1 =
      <[h := set_tabla_paginas
               (<[Z.to_nat pagina := mkPTE true (Some f) None (ticks s)]> (tabla_paginas c)) c]>
        (pcbs s) /\
    free_frames s1 = free_frames s /\
    swap_side s1 = swap_side s.
Proof.
  intros Hc Hf Hpag. destruct (pt_get_in_range _ _ Hpag) as [e He].
  unfold place_page_in_frame.
  erewrite bind_ok by (apply deref_ok; exact Hc).
  rewrite get_bind.
  erewrite bind_ok by (apply ram_set_ok; apply py_set_in_range; exact Hf).
  erewrite bind_ok by (apply pte_update_ok; [exact Hc | exact He]).
  unfold when. destruct (is_algo s "FIFO").
  - rewrite modify_bind. eexists. split; [reflexivity|]. repeat split.
  - rewrite ret_bind. eexists. split; [reflexivity|]. repeat split.
Qed.

(** One iteration of the admission loop when a frame is free. *)
Lemma allocate_page_free h pagina f rest c s :
  free_frames s = f :: rest ->
  pcbs s !! h = Some c ->
  0 <= f < Z.of_nat (length (ram s)) ->
  0 <= pagina < Z.of_nat (length (tabla_paginas c)) ->
  exists s1,
    allocate_page h pagina s = (Ok tt, s1) /\
    ram s1 = <[Z.to_nat f := Some (mkFrame (pid c) pagina (ticks s) (ticks s) true)]> (ram s) /\
    pcbs s1 =
      <[h := set_tabla_paginas
               (<[Z.to_nat pagina := mkPTE true (Some f) None (ticks s)]> (tabla_paginas c)) c]>
        (pcbs s) /\
    free_frames s1 = rest /\
    swap_side s1 = swap_side s.
Proof.
  intros Hfree Hc Hf Hpag. unfold allocate_page. rewrite get_bind, Hfree, modify_bind.
  destruct (place_page_in_frame_ok h pagina f c (set_free_frames rest s))
    as (s1 & Hrun & Hram & Hpcbs & Hff & Hside); try assumption.
  exists s1. rewrite Hrun. auto.
Qed.

(** The admission loop over pages [k, k + |fs|) when the free-frame queue
    starts with the frames [fs]: page [k + i] lands in frame [fs !! i]. *)
Lemma allocate_pages_free h : forall (fs : list Z) (k : nat) rest c s,
  free_frames s = fs ++ rest ->
  pcbs s !! h = Some c ->
  (forall f, f ∈ fs -> 0 <= f < Z.of_nat (length (ram s))) ->
  (k + length fs <= length (tabla_paginas c))%nat ->
  exists s' c',
    for_each (seqZ (Z.of_nat k) (Z.of_nat (length fs))) (allocate_page h) s = (Ok tt, s') /\
    free_frames s' = rest /\
    swap_side s' = swap_side s /\
    length (ram s') = length (ram s) /\
    pcbs s' = <[h := c']> (pcbs s) /\
    length (tabla_paginas c') = length (tabla_paginas c) /\
    (forall i, (i < k)%nat -> tabla_paginas c' !! i = tabla_paginas c !! i) /\
    (forall i f, fs !! i = Some f ->
                 exists e, tabla_paginas c' !! (k + i)%nat = Some e /\ resident_in e f) /\
    (forall f, f ∈ fs -> exists fr, ram s' !! Z.to_nat f = Some (Some fr)) /\
    (forall i, Z.of_nat i ∉ fs -> ram s' !! i = ram s !! i).
Proof.
  induction fs as [|f fs IH]; intros k rest c s Hfree Hc Hrange Hlen.
  - exists s, c. simpl in *. repeat split; auto.
    + symmetry. apply list_insert_id. exact Hc.
    + intros i f Hi. rewrite lookup_nil in Hi. discriminate.
    + intros f Hf. apply elem_of_nil in Hf. contradiction.
  - simpl length in *. rewrite Nat2Z.inj_succ. rewrite seqZ_cons by lia.
    rewrite Z.pred_succ. simpl for_each.
    assert (Hlt : (h < length (pcbs s))%nat) by (eapply lookup_lt_Some; exact Hc).
    destruct (allocate_page_free h (Z.of_nat k) f (fs ++ rest) c s)
      as (s1 & Hrun1 & Hram1 & Hpcbs1 & Hfree1 & Hside1); try assumption.
    { apply Hrange. left. }
    { lia. }
    rewrite Nat2Z.id in Hpcbs1.
    set (c1 := set_tabla_paginas
                 (<[k := mkPTE true (Some f) None (ticks s)]> (tabla_paginas c)) c) in *.
    assert (Hc1 : pcbs s1 !! h = Some c1).
    { rewrite Hpcbs1. apply list_lookup_insert_eq. exact Hlt. }
    assert (Hlen1 : length (ram s1) = length (ram s)).
    { rewrite Hram1. apply length_insert. }
    destruct (IH (S k) rest c1 s1) as
      (s' & c' & Hrun & Hfree' & Hside' & Hlen' & Hpcbs' & Htl & Hlow & Hres & Hocc & Hout);
      try assumption.
    { intros g Hg. rewrite Hlen1. apply Hrange. now right. }
    { subst c1. proj_simpl. rewrite length_insert. lia. }
    exists s', c'. erewrite bind_ok by exact Hrun1.
    replace (Z.succ (Z.of_nat k)) with (Z.of_nat (S k)) by lia.
    split; [exact Hrun|]. split; [exact Hfree'|]. split; [congruence|].
    split; [congruence|]. split.
    { rewrite Hpcbs', Hpcbs1. apply list_insert_insert_eq. }
    split.
    { rewrite Htl. subst c1. proj_simpl. apply length_insert. }
    split.
    { intros i Hi. rewrite Hlow by lia. subst c1. proj_simpl.
      apply list_lookup_insert_ne. lia. }
    split.
    { intros [|i] g Hi; simpl in Hi.
      - injection Hi as <-. rewrite Nat.add_0_r, Hlow by lia. subst c1. proj_simpl.
        rewrite list_lookup_insert_eq by lia. eexists. split; [reflexivity|].
        repeat split.
      - replace (k + S i)%nat with (S k + i)%nat by lia. apply Hres. exact Hi. }
    split.
    { intros g Hg. destruct (decide (g ∈ fs)) as [Hin|Hnin]; [apply Hocc; exact Hin|].
      apply elem_of_cons in Hg as [-> | Hg]; [|contradiction].
      assert (Hf : 0 <= f < Z.of_nat (length (ram s))) by (apply Hrange; left).
      rewrite Hout.
      - rewrite Hram1. rewrite list_lookup_insert_eq by lia. eauto.
      - rewrite Z2Nat.id by lia. exact Hnin. }
    { intros i Hi. rewrite not_elem_of_cons in Hi. destruct Hi as [Hne Hnin].
      assert (Hf : 0 <= f < Z.of_nat (length (ram s))) by (apply Hrange; left).
      rewrite Hout by exact Hnin. rewrite Hram1. apply list_lookup_insert_ne. lia. }
Qed.

(** One iteration of the termination loop on a resident entry whose frame
    is occupied. *)
Lemma release_entry_resident e g fr s :
  resident_in e g ->
  Z.of_nat (length (ram s)) = num_marcos_ram s ->
  0 <= g < num_marcos_ram s ->
  ram s !! Z.to_nat g = Some (Some fr) ->
  release_entry e s =
    (Ok tt,
     set_fifo_queue (remove_first g (fifo_queue s))
       (set_free_frames (free_frames s ++ [g])
          (set_ram (<[Z.to_nat g := None]> (ram s)) s))).
Proof.
  intros (Hpres & Hframe & Hslot) Hlen Hg Hocc. unfold release_entry.
  rewrite Hframe, Hpres, Hslot.
  erewrite bind_ok; [reflexivity|].
  rewrite get_bind.
  destruct (0 <=? g) eqn:H1; [|lia]. destruct (g <? num_marcos_ram s) eqn:H2; [|lia].
  cbn [andb].
  erewrite bind_ok.
  2:{ apply ram_get_ok. rewrite py_get_in_range by lia. exact Hocc. }
  cbv iota.
  erewrite bind_ok by (apply ram_set_ok; apply py_set_in_range; lia).
  rewrite !modify_bind. reflexivity.
Qed.

(** The termination loop over resident entries whose frames are pairwise
    different and occupied: every frame is emptied and queued as free. *)
Lemma release_entries_resident : forall (es : list PTE) (gs : list Z) s,
  Forall2 resident_in es gs ->
  NoDup gs ->
  Z.of_nat (length (ram s)) = num_marcos_ram s ->
  (forall g, g ∈ gs ->
             0 <= g < num_marcos_ram s /\ exists fr, ram s !! Z.to_nat g = Some (Some fr)) ->
  exists s',
    for_each es release_entry s = (Ok tt, s') /\
    free_frames s' = free_frames s ++ gs /\
    outside_release s' = outside_release s /\
    length (ram s') = length (ram s) /\
    (forall g, g ∈ gs -> ram s' !! Z.to_nat g = Some None) /\
    (forall i, Z.of_nat i ∉ gs -> ram s' !! i = ram s !! i).
Proof.
  intros es gs s HF. revert s. induction HF as [|e g es gs He HF IH]; intros s Hnd Hlen Hocc.
  - exists s. simpl. rewrite app_nil_r. repeat split; auto.
    intros g Hg. apply elem_of_nil in Hg. contradiction.
  - apply NoDup_cons in Hnd as [Hnin Hnd].
    destruct (Hocc g) as (Hg & fr & Hfr); [left|].
    simpl for_each.
    erewrite bind_ok by (eapply release_entry_resident; eassumption).
    set (s1 := set_fifo_queue _ _).
    destruct (IH s1) as (s' & Hrun & Hfree & Hout & Hlen' & Hnone & Hsame).
    + exact Hnd.
    + subst s1. proj_simpl. rewrite length_insert. exact Hlen.
    + intros g' Hg'. destruct (Hocc g') as (Hr & fr' & Hfr'); [now right|].
      split; [exact Hr|]. exists fr'. subst s1. proj_simpl.
      rewrite list_lookup_insert_ne; [exact Hfr'|].
      intros Heq. apply Hnin. assert (g = g') by lia. now subst.
    + exists s'. split; [exact Hrun|]. split.
      { rewrite Hfree. subst s1. proj_simpl. rewrite <- app_assoc. reflexivity. }
      split; [rewrite Hout; reflexivity|].
      split; [rewrite Hlen'; subst s1; proj_simpl; apply length_insert|].
      split.
      * intros g' Hg'. apply elem_of_cons in Hg' as [-> | Hg']; [|apply Hnone; exact Hg'].
        rewrite Hsame by (rewrite Z2Nat.id by lia; exact Hnin).
        subst s1. proj_simpl. apply list_lookup_insert_eq. lia.
      * intros i Hi. rewrite not_elem_of_cons in Hi. destruct Hi as [Hne Hni].
        rewrite Hsame by exact Hni. subst s1. proj_simpl.
        apply list_lookup_insert_ne. lia.
Qed.

Lemma py_range_to_nat (n : Z) : py_range n = seqZ (Z.of_nat 0) (Z.of_nat (Z.to_nat n)).
Proof. unfold py_range, seqZ. rewrite Nat2Z.id. reflexivity. Qed.

(** Where no page has to be evicted, admission and termination cancel.
    Take a state in which the free-frame queue lists pairwise different,
    existing and empty frames and is at least as long as the page count of
    the new process (size and page size of at most 53 bits, so that the
    page count is the exact ceiling).  Then admitting the process and
    terminating it at once succeed, and afterwards the frames, the swap
    slots and the free-slot queue are what they were and the free-frame
    queue is a permutation of what it was. *)
Lemma admit_then_terminate_without_eviction
    (s : SimuladorOS) nom tam_kb prio instr motivo :
  0 <= tam_kb < 2 ^ 53 ->
  0 < page_kb s < 2 ^ 53 ->
  Z.of_nat (length (ram s)) = num_marcos_ram s ->
  NoDup (free_frames s) ->
  (forall f, f ∈ free_frames s ->
             0 <= f < num_marcos_ram s /\ ram s !! Z.to_nat f = Some None) ->
  pages_for s tam_kb <= Z.of_nat (length (free_frames s)) ->
  exists h s1 s2,
    crear_proceso nom tam_kb prio instr s = (Ok h, s1) /\
    terminar_proceso h motivo s1 = (Ok tt, s2) /\
    free_frame_count s2 = free_frame_count s /\
    free_slot_count s2 = free_slot_count s /\
    ram s2 = ram s /\
    swap s2 = swap s /\
    free_swap_slots s2 = free_swap_slots s /\
    free_frames s2 ≡ₚ free_frames s.
Proof.
  intros Htam Hpage Hlen Hnd Hfree Hfit.
  assert (Hpk : page_kb s <> 0) by lia.
  pose proof (page_count_exact s tam_kb Htam Hpage) as Hex.
  set (P := Z.to_nat (pages_for s tam_kb)).
  set (fs := take P (free_frames s)). set (rest := drop P (free_frames s)).
  set (h := length (pcbs s)).
  set (sb := before_allocation s nom tam_kb prio instr).
  set (c0 := fresh_PCB s nom tam_kb prio instr).
  assert (Hfs : length fs = P) by (subst fs; rewrite length_take; lia).
  assert (Hsplit : free_frames s = fs ++ rest) by (symmetry; apply take_drop).
  assert (Hsub : forall f, f ∈ fs -> f ∈ free_frames s).
  { intros f Hf. rewrite Hsplit. apply elem_of_app. now left. }
  assert (Hc0 : pcbs sb !! h = Some c0).
  { subst sb. rewrite pcbs_before_allocation. apply list_lookup_middle. reflexivity. }
  (* the admission *)
  destruct (allocate_pages_free h fs 0 rest c0 sb) as
    (s1 & c1 & Hrun1 & Hfree1 & Hside1 & Hlen1 & Hpcbs1 & Htl1 & _ & Hres1 & Hocc1 & Hout1).
  { exact Hsplit. }
  { exact Hc0. }
  { intros f Hf. destruct (Hfree f (Hsub f Hf)) as [Hr _]. subst sb.
    unfold before_allocation. proj_simpl. lia. }
  { subst c0. unfold fresh_PCB. proj_simpl. rewrite length_replicate. fold P. lia. }
  assert (Hcrear : crear_proceso nom tam_kb prio instr s = (Ok h, s1)).
  { rewrite crear_proceso_prefix by assumption. fold h sb.
    erewrite bind_ok; [reflexivity|].
    unfold allocate_pages_for_process.
    erewrite bind_ok by (apply deref_ok; exact Hc0).
    subst c0. unfold fresh_PCB at 1. proj_simpl.
    rewrite py_range_to_nat. fold P. rewrite <- Hfs. exact Hrun1. }
  assert (Hc1 : pcbs s1 !! h = Some c1).
  { rewrite Hpcbs1. apply list_lookup_insert_eq. eapply lookup_lt_Some. exact Hc0. }
  assert (Hnum1 : num_marcos_ram s1 = num_marcos_ram s).
  { apply (f_equal (fun x => snd (fst x))) in Hside1. exact Hside1. }
  (* the termination loop *)
  assert (HF : Forall2 resident_in (tabla_paginas c1) fs).
  { apply Forall2_same_length_lookup. split.
    - rewrite Htl1. subst c0. unfold fresh_PCB. proj_simpl.
      rewrite length_replicate. fold P. lia.
    - intros i e f He Hf. destruct (Hres1 i f Hf) as (e' & He' & Hr).
      simpl in He'. rewrite He in He'. injection He' as <-. exact Hr. }
  destruct (release_entries_resident (tabla_paginas c1) fs s1 HF)
    as (s' & Hrun' & Hfree' & Hout' & Hlen' & Hnone' & Hsame').
  { rewrite Hsplit in Hnd. apply NoDup_app in Hnd. tauto. }
  { rewrite Hlen1, Hnum1. subst sb. unfold before_allocation. proj_simpl. exact Hlen. }
  { intros g Hg. split.
    - rewrite Hnum1. apply (Hfree g (Hsub g Hg)).
    - apply Hocc1. exact Hg. }
  assert (Hpcbs' : pcbs s' = pcbs s1) by (apply (f_equal pcbs) in Hout'; exact Hout').
  assert (Hlt' : (h < length (pcbs s'))%nat).
  { rewrite Hpcbs'. eapply lookup_lt_Some. exact Hc1. }
  eexists h, s1, _. split; [exact Hcrear|]. split.
  { unfold terminar_proceso.
    erewrite bind_ok by (apply deref_ok; exact Hc1).
    erewrite bind_ok by exact Hrun'.
    rewrite modify_bind.
    erewrite bind_ok by (apply update_pcb_ok; proj_simpl; rewrite Hpcbs'; exact Hc1).
    erewrite bind_ok.
    2:{ apply update_pcb_ok. proj_simpl. apply list_lookup_insert_eq. exact Hlt'. }
    rewrite modify_bind. reflexivity. }
  unfold free_frame_count, free_slot_count. proj_simpl.
  assert (Hswap : swap s' = swap s /\ free_swap_slots s' = free_swap_slots s).
  { pose proof (f_equal swap Hout') as H1. pose proof (f_equal free_swap_slots Hout') as H2.
    simpl in H1, H2. rewrite H1, H2.
    pose proof (f_equal (fun x => fst (fst (fst x))) Hside1) as H3.
    pose proof (f_equal (fun x => snd (fst (fst x))) Hside1) as H4.
    simpl in H3, H4. rewrite H3, H4. split; reflexivity. }
  destruct Hswap as [Hswap Hfss].
  assert (Hperm : free_frames s' ≡ₚ free_frames s).
  { rewrite Hfree', Hfree1, Hsplit. apply Permutation_app_comm. }
  split; [now rewrite Hperm|]. split; [now rewrite Hfss|]. split; [|auto].
  apply list_eq. intros i.
  destruct (decide (Z.of_nat i ∈ fs)) as [Hin|Hnin].
  - specialize (Hnone' _ Hin). rewrite Nat2Z.id in Hnone'. rewrite Hnone'.
    destruct (Hfree _ (Hsub _ Hin)) as [_ Hempty]. rewrite Nat2Z.id in Hempty.
    now rewrite Hempty.
  - rewrite Hsame' by exact Hnin. rewrite Hout1 by exact Hnin. reflexivity.
Qed.

(** C6.  The law fails in the code, on a fresh simulator with 8 frames and
    16 slots and no other process.  A process of 9 pages fills the 8 frames;
    for its last page the admission loop evicts its own page 0 from frame
    0: [swap_out_frame] appends frame 0 to the free-frame queue and
    [place_page_in_frame] loads page 8 into it without taking it from the
    queue, so the queue lists an occupied frame.  Terminating the process
    releases its 8 frames and appends frame 0 once more: 9 frames are
    listed as free where there were 8 before the admission, and where the
    simulator has 8. *)
Theorem admit_then_terminate_leaves_stale_free_frame :
  reachable fresh_eight /\
  pcbs fresh_eight = [] /\
  num_marcos_ram fresh_eight = 8 /\
  free_frame_count fresh_eight = 8%nat /\
  free_slot_count fresh_eight = 16%nat /\
  crear_proceso "A" 2304 1 10 fresh_eight = (Ok 0%nat, nine_pages_admitted) /\
  free_frames nine_pages_admitted = [0] /\
  ram nine_pages_admitted !! 0%nat = Some (Some (mkFrame 1 8 0 0 true)) /\
  forzar_terminacion 1 nine_pages_admitted = (Ok tt, nine_pages_terminated) /\
  ram nine_pages_terminated = replicate 8 None /\
  free_frames nine_pages_terminated = [0; 1; 2; 3; 4; 5; 6; 7; 0] /\
  free_frame_count nine_pages_terminated = 9%nat /\
  free_slot_count nine_pages_terminated = 16%nat.
Proof.
  split.
  { exists eight_frame_cfg, []. vm_compute. reflexivity. }
  vm_compute. repeat split.
Qed.

(** ** The registry invariant *)

Lemma grows_refl s : grows s s.
Proof. intros h c Hc. exists c. auto. Qed.

Lemma grows_trans s1 s2 s3 : grows s1 s2 -> grows s2 s3 -> grows s1 s3.
Proof.
  intros H12 H23 h c Hc. destruct (H12 h c Hc) as (c2 & Hc2 & Hp2 & Hl2).
  destruct (H23 h c2 Hc2) as (c3 & Hc3 & Hp3 & Hl3).
  exists c3. repeat split; [assumption | congruence | congruence].
Qed.

Lemma grows_of_view s s' : pcbs s' = pcbs s -> grows s s'.
Proof. intros H h c Hc. exists c. rewrite H. auto. Qed.

Lemma stable_True : stable (fun _ => True).
Proof. now intros s s' _ _. Qed.

Lemma stable_holds h c : stable (holds h c).
Proof.
  intros s s' Hg (c1 & Hc1 & Hp1 & Hl1). destruct (Hg h c1 Hc1) as (c2 & Hc2 & Hp2 & Hl2).
  exists c2. repeat split; [assumption | congruence | congruence].
Qed.

Lemma stable_page_known h page : stable (page_known h page).
Proof.
  intros s s' Hg (c1 & Hc1 & Hr). destruct (Hg h c1 Hc1) as (c2 & Hc2 & _ & Hl2).
  exists c2. split; [assumption|]. rewrite Hl2. exact Hr.
Qed.

Lemma stable_and P Q : stable P -> stable Q -> stable (fun s => P s /\ Q s).
Proof. intros HP HQ s s' Hg [H1 H2]. split; [eapply HP | eapply HQ]; eassumption. Qed.

Create HintDb stable.
#[local] Hint Resolve stable_True stable_holds stable_page_known stable_and : stable.

Section Sound.
Context (P : SimuladorOS -> Prop).

Lemma sound_ret {A} (a : A) : sound P (ret a).
Proof. intros s HI _. split; [exact HI | apply grows_refl]. Qed.

Lemma sound_raise {A} e : sound P (@raise A e).
Proof. intros s HI _. split; [exact HI | apply grows_refl]. Qed.

Lemma sound_get : sound P get.
Proof. intros s HI _. split; [exact HI | apply grows_refl]. Qed.

(** A computation that does not touch the store of objects, the TLB or
    the PID counter. *)
Lemma sound_of_keeps {A} (m : M A) : keeps pcb_view m -> sound P m.
Proof.
  intros Hk s HI _. specialize (Hk s). split.
  - unfold registry_inv. rewrite Hk. exact HI.
  - apply grows_of_view. apply (f_equal (fun v => fst (fst v))) in Hk. exact Hk.
Qed.

Lemma sound_bind {A B} (m : M A) (k : A -> M B) :
  stable P -> sound P m -> (forall a, sound P (k a)) -> sound P (bind m k).
Proof.
  intros Hst Hm Hk s HI HP. unfold bind. destruct (Hm s HI HP) as [HI1 Hg1].
  destruct (m s) as [[a|e] s1]; simpl in *.
  - destruct (Hk a s1 HI1 (Hst _ _ Hg1 HP)) as [HI2 Hg2].
    split; [exact HI2 | eapply grows_trans; eassumption].
  - auto.
Qed.

Lemma sound_for_each {A} (xs : list A) (body : A -> M unit) :
  stable P -> (forall x, sound P (body x)) -> sound P (for_each xs body).
Proof.
  intros Hst H. induction xs as [|x xs IH]; simpl.
  - apply sound_ret.
  - apply sound_bind; auto.
Qed.

End Sound.

Lemma sound_weaken {A} (P Q : SimuladorOS -> Prop) (m : M A) :
  (forall s, P s -> Q s) -> sound Q m -> sound P m.
Proof. intros HPQ Hm s HI HP. apply Hm; auto. Qed.

(** After [deref h] returned [c], the object behind [h] is [c]. *)
Lemma sound_deref_bind {A} (P : SimuladorOS -> Prop) h (k : PCB -> M A) :
  (forall c, sound (fun s => P s /\ holds h c s) (k c)) -> sound P (bind (deref h) k).
Proof.
  intros Hk s HI HP.
  destruct (pcbs s !! h) as [c|] eqn:Hc.
  - erewrite bind_ok by (apply deref_ok; exact Hc).
    apply Hk; [exact HI|]. split; [exact HP|]. exists c. auto.
  - erewrite bind_raise.
    + split; [exact HI | apply grows_refl].
    + unfold deref. rewrite get_bind, Hc. reflexivity.
Qed.

(** *** Keys of the TLB *)

Lemma key_eqb_eq (k1 k2 : Z * Z) : key_eqb k1 k2 = true <-> k1 = k2.
Proof.
  destruct k1 as [a b], k2 as [a' b']. unfold key_eqb. simpl.
  rewrite andb_true_iff, !Z.eqb_eq. split; [intros [-> ->]; reflexivity | intros [= -> ->]; auto].
Qed.

Lemma od_get_Some_key {V} (k : Z * Z) (es : list ((Z * Z) * V)) v :
  od_get k es = Some v -> k ∈ es.*1.
Proof.
  induction es as [|[k' v'] es IH]; simpl; [discriminate|].
  destruct (key_eqb k k') eqn:Hk.
  - intros _. apply key_eqb_eq in Hk as ->. left.
  - intros H. right. auto.
Qed.

Lemma od_get_None_key {V} (k : Z * Z) (es : list ((Z * Z) * V)) :
  k ∉ es.*1 -> od_get k es = None.
Proof.
  intros Hk. destruct (od_get k es) eqn:H; [|reflexivity].
  exfalso. apply Hk. eapply od_get_Some_key. exact H.
Qed.

Lemma od_pop_keys {V} (k0 k : Z * Z) (es : list ((Z * Z) * V)) :
  k ∈ (od_pop k0 es).*1 -> k ∈ es.*1.
Proof.
  induction es as [|[k' v'] es IH]; simpl; [auto|].
  destruct (key_eqb k0 k').
  - intros H. now right.
  - simpl. intros H. apply elem_of_cons in H as [-> | H]; [left | right; auto].
Qed.

Lemma tlb_lookup_keys t p page fr t' k :
  tlb_lookup t p page = (fr, t') -> k ∈ (entries t').*1 -> k ∈ (entries t).*1.
Proof.
  unfold tlb_lookup. destruct (od_get (p, page) (entries t)) as [v|] eqn:Hget.
  - intros [= <- <-]. simpl. rewrite fmap_app. intros H.
    apply elem_of_app in H as [H | H].
    + eapply od_pop_keys. exact H.
    + simpl in H. apply list_elem_of_singleton in H as ->.
      eapply od_get_Some_key. exact Hget.
  - intros [= <- <-]. auto.
Qed.

Lemma tlb_add_keys t p page fr t' k :
  tlb_add t p page fr = Some t' -> k ∈ (entries t').*1 ->
  k = (p, page) \/ k ∈ (entries t).*1.
Proof.
  unfold tlb_add. destruct (od_get (p, page) (entries t)) as [v|] eqn:Hget.
  - intros [= <-]. simpl. rewrite fmap_app. intros H.
    apply elem_of_app in H as [H | H].
    + right. eapply od_pop_keys. exact H.
    + simpl in H. apply list_elem_of_singleton in H as ->. now left.
  - destruct (size t <=? Z.of_nat (length (entries t))).
    + destruct (entries t) as [|e es] eqn:Hes; [discriminate|].
      intros [= <-]. simpl. rewrite fmap_app. intros H.
      apply elem_of_app in H as [H | H].
      * right. now right.
      * simpl in H. apply list_elem_of_singleton in H as ->. now left.
    + intros [= <-]. simpl. rewrite fmap_app. intros H.
      apply elem_of_app in H as [H | H].
      * now right.
      * simpl in H. apply list_elem_of_singleton in H as ->. now left.
Qed.

Lemma tlb_invalidate_keys t p k :
  k ∈ (entries (tlb_invalidate_pid t p)).*1 -> k ∈ (entries t).*1.
Proof.
  unfold tlb_invalidate_pid. simpl. intros H.
  apply list_elem_of_fmap in H as (e & -> & He).
  apply list_elem_of_In, filter_In in He as [He _]. apply list_elem_of_In in He.
  apply list_elem_of_fmap. eauto.
Qed.

(** *** Steps that maintain the invariant *)

Lemma registry_ok_insert ps t next h c c' :
  registry_ok (ps, t, next) -> ps !! h = Some c ->
  pid c' = pid c -> length (tabla_paginas c') = length (tabla_paginas c) ->
  registry_ok (<[h := c']> ps, t, next).
Proof.
  intros (HU & HN & HK) Hc Hpid Hlen.
  assert (Hlt : (h < length ps)%nat) by (eapply lookup_lt_Some; exact Hc).
  split; [|split].
  - intros h1 c1 H1. destruct (decide (h = h1)) as [<-|Hne].
    + rewrite list_lookup_insert_eq in H1 by exact Hlt. injection H1 as <-.
      rewrite Hpid. apply HU. exact Hc.
    + rewrite list_lookup_insert_ne in H1 by exact Hne. apply HU. exact H1.
  - rewrite length_insert. exact HN.
  - intros tl p page Ht Hk. destruct (HK tl p page Ht Hk) as (h1 & c1 & H1 & Hp1 & Hr1).
    destruct (decide (h = h1)) as [<-|Hne].
    + exists h, c'. rewrite list_lookup_insert_eq by exact Hlt.
      assert (c1 = c) by congruence. subst c1.
      split; [reflexivity|]. split; [congruence|]. rewrite Hlen. exact Hr1.
    + exists h1, c1. rewrite list_lookup_insert_ne by exact Hne. auto.
Qed.

Lemma grows_insert s s' h c c' :
  pcbs s !! h = Some c -> pcbs s' = <[h := c']> (pcbs s) ->
  pid c' = pid c -> length (tabla_paginas c') = length (tabla_paginas c) ->
  grows s s'.
Proof.
  intros Hc Hs' Hpid Hlen h1 c1 H1.
  assert (Hlt : (h < length (pcbs s))%nat) by (eapply lookup_lt_Some; exact Hc).
  unfold holds. rewrite Hs'. destruct (decide (h = h1)) as [<-|Hne].
  - exists c'. rewrite list_lookup_insert_eq by exact Hlt.
    assert (c1 = c) by congruence. subst c1. auto.
  - exists c1. rewrite list_lookup_insert_ne by exact Hne. auto.
Qed.

Lemma sound_update_pcb P h f :
  (forall c, pid (f c) = pid c /\
             length (tabla_paginas (f c)) = length (tabla_paginas c)) ->
  sound P (update_pcb h f).
Proof.
  intros Hf s HI _. destruct (pcbs s !! h) as [c|] eqn:Hc.
  - rewrite (update_pcb_ok h f c s Hc). simpl. destruct (Hf c) as [Hp Hl]. split.
    + unfold registry_inv, pcb_view. proj_simpl.
      eapply registry_ok_insert; [exact HI | exact Hc | exact Hp | exact Hl].
    + eapply grows_insert; [exact Hc | reflexivity | exact Hp | exact Hl].
  - unfold update_pcb. erewrite bind_raise.
    + split; [exact HI | apply grows_refl].
    + unfold deref. rewrite get_bind, Hc. reflexivity.
Qed.

Lemma sound_pte_update P h page f : sound P (pte_update h page f).
Proof.
  intros s HI _. destruct (pcbs s !! h) as [c|] eqn:Hc.
  - destruct (pt_get (tabla_paginas c) page) as [e|] eqn:He.
    + rewrite (pte_update_ok h page f c e s Hc He). simpl. split.
      * unfold registry_inv, pcb_view. proj_simpl.
        eapply registry_ok_insert; [exact HI | exact Hc | reflexivity|].
        proj_simpl. apply length_insert.
      * eapply grows_insert; [exact Hc | reflexivity | reflexivity|].
        proj_simpl. apply length_insert.
    + unfold pte_update. erewrite bind_ok by (apply deref_ok; exact Hc). rewrite He.
      split; [exact HI | apply grows_refl].
  - unfold pte_update. erewrite bind_raise.
    + split; [exact HI | apply grows_refl].
    + unfold deref. rewrite get_bind, Hc. reflexivity.
Qed.

(** A step that only replaces the TLB by one with no new key. *)
Lemma registry_inv_set_tlb s t t' :
  registry_inv s -> tlb s = Some t ->
  (forall k, k ∈ (entries t').*1 -> k ∈ (entries t).*1) ->
  registry_inv (set_tlb (Some t') s).
Proof.
  intros (HU & HN & HK) Ht Hsub. split; [exact HU | split; [exact HN|]].
  proj_simpl. intros tl p page [= <-] Hk. apply (HK t p page Ht). apply Hsub. exact Hk.
Qed.

Lemma sound_tlb_add P h c page fr :
  (forall s, P s -> holds h c s /\ page_known h page s) ->
  sound P (tlb_add_if_enabled (pid c) page fr).
Proof.
  intros HP s HI Hs. unfold tlb_add_if_enabled. rewrite get_bind.
  destruct (tlb s) as [t|] eqn:Ht; [|split; [exact HI | apply grows_refl]].
  destruct (tlb_add t (pid c) page fr) as [t'|] eqn:Hadd;
    [|split; [exact HI | apply grows_refl]].
  simpl. split; [|now apply grows_of_view].
  destruct HI as (HU & HN & HK). split; [exact HU | split; [exact HN|]].
  proj_simpl. intros tl p pg [= <-] Hk.
  destruct (tlb_add_keys _ _ _ _ _ _ Hadd Hk) as [[= -> ->] | Hold].
  - destruct (HP s Hs) as [(c1 & Hc1 & Hp1 & _) (c2 & Hc2 & Hr2)].
    assert (c2 = c1) by congruence. subst c2. exists h, c1. auto.
  - apply (HK t p pg Ht Hold).
Qed.

Lemma page_known_of_holds h c page e s :
  holds h c s -> pt_get (tabla_paginas c) page = Some e -> page_known h page s.
Proof.
  intros (c' & Hc' & _ & Hl) He. exists c'. split; [exact Hc'|]. rewrite Hl.
  unfold pt_get in He. destruct (page <? 0) eqn:Hneg; [discriminate|].
  apply lookup_lt_Some in He. lia.
Qed.

(** One step of an invariant proof, in the manner of [keeps_step]. *)
Ltac sound_step :=
  lazymatch goal with
  | |- sound _ (bind (deref _) _) => apply sound_deref_bind; intro
  | |- sound _ (bind _ _) => apply sound_bind; [auto with stable | | intro]
  | |- sound _ (ret _) => apply sound_ret
  | |- sound _ (raise _) => apply sound_raise
  | |- sound _ get => apply sound_get
  | |- sound _ (update_pcb _ _) => apply sound_update_pcb; intro; split; reflexivity
  | |- sound _ (pte_update _ _ _) => apply sound_pte_update
  | |- sound _ (tlb_add_if_enabled _ _ _) => fail
  | |- sound _ (for_each _ _) => apply sound_for_each; [auto with stable | intro]
  | |- sound _ (swap_in _ _ _) => fail
  | |- sound _ (modify _) =>
      first [ apply sound_of_keeps; solve [keeps_auto] | solve [auto with sound] ]
  | |- sound _ (deref _) => apply sound_of_keeps; solve [keeps_auto]
  | |- sound _ (ram_get _) => apply sound_of_keeps; solve [keeps_auto]
  | |- sound _ (ram_set _ _) => apply sound_of_keeps; solve [keeps_auto]
  | |- sound _ (swap_get _) => apply sound_of_keeps; solve [keeps_auto]
  | |- sound _ (swap_set _ _) => apply sound_of_keeps; solve [keeps_auto]
  | |- sound _ (log _) => apply sound_of_keeps; solve [keeps_auto]
  | |- sound _ (randint _ _ _) => apply sound_of_keeps; solve [keeps_auto]
  | |- sound _ select_victim_frame => apply sound_of_keeps; solve [keeps_auto]
  | |- sound _ (release_entry _) => apply sound_of_keeps; solve [keeps_auto]
  | |- sound _ (match ?x with _ => _ end) => destruct x eqn:?
  | |- sound _ ?m => first [ solve [auto with sound stable] | keeps_head m ]
  end.

Ltac sound_auto := repeat sound_step.

Create HintDb sound.

(** *** The methods maintain the invariant *)

Lemma sound_place_page_in_frame P h pagina frame_index :
  stable P -> sound P (place_page_in_frame h pagina frame_index).
Proof. intros HP. sound_auto. Qed.

Lemma sound_swap_out_frame P frame_index : stable P -> sound P (swap_out_frame frame_index).
Proof. intros HP. sound_auto. Qed.

#[local] Hint Resolve sound_place_page_in_frame sound_swap_out_frame : sound.

Lemma sound_allocate_pages_for_process P h :
  stable P -> sound P (allocate_pages_for_process h).
Proof. intros HP. sound_auto. Qed.

Lemma sound_load_new P h page_index : stable P -> sound P (load_new h page_index).
Proof. intros HP. sound_auto. Qed.

Lemma sound_swap_in P h page_index slot :
  stable P -> (forall s, P s -> page_known h page_index s) ->
  sound P (swap_in h page_index slot).
Proof.
  intros HP Hknown. unfold swap_in. sound_auto.
  all: eapply (sound_tlb_add _ h); intros s0 [H0 Hh]; split; [exact Hh | auto].
Qed.

#[local] Hint Resolve sound_allocate_pages_for_process sound_load_new : sound.

Lemma sound_invalidate_tlb P p :
  sound P (modify (fun s => set_tlb (option_map (fun t => tlb_invalidate_pid t p) (tlb s)) s)).
Proof.
  intros s HI _. simpl. split; [|now apply grows_of_view].
  destruct (tlb s) as [t|] eqn:Ht; simpl.
  - eapply registry_inv_set_tlb; [exact HI | exact Ht|]. apply tlb_invalidate_keys.
  - destruct HI as (HU & HN & HK). split; [exact HU | split; [exact HN|]].
    proj_simpl. intros tl p0 page [=].
Qed.
#[local] Hint Resolve sound_invalidate_tlb : sound.

Lemma sound_tlb_probe P h page_index : sound P (tlb_probe h page_index).
Proof.
  intros s HI _. unfold tlb_probe. rewrite get_bind.
  destruct (tlb s) as [t|] eqn:Ht; [|split; [exact HI | apply grows_refl]].
  destruct (pcbs s !! h) as [c|] eqn:Hc.
  - erewrite bind_ok by (apply deref_ok; exact Hc).
    destruct (tlb_lookup t (pid c) page_index) as [fr t'] eqn:Hl. rewrite modify_bind.
    match goal with |- registry_inv (snd (?m ?st)) /\ _ =>
      assert (Hrest : sound (fun _ => True) m) by sound_auto;
      destruct (Hrest st) as [HI2 Hg2] end.
    + eapply registry_inv_set_tlb; [exact HI | exact Ht|].
      intros k. eapply tlb_lookup_keys. exact Hl.
    + exact I.
    + split; [exact HI2|]. eapply grows_trans; [|exact Hg2]. now apply grows_of_view.
  - erewrite bind_raise.
    + split; [exact HI | apply grows_refl].
    + unfold deref. rewrite get_bind, Hc. reflexivity.
Qed.
#[local] Hint Resolve sound_tlb_probe : sound.

Lemma sound_access_page P h page_index : stable P -> sound P (access_page h page_index).
Proof.
  intros HP. unfold access_page. sound_auto.
  - eapply (sound_tlb_add _ h). intros s0 [H0 Hh]. split; [exact Hh|].
    eapply page_known_of_holds; eassumption.
  - apply sound_swap_in; [auto with stable|].
    intros s0 [H0 Hh]. eapply page_known_of_holds; eassumption.
Qed.

Lemma sound_terminar_proceso P h motivo : stable P -> sound P (terminar_proceso h motivo).
Proof. intros HP. unfold terminar_proceso. sound_auto. Qed.

#[local] Hint Resolve sound_access_page sound_terminar_proceso : sound.

Lemma sound_planificar P : stable P -> sound P planificar.
Proof. intros HP. sound_auto. Qed.

Lemma sound_suspender_proceso P p : stable P -> sound P (suspender_proceso p).
Proof. intros HP. sound_auto. Qed.

Lemma sound_reanudar_proceso P p : stable P -> sound P (reanudar_proceso p).
Proof. intros HP. sound_auto. Qed.

Lemma sound_forzar_terminacion P p : stable P -> sound P (forzar_terminacion p).
Proof. intros HP. sound_auto. Qed.

(** Storing the new object and advancing the PID counter, taken together. *)
Lemma registry_inv_new_pcb s c :
  registry_inv s -> pid c = contador_pid s ->
  registry_inv (set_contador_pid (contador_pid s + 1) (set_pcbs (pcbs s ++ [c]) s)) /\
  grows s (set_contador_pid (contador_pid s + 1) (set_pcbs (pcbs s ++ [c]) s)).
Proof.
  intros (HU & HN & HK) Hpid. split.
  - split; [|split]; proj_simpl.
    + intros h1 c1 H1. apply lookup_app_Some in H1 as [H1 | [Hge H1]].
      * apply HU. exact H1.
      * apply list_lookup_singleton_Some in H1 as [Hz <-]. rewrite Hpid, HN. lia.
    + rewrite HN, length_app. simpl. lia.
    + intros tl p page Ht Hk. destruct (HK tl p page Ht Hk) as (h1 & c1 & H1 & Hp & Hr).
      exists h1, c1. split; [|auto]. apply lookup_app_l_Some. exact H1.
  - intros h1 c1 H1. exists c1. proj_simpl. split; [|auto].
    apply lookup_app_l_Some. exact H1.
Qed.

Lemma sound_crear_proceso P nom tam_kb prio instr :
  sound P (crear_proceso nom tam_kb prio instr).
Proof.
  intros s HI _. unfold crear_proceso. rewrite get_bind.
  destruct (new_PCB_cases (contador_pid s) nom tam_kb prio instr s)
    as [(e & Hnew) | (n & Hnew)].
  - erewrite bind_raise by exact Hnew.
    split; [exact HI | apply grows_refl].
  - erewrite bind_ok by exact Hnew.
    rewrite !modify_bind.
    match goal with |- context [set_pcbs (pcbs s ++ [?c]) s] =>
      destruct (registry_inv_new_pcb s c HI eq_refl) as [Hn1 Hn2] end.
    match goal with |- registry_inv (snd (?m ?st)) /\ _ =>
      assert (Hrest : sound (fun _ => True) m) by sound_auto;
      destruct (Hrest st) as [HI2 Hg2] end.
    + exact Hn1.
    + exact I.
    + split; [exact HI2|]. eapply grows_trans; [exact Hn2 | exact Hg2].
Qed.
#[local] Hint Resolve sound_crear_proceso sound_planificar : sound.

Lemma sound_crear_proceso_aleatorio P d : stable P -> sound P (crear_proceso_aleatorio d).
Proof. intros HP. unfold crear_proceso_aleatorio. sound_auto. Qed.
#[local] Hint Resolve sound_crear_proceso_aleatorio : sound.

Lemma sound_ejecutar_ciclo P d : stable P -> sound P (ejecutar_ciclo d).
Proof. intros HP. unfold ejecutar_ciclo. sound_auto. Qed.

Lemma sound_do_op o : sound (fun _ => True) (do_op o).
Proof.
  destruct o; simpl.
  - apply sound_bind; [auto with stable | apply sound_crear_proceso | intro; apply sound_ret].
  - apply sound_bind; [auto with stable | apply sound_crear_proceso_aleatorio; auto with stable
                       | intro; apply sound_ret].
  - apply sound_ejecutar_ciclo. auto with stable.
  - apply sound_bind; [auto with stable | apply sound_access_page; auto with stable
                       | intro; apply sound_ret].
  - apply sound_suspender_proceso. auto with stable.
  - apply sound_reanudar_proceso. auto with stable.
  - apply sound_forzar_terminacion. auto with stable.
Qed.

Lemma boot_registry_inv c s0 : boot c = Some s0 -> registry_inv s0.
Proof.
  unfold boot, init. destruct (cfg_page_kb c =? 0); [discriminate|].
  intros [= <-]. split; [|split]; proj_simpl.
  - intros h c0 H. rewrite lookup_nil in H. discriminate.
  - reflexivity.
  - intros tl p page Ht Hk. destruct (cfg_tlb_enabled c); [|discriminate].
    injection Ht as <-. simpl in Hk. apply elem_of_nil in Hk. contradiction.
Qed.

(** The invariant holds in every reachable state. *)
Lemma reachable_registry_inv s : reachable s -> registry_inv s.
Proof.
  intros (c & ops & Hrun). unfold run_script in Hrun.
  destruct (boot c) as [s0|] eqn:Hboot; [|discriminate]. injection Hrun as <-.
  apply boot_registry_inv in Hboot. revert s0 Hboot. unfold run_ops.
  induction ops as [|o ops IH]; intros s0 H0; simpl; [exact H0|].
  apply IH. apply (sound_do_op o s0 H0 I).
Qed.

(** In a state with the invariant the TLB has no entry for a page outside
    the page table of an existing process. *)
Lemma registry_inv_tlb_misses s h c page_index :
  registry_inv s -> pcbs s !! h = Some c ->
  ~ (0 <= page_index < Z.of_nat (length (tabla_paginas c))) ->
  tlb_misses s (pid c) page_index.
Proof.
  intros (HU & _ & HK) Hc Hout t Ht. apply od_get_None_key. intros Hk.
  destruct (HK t (pid c) page_index Ht Hk) as (h1 & c1 & H1 & Hp & Hr).
  pose proof (HU h c Hc) as Hp0. pose proof (HU h1 c1 H1) as Hp1.
  assert (h1 = h) by lia. subst h1.
  assert (c1 = c) by congruence. subst c1. contradiction.
Qed.

(** C5 (amended).  In every reachable state, for every process and every
    page index outside the range of its page table, [access_page] returns
    [False] and leaves the frames, the swap slots, the free queues, the
    FIFO queue, the CLOCK pointer, the page tables, the TLB and the
    counters of faults, swap-ins and swap-outs as they were; the counter of
    accesses, the tick counter and the access clock advance by one each. *)
Theorem access_out_of_range_only_advances_clocks (s : SimuladorOS) h c page_index :
  reachable s ->
  pcbs s !! h = Some c ->
  ~ (0 <= page_index < Z.of_nat (length (tabla_paginas c))) ->
  fst (access_page h page_index s) = Ok false /\
  ram (snd (access_page h page_index s)) = ram s /\
  swap (snd (access_page h page_index s)) = swap s /\
  free_frames (snd (access_page h page_index s)) = free_frames s /\
  free_swap_slots (snd (access_page h page_index s)) = free_swap_slots s /\
  fifo_queue (snd (access_page h page_index s)) = fifo_queue s /\
  clock_pointer (snd (access_page h page_index s)) = clock_pointer s /\
  pcbs (snd (access_page h page_index s)) = pcbs s /\
  tlb (snd (access_page h page_index s)) = tlb s /\
  total_fallos (snd (access_page h page_index s)) = total_fallos s /\
  swap_ins (snd (access_page h page_index s)) = swap_ins s /\
  swap_outs (snd (access_page h page_index s)) = swap_outs s /\
  total_accesos (snd (access_page h page_index s)) = total_accesos s + 1 /\
  ticks (snd (access_page h page_index s)) = ticks s + 1 /\
  access_clock (snd (access_page h page_index s)) = access_clock s + 1.
Proof.
  intros Hreach Hc Hout. apply (access_out_of_range_effect s h c page_index Hc Hout).
  apply (registry_inv_tlb_misses s h c page_index); [|exact Hc | exact Hout].
  apply reachable_registry_inv. exact Hreach.
Qed.

(** Page 7 of a two-page process, with the TLB on. *)
Lemma access_out_of_range_only_advances_clocks_witness :
  reachable stale_tlb_state /\
  fst (access_page 0%nat 7 stale_tlb_state) = Ok false /\
  pcbs (snd (access_page 0%nat 7 stale_tlb_state)) = pcbs stale_tlb_state /\
  tlb (snd (access_page 0%nat 7 stale_tlb_state)) = tlb stale_tlb_state /\
  total_fallos (snd (access_page 0%nat 7 stale_tlb_state)) = total_fallos stale_tlb_state /\
  ticks (snd (access_page 0%nat 7 stale_tlb_state)) = ticks stale_tlb_state + 1.
Proof.
  assert (Hreach : reachable stale_tlb_state).
  { exists stale_tlb_cfg, stale_tlb_script. vm_compute. reflexivity. }
  split; [exact Hreach|].
  pose proof (access_out_of_range_only_advances_clocks stale_tlb_state 0%nat
                (mkPCB 1 "A" 512 1 10 10 LISTO 2
                       [mkPTE false None (Some 0) 2; mkPTE true (Some 1) None 2] "")
                7 Hreach) as H.
  destruct H as (H1 & _ & _ & _ & _ & _ & _ & H8 & H9 & H10 & _ & _ & _ & H14 & _).
  - vm_compute. reflexivity.
  - vm_compute. intros [_ Hlt]. discriminate Hlt.
  - exact (conj H1 (conj H8 (conj H9 (conj H10 H14)))).
Defined.

(** * Further properties of the code *)

(** ** The TLB as an ordered dictionary *)

Lemma od_get_app_new {V} (k : Z * Z) (es : list ((Z * Z) * V)) (v : V) :
  k ∉ es.*1 -> od_get k (es ++ [(k, v)]) = Some v.
Proof.
  induction es as [|[k' v'] es IH]; simpl; intros Hk.
  - assert (H : key_eqb k k = true) by now apply key_eqb_eq. now rewrite H.
  - apply not_elem_of_cons in Hk as [Hne Hk].
    destruct (key_eqb k k') eqn:Heq; [apply key_eqb_eq in Heq; contradiction|].
    apply IH. exact Hk.
Qed.

Lemma od_get_app_other {V} (k k0 : Z * Z) (es : list ((Z * Z) * V)) (v : V) :
  k <> k0 -> od_get k (es ++ [(k0, v)]) = od_get k es.
Proof.
  intros Hne. induction es as [|[k' v'] es IH]; simpl.
  - destruct (key_eqb k k0) eqn:Heq; [apply key_eqb_eq in Heq; contradiction | reflexivity].
  - destruct (key_eqb k k'); [reflexivity | exact IH].
Qed.

Lemma od_get_pop_other {V} (k k0 : Z * Z) (es : list ((Z * Z) * V)) :
  k <> k0 -> od_get k (od_pop k0 es) = od_get k es.
Proof.
  intros Hne. induction es as [|[k' v'] es IH]; simpl; [reflexivity|].
  destruct (key_eqb k0 k') eqn:H0.
  - apply key_eqb_eq in H0 as <-.
    destruct (key_eqb k k0) eqn:Heq; [apply key_eqb_eq in Heq; contradiction | reflexivity].
  - simpl. destruct (key_eqb k k'); [reflexivity | exact IH].
Qed.

Lemma od_pop_NoDup {V} (k : Z * Z) (es : list ((Z * Z) * V)) :
  NoDup es.*1 -> NoDup (od_pop k es).*1 /\ k ∉ (od_pop k es).*1.
Proof.
  induction es as [|[k' v'] es IH]; simpl; intros Hnd.
  - split; [constructor | apply not_elem_of_nil].
  - apply NoDup_cons in Hnd as [Hnin Hnd]. destruct (key_eqb k k') eqn:Heq.
    + apply key_eqb_eq in Heq as ->. auto.
    + destruct (IH Hnd) as [IH1 IH2]. simpl. split.
      * apply NoDup_cons. split; [|exact IH1]. intros Hin. apply Hnin.
        eapply od_pop_keys. exact Hin.
      * apply not_elem_of_cons. split; [|exact IH2].
        intros ->. assert (H : key_eqb k' k' = true) by now apply key_eqb_eq. congruence.
Qed.

Lemma od_pop_length {V} (k : Z * Z) (es : list ((Z * Z) * V)) v :
  od_get k es = Some v -> S (length (od_pop k es)) = length es.
Proof.
  induction es as [|[k' v'] es IH]; simpl; [discriminate|].
  destruct (key_eqb k k'); [reflexivity|]. simpl. intros H. now rewrite IH.
Qed.

Lemma od_get_None_not_key {V} (k : Z * Z) (es : list ((Z * Z) * V)) :
  od_get k es = None -> k ∉ es.*1.
Proof.
  induction es as [|[k' v'] es IH]; simpl; [intros _; apply not_elem_of_nil|].
  destruct (key_eqb k k') eqn:Heq; [discriminate|]. intros H.
  apply not_elem_of_cons. split; [|auto].
  intros ->. assert (H' : key_eqb k' k' = true) by now apply key_eqb_eq. congruence.
Qed.

Lemma NoDup_snoc_key (ks : list (Z * Z)) (k : Z * Z) :
  NoDup ks -> k ∉ ks -> NoDup (ks ++ [k]).
Proof.
  intros Hnd Hk. apply NoDup_app. split; [exact Hnd|]. split.
  - intros x Hx Hx'. apply list_elem_of_singleton in Hx' as ->. contradiction.
  - apply NoDup_singleton.
Qed.

(** [add] keeps the keys pairwise different and the number of entries
    within the capacity. *)
Lemma tlb_add_wf t p page fr t' :
  tlb_wf t -> tlb_add t p page fr = Some t' -> tlb_wf t'.
Proof.
  intros [Hnd Hcap]. unfold tlb_add.
  destruct (od_get (p, page) (entries t)) as [v|] eqn:Hget.
  - intros [= <-]. destruct (od_pop_NoDup (p, page) (entries t) Hnd) as [H1 H2].
    split; simpl.
    + rewrite fmap_app. now apply NoDup_snoc_key.
    + rewrite length_app. simpl. pose proof (od_pop_length _ _ _ Hget). lia.
  - pose proof (od_get_None_not_key _ _ Hget) as Hnk.
    destruct (size t <=? Z.of_nat (length (entries t))) eqn:Hfull.
    + destruct (entries t) as [|e es] eqn:Hes; [discriminate|].
      intros [= <-]. simpl in *. apply NoDup_cons in Hnd as [_ Hnd].
      apply not_elem_of_cons in Hnk as [_ Hnk]. split; simpl.
      * rewrite fmap_app. now apply NoDup_snoc_key.
      * rewrite length_app. simpl. lia.
    + apply Z.leb_gt in Hfull. intros [= <-]. split; simpl.
      * rewrite fmap_app. now apply NoDup_snoc_key.
      * rewrite length_app. simpl. lia.
Qed.

(** X1.  [add] followed by [lookup] of the same key: on a TLB with
    pairwise different keys, whenever [add] does not raise, the lookup
    returns the frame just stored, and the keys are still pairwise
    different and within the capacity. *)
Theorem tlb_add_then_lookup t p page fr t' :
  tlb_wf t ->
  tlb_add t p page fr = Some t' ->
  fst (tlb_lookup t' p page) = fr /\ size t' = size t /\ tlb_wf t'.
Proof.
  intros Hwf Hadd. split; [|split; [|eapply tlb_add_wf; eassumption]].
  - destruct Hwf as [Hnd _]. revert Hadd. unfold tlb_add, tlb_lookup.
    destruct (od_get (p, page) (entries t)) as [v|] eqn:Hget.
    + intros [= <-]. simpl.
      destruct (od_pop_NoDup (p, page) (entries t) Hnd) as [_ H2].
      now rewrite od_get_app_new.
    + pose proof (od_get_None_not_key _ _ Hget) as Hnk.
      destruct (size t <=? Z.of_nat (length (entries t))).
      * destruct (entries t) as [|e es] eqn:Hes; [discriminate|].
        intros [= <-]. simpl in *. apply not_elem_of_cons in Hnk as [_ Hnk].
        now rewrite od_get_app_new.
      * intros [= <-]. simpl. now rewrite od_get_app_new.
  - revert Hadd. unfold tlb_add.
    destruct (od_get (p, page) (entries t)); [intros [= <-]; reflexivity|].
    destruct (size t <=? Z.of_nat (length (entries t))).
    + destruct (entries t); [discriminate | intros [= <-]; reflexivity].
    + intros [= <-]. reflexivity.
Qed.

Lemma tlb_add_then_lookup_witness :
  fst (tlb_lookup (mkTLB 2 [((1, 1), Some 1); ((1, 5), Some 0)]) 1 5) = Some 0 /\
  size (mkTLB 2 [((1, 1), Some 1); ((1, 5), Some 0)]) = 2 /\
  tlb_wf (mkTLB 2 [((1, 1), Some 1); ((1, 5), Some 0)]).
Proof.
  apply (tlb_add_then_lookup (mkTLB 2 [((1, 0), Some 0); ((1, 1), Some 1)]) 1 5 (Some 0)).
  - split; [apply (bool_decide_unpack _); vm_compute; exact I | vm_compute; discriminate].
  - reflexivity.
Defined.

(** X2.  [add] raises (the [KeyError] of [popitem]) exactly when the key
    is absent, the TLB is empty and its capacity is not positive; when the
    key is absent and a non-empty TLB is full, the oldest entry is the one
    dropped; a key already present is moved to the back with its new
    frame. *)
Theorem tlb_add_cases t p page fr :
  (tlb_add t p page fr = None <-> entries t = [] /\ size t <= 0) /\
  (forall e es, entries t = e :: es -> od_get (p, page) (entries t) = None ->
                size t <= Z.of_nat (length (entries t)) ->
                tlb_add t p page fr = Some (mkTLB (size t) (es ++ [((p, page), fr)]))) /\
  (od_get (p, page) (entries t) = None -> Z.of_nat (length (entries t)) < size t ->
     tlb_add t p page fr = Some (mkTLB (size t) (entries t ++ [((p, page), fr)]))) /\
  (forall v, od_get (p, page) (entries t) = Some v ->
     tlb_add t p page fr
       = Some (mkTLB (size t) (od_pop (p, page) (entries t) ++ [((p, page), fr)]))).
Proof.
  unfold tlb_add. split; [|split; [|split]].
  - destruct (od_get (p, page) (entries t)) as [v|] eqn:Hget.
    + split; [discriminate|]. intros [Hes _]. rewrite Hes in Hget. discriminate.
    + destruct (size t <=? Z.of_nat (length (entries t))) eqn:Hfull.
      * apply Z.leb_le in Hfull. destruct (entries t) as [|e es] eqn:Hes; simpl in *.
        -- split; [intros _; split; [reflexivity | lia] | reflexivity].
        -- split; [discriminate | intros [H _]; discriminate].
      * apply Z.leb_gt in Hfull. split; [discriminate|]. intros [Hes Hsz].
        rewrite Hes in Hfull. simpl in Hfull. lia.
  - intros e es Hes Hget Hfull. rewrite Hget.
    destruct (size t <=? Z.of_nat (length (entries t))) eqn:H;
      [|apply Z.leb_gt in H; lia].
    rewrite Hes. reflexivity.
  - intros Hget Hroom. rewrite Hget.
    destruct (size t <=? Z.of_nat (length (entries t))) eqn:H;
      [apply Z.leb_le in H; lia | reflexivity].
  - intros v Hget. rewrite Hget. reflexivity.
Qed.

(** X3.  [lookup]: a miss returns [None] and leaves the TLB as it is; a
    hit returns the stored frame, keeps the capacity and every other
    lookup result, and makes the key the most recent entry. *)
Theorem tlb_lookup_cases t p page :
  (od_get (p, page) (entries t) = None -> tlb_lookup t p page = (None, t)) /\
  (forall v, od_get (p, page) (entries t) = Some v ->
     fst (tlb_lookup t p page) = v /\
     size (snd (tlb_lookup t p page)) = size t /\
     length (entries (snd (tlb_lookup t p page))) = length (entries t) /\
     last (entries (snd (tlb_lookup t p page))) = Some ((p, page), v) /\
     forall k, k <> (p, page) ->
               od_get k (entries (snd (tlb_lookup t p page))) = od_get k (entries t)).
Proof.
  unfold tlb_lookup. split.
  - intros ->. reflexivity.
  - intros v Hget. rewrite Hget. simpl. split; [reflexivity|]. split; [reflexivity|].
    split; [|split].
    + rewrite length_app. simpl. pose proof (od_pop_length _ _ _ Hget). lia.
    + apply last_snoc.
    + intros k Hk. rewrite od_get_app_other by exact Hk. now apply od_get_pop_other.
Qed.

Lemma od_get_filter_pid {V} (p : Z) (k : Z * Z) (es : list ((Z * Z) * V)) :
  od_get k (List.filter (fun e => negb (fst (fst e) =? p)) es)
  = if fst k =? p then None else od_get k es.
Proof.
  induction es as [|[k' v'] es IH]; simpl.
  - now destruct (fst k =? p).
  - destruct (fst k' =? p) eqn:Hk'; simpl.
    + rewrite IH. destruct (fst k =? p) eqn:Hk; [reflexivity|].
      destruct (key_eqb k k') eqn:Heq; [|reflexivity].
      apply key_eqb_eq in Heq as ->. congruence.
    + destruct (key_eqb k k') eqn:Heq.
      * apply key_eqb_eq in Heq as ->. now rewrite Hk'.
      * exact IH.
Qed.

Lemma List_filter_sublist {A} (f : A -> bool) (l : list A) : sublist (List.filter f l) l.
Proof.
  induction l as [|x l IH]; simpl; [constructor|].
  destruct (f x); [now apply sublist_skip | now apply sublist_cons].
Qed.

(** X4.  [invalidate_pid]: afterwards no page of that process is found,
    every entry of another process is found as before, the capacity is
    the same, and the remaining entries keep their order (they form a
    sublist of the old ones). *)
Theorem tlb_invalidate_pid_spec t p :
  (forall page, od_get (p, page) (entries (tlb_invalidate_pid t p)) = None) /\
  (forall q page, q <> p ->
     od_get (q, page) (entries (tlb_invalidate_pid t p)) = od_get (q, page) (entries t)) /\
  size (tlb_invalidate_pid t p) = size t /\
  sublist (entries (tlb_invalidate_pid t p)) (entries t) /\
  (tlb_wf t -> tlb_wf (tlb_invalidate_pid t p)).
Proof.
  unfold tlb_invalidate_pid. simpl. split; [|split; [|split; [|split]]].
  - intros page. rewrite od_get_filter_pid. simpl. now rewrite Z.eqb_refl.
  - intros q page Hq. rewrite od_get_filter_pid. simpl.
    destruct (q =? p) eqn:H; [apply Z.eqb_eq in H; contradiction | reflexivity].
  - reflexivity.
  - apply List_filter_sublist.
  - intros [Hnd Hcap]. unfold tlb_wf. simpl.
    assert (Hsub : sublist (List.filter (fun e => negb (fst (fst e) =? p)) (entries t))
                           (entries t)) by apply List_filter_sublist.
    split.
    + eapply sublist_NoDup; [exact Hnd|]. apply fmap_sublist. exact Hsub.
    + apply sublist_length in Hsub. lia.
Qed.

(** ** Lookup by PID and the queue operations *)

Lemma pcb_has_pid_true s p h :
  pcb_has_pid s p h = true <-> exists c, pcbs s !! h = Some c /\ pid c = p.
Proof.
  unfold pcb_has_pid. destruct (pcbs s !! h) as [c|].
  - rewrite Z.eqb_eq. split; [eauto | intros (c' & [= <-] & H); exact H].
  - split; [discriminate | intros (c' & H & _); discriminate].
Qed.

Lemma find_None_iff {A} (f : A -> bool) (l : list A) :
  List.find f l = None <-> forall x, x ∈ l -> f x = false.
Proof.
  induction l as [|y l IH]; simpl.
  - split; [intros _ x Hx; apply elem_of_nil in Hx; contradiction | reflexivity].
  - destruct (f y) eqn:Hy.
    + split; [discriminate|]. intros H. rewrite H in Hy; [discriminate | left].
    + rewrite IH. split.
      * intros H x Hx. apply elem_of_cons in Hx as [-> | Hx]; auto.
      * intros H x Hx. apply H. now right.
Qed.

Lemma find_Some_elem {A} (f : A -> bool) (l : list A) x :
  List.find f l = Some x -> x ∈ l /\ f x = true.
Proof.
  intros H. apply find_some in H as [H1 H2]. split; [now apply list_elem_of_In | exact H2].
Qed.

Lemma find_pcb_by_pid_None_iff (s : SimuladorOS) (p : Z) :
  find_pcb_by_pid s p = None <-> forall h, queued s h -> pcb_has_pid s p h = false.
Proof.
  unfold find_pcb_by_pid, queued.
  destruct (List.find _ (option_list (proceso_actual s))) as [h0|] eqn:H0.
  { split; [discriminate|]. intros H. apply find_Some_elem in H0 as [Hin Hp].
    rewrite H in Hp; [discriminate|]. left.
    destruct (proceso_actual s) as [h1|]; simpl in Hin.
    - apply list_elem_of_singleton in Hin as ->. reflexivity.
    - apply elem_of_nil in Hin. contradiction. }
  destruct (List.find _ (cola_listos s)) as [h1|] eqn:H1.
  { split; [discriminate|]. intros H. apply find_Some_elem in H1 as [Hin Hp].
    rewrite H in Hp; [discriminate | auto]. }
  destruct (List.find _ (cola_bloqueados s)) as [h2|] eqn:H2.
  { split; [discriminate|]. intros H. apply find_Some_elem in H2 as [Hin Hp].
    rewrite H in Hp; [discriminate | auto]. }
  rewrite find_None_iff in H0, H1, H2. rewrite find_None_iff. split.
  - intros H3 h [Ha | [Hl | [Hb | Ht]]]; auto.
    apply H0. rewrite Ha. simpl. left.
  - intros H h Hh. apply H. auto.
Qed.

(** X5.  [find_pcb_by_pid]: a result is a handle the simulator holds whose
    process has the PID asked for; the result is [None] exactly when no
    held process has that PID; and a running process with that PID is
    found before any queued one. *)
Theorem find_pcb_by_pid_spec (s : SimuladorOS) (p : Z) :
  (forall h, find_pcb_by_pid s p = Some h ->
             queued s h /\ exists c, pcbs s !! h = Some c /\ pid c = p) /\
  (find_pcb_by_pid s p = None <->
     forall h, queued s h -> pcb_has_pid s p h = false) /\
  (forall h, proceso_actual s = Some h -> pcb_has_pid s p h = true ->
             find_pcb_by_pid s p = Some h).
Proof.
  split; [|split].
  - unfold find_pcb_by_pid, queued. intros h.
    destruct (List.find _ (option_list (proceso_actual s))) as [h0|] eqn:H0.
    { intros [= ->]. apply find_Some_elem in H0 as [Hin Hp].
      split; [|now apply pcb_has_pid_true]. left.
      destruct (proceso_actual s) as [h1|]; simpl in Hin.
      - apply list_elem_of_singleton in Hin as ->. reflexivity.
      - apply elem_of_nil in Hin. contradiction. }
    destruct (List.find _ (cola_listos s)) as [h1|] eqn:H1.
    { intros [= ->]. apply find_Some_elem in H1 as [Hin Hp].
      split; [auto | now apply pcb_has_pid_true]. }
    destruct (List.find _ (cola_bloqueados s)) as [h2|] eqn:H2.
    { intros [= ->]. apply find_Some_elem in H2 as [Hin Hp].
      split; [auto | now apply pcb_has_pid_true]. }
    intros H3. apply find_Some_elem in H3 as [Hin Hp].
    split; [auto | now apply pcb_has_pid_true].
  - apply find_pcb_by_pid_None_iff.
  - unfold find_pcb_by_pid. intros h Ha Hp. rewrite Ha. simpl. now rewrite Hp.
Qed.

Lemma find_option_list_None s p :
  (forall h, queued s h -> pcb_has_pid s p h = false) ->
  List.find (pcb_has_pid s p) (option_list (proceso_actual s)) = None.
Proof.
  intros H. apply find_None_iff. intros h Hh. apply H. left.
  destruct (proceso_actual s) as [h1|]; simpl in Hh.
  - apply list_elem_of_singleton in Hh as ->. reflexivity.
  - apply elem_of_nil in Hh. contradiction.
Qed.

(** X6.  An unknown PID is logged, not raised: when no held process has
    the PID, [forzar_terminacion], [suspender_proceso] and
    [reanudar_proceso] return normally and change nothing but the log, to
    which each appends its own line. *)
Theorem unknown_pid_only_logged (s : SimuladorOS) (p : Z) :
  find_pcb_by_pid s p = None ->
  forzar_terminacion p s
    = (Ok tt, set_log_events (log_events s ++ [(ticks s, EvNoEncontradoTerminar)]) s) /\
  suspender_proceso p s
    = (Ok tt, set_log_events (log_events s ++ [(ticks s, EvNoSuspender)]) s) /\
  reanudar_proceso p s
    = (Ok tt, set_log_events (log_events s ++ [(ticks s, EvNoReanudar)]) s).
Proof.
  intros Hnone. rewrite find_pcb_by_pid_None_iff in Hnone.
  assert (Ha : List.find (pcb_has_pid s p) (option_list (proceso_actual s)) = None)
    by now apply find_option_list_None.
  assert (Hl : List.find (pcb_has_pid s p) (cola_listos s) = None).
  { apply find_None_iff. intros h Hh. apply Hnone. unfold queued. auto. }
  assert (Hb : List.find (pcb_has_pid s p) (cola_bloqueados s) = None).
  { apply find_None_iff. intros h Hh. apply Hnone. unfold queued. auto. }
  unfold forzar_terminacion, suspender_proceso, reanudar_proceso.
  rewrite !get_bind, Ha, Hl, Hb. repeat split.
Qed.

Lemma unknown_pid_only_logged_witness :
  forzar_terminacion 9 (two_frame_state "FIFO")
    = (Ok tt, set_log_events (log_events (two_frame_state "FIFO")
                               ++ [(ticks (two_frame_state "FIFO"), EvNoEncontradoTerminar)])
                             (two_frame_state "FIFO")) /\
  suspender_proceso 9 (two_frame_state "FIFO")
    = (Ok tt, set_log_events (log_events (two_frame_state "FIFO")
                               ++ [(ticks (two_frame_state "FIFO"), EvNoSuspender)])
                             (two_frame_state "FIFO")) /\
  reanudar_proceso 9 (two_frame_state "FIFO")
    = (Ok tt, set_log_events (log_events (two_frame_state "FIFO")
                               ++ [(ticks (two_frame_state "FIFO"), EvNoReanudar)])
                             (two_frame_state "FIFO")).
Proof.
  apply (unknown_pid_only_logged (two_frame_state "FIFO") 9). vm_compute. reflexivity.
Defined.

(** An update of a [PCB] that leaves its page table alone. *)
Lemma update_pcb_keeps_page_tables h f :
  (forall c, tabla_paginas (f c) = tabla_paginas c) -> keeps page_tables (update_pcb h f).
Proof.
  intros Hf s. destruct (pcbs s !! h) as [c|] eqn:Hc.
  - rewrite (update_pcb_ok h f c s Hc). unfold page_tables. cbn [snd]. proj_simpl.
    rewrite list_fmap_insert, Hf. apply list_insert_id. now rewrite list_lookup_fmap, Hc.
  - unfold update_pcb. erewrite bind_raise; [reflexivity|].
    unfold deref. rewrite get_bind, Hc. reflexivity.
Qed.
#[local] Hint Extern 1 (keeps page_tables (update_pcb _ _)) =>
  apply update_pcb_keeps_page_tables; intro; reflexivity : keeps.

(** X7.  Suspending, resuming and dispatching are queue movements only:
    [suspender_proceso], [reanudar_proceso] and [planificar] leave the
    frames, the swap, the free queues, the replacement state, the TLB, the
    counters, the clocks and every page table as they were. *)
Theorem queue_operations_keep_memory :
  (forall p, keeps memory_view (suspender_proceso p) /\
             keeps page_tables (suspender_proceso p)) /\
  (forall p, keeps memory_view (reanudar_proceso p) /\
             keeps page_tables (reanudar_proceso p)) /\
  keeps memory_view planificar /\ keeps page_tables planificar.
Proof.
  split; [intros p; split; keeps_auto|].
  split; [intros p; split; keeps_auto|].
  split; keeps_auto.
Qed.

Lemma find_ext_on {A} (f g : A -> bool) (l : list A) :
  (forall x, f x = g x) -> List.find f l = List.find g l.
Proof. intros H. induction l as [|y l IH]; simpl; [reflexivity|]. now rewrite H, IH. Qed.

Lemma find_snoc_first {A} (f : A -> bool) (l : list A) (x : A) :
  List.find f l = None -> f x = true -> List.find f (l ++ [x]) = Some x.
Proof.
  induction l as [|y l IH]; simpl; intros Hn Hx.
  - now rewrite Hx.
  - destruct (f y); [discriminate | auto].
Qed.

Lemma remove_first_handle_snoc (h : handle) (l : list handle) :
  h ∉ l -> remove_first_handle h (l ++ [h]) = l.
Proof.
  induction l as [|y l IH]; simpl; intros Hn.
  - now rewrite Nat.eqb_refl.
  - apply not_elem_of_cons in Hn as [Hne Hn].
    destruct (Nat.eqb h y) eqn:Heq; [apply Nat.eqb_eq in Heq; contradiction|].
    now rewrite IH.
Qed.

Lemma pcb_has_pid_insert s s' p h c c' :
  pcbs s !! h = Some c -> pcbs s' = <[h := c']> (pcbs s) -> pid c' = pid c ->
  forall x, pcb_has_pid s' p x = pcb_has_pid s p x.
Proof.
  intros Hc Hs' Hpid x. unfold pcb_has_pid. rewrite Hs'.
  destruct (decide (h = x)) as [<-|Hne].
  - rewrite list_lookup_insert_eq by (eapply lookup_lt_Some; exact Hc).
    now rewrite Hc, Hpid.
  - now rewrite list_lookup_insert_ne.
Qed.

(** X8.  Suspending a ready process and resuming it at once: when the PID
    is not the running process's, [h] is the first ready process with it
    and no waiting process has it, both calls return normally; the process
    is again [LISTO], now at the tail of the ready queue; the waiting
    queue, the running process, the terminated set and the memory side are
    as before, and no other [PCB] has changed. *)
Theorem suspend_then_resume_ready (s : SimuladorOS) (p : Z) (h : handle) (c : PCB) :
  List.find (pcb_has_pid s p) (option_list (proceso_actual s)) = None ->
  List.find (pcb_has_pid s p) (cola_listos s) = Some h ->
  List.find (pcb_has_pid s p) (cola_bloqueados s) = None ->
  pcbs s !! h = Some c ->
  exists s1 s2,
    suspender_proceso p s = (Ok tt, s1) /\
    reanudar_proceso p s1 = (Ok tt, s2) /\
    cola_listos s2 = remove_first_handle h (cola_listos s) ++ [h] /\
    cola_bloqueados s2 = cola_bloqueados s /\
    proceso_actual s2 = proceso_actual s /\
    procesos_terminados s2 = procesos_terminados s /\
    pcbs s2 = <[h := set_estado LISTO c]> (pcbs s) /\
    memory_view s2 = memory_view s.
Proof.
  intros Ha Hl Hb Hc.
  assert (Hlt : (h < length (pcbs s))%nat) by (eapply lookup_lt_Some; exact Hc).
  destruct (find_Some_elem _ _ _ Hl) as [_ Hp].
  assert (Hnb : h ∉ cola_bloqueados s).
  { intros Hin. rewrite find_None_iff in Hb. rewrite (Hb h Hin) in Hp. discriminate. }
  eexists _, _. split.
  { unfold suspender_proceso. rewrite get_bind, Ha, Hl, modify_bind.
    erewrite bind_ok by (apply update_pcb_ok; proj_simpl; exact Hc).
    rewrite modify_bind. reflexivity. }
  split.
  { unfold reanudar_proceso. rewrite get_bind. proj_simpl.
    erewrite (find_ext_on (pcb_has_pid _ p) (pcb_has_pid s p)).
    2:{ eapply pcb_has_pid_insert; [exact Hc | reflexivity | reflexivity]. }
    rewrite (find_snoc_first _ _ _ Hb Hp), modify_bind.
    erewrite bind_ok.
    2:{ apply update_pcb_ok. proj_simpl. apply list_lookup_insert_eq. exact Hlt. }
    rewrite modify_bind. reflexivity. }
  proj_simpl. rewrite remove_first_handle_snoc by exact Hnb.
  rewrite list_insert_insert_eq. repeat split.
Qed.

(** The only process of [two_frame_state], suspended and resumed. *)
Lemma suspend_then_resume_ready_witness :
  exists s1 s2,
    suspender_proceso 1 (two_frame_state "FIFO") = (Ok tt, s1) /\
    reanudar_proceso 1 s1 = (Ok tt, s2) /\
    cola_listos s2 = [0%nat] /\
    cola_bloqueados s2 = [] /\
    memory_view s2 = memory_view (two_frame_state "FIFO").
Proof.
  destruct (suspend_then_resume_ready (two_frame_state "FIFO") 1 0%nat
              (mkPCB 1 "A" 512 1 5 5 LISTO 2
                     [mkPTE true (Some 0) None 0; mkPTE true (Some 1) None 1] ""))
    as (s1 & s2 & H1 & H2 & H3 & H4 & _ & _ & _ & H8);
    try (vm_compute; reflexivity).
  exists s1, s2. exact (conj H1 (conj H2 (conj H3 (conj H4 H8)))).
Defined.

(** ** Relations every operation respects *)

Section Evolves.
Context (R : SimuladorOS -> SimuladorOS -> Prop) (Hrefl : Reflexive R) (Htrans : Transitive R).

Lemma evolves_ret {A} (a : A) : evolves R (ret a).
Proof. intros s. simpl. reflexivity. Qed.

Lemma evolves_raise {A} e : evolves R (@raise A e).
Proof. intros s. simpl. reflexivity. Qed.

Lemma evolves_get : evolves R get.
Proof. intros s. simpl. reflexivity. Qed.

Lemma evolves_modify (g : SimuladorOS -> SimuladorOS) :
  (forall s, R s (g s)) -> evolves R (modify g).
Proof. intros H s. apply H. Qed.

Lemma evolves_bind {A B} (m : M A) (k : A -> M B) :
  evolves R m -> (forall a, evolves R (k a)) -> evolves R (bind m k).
Proof.
  intros Hm Hk s. unfold bind. specialize (Hm s).
  destruct (m s) as [[a|e] s1]; simpl in *.
  - etransitivity; [exact Hm | apply Hk].
  - exact Hm.
Qed.

Lemma evolves_for_each {A} (xs : list A) (body : A -> M unit) :
  (forall x, evolves R (body x)) -> evolves R (for_each xs body).
Proof.
  intros H. induction xs as [|x xs IH]; simpl.
  - apply evolves_ret.
  - apply evolves_bind; auto.
Qed.

End Evolves.

(** One step of a proof that a method respects a relation; [tac] closes
    the goals about single assignments. *)
Ltac evolves_step tac :=
  lazymatch goal with
  | |- evolves _ (bind _ _) => apply evolves_bind; [exact _ | | intro]
  | |- evolves _ (ret _) => apply evolves_ret; exact _
  | |- evolves _ (raise _) => apply evolves_raise; exact _
  | |- evolves _ get => apply evolves_get; exact _
  | |- evolves _ (modify _) =>
      first [ solve [auto with evolves] | apply evolves_modify; intro; tac ]
  | |- evolves _ (for_each _ _) => apply evolves_for_each; [exact _ | exact _ | intro]
  | |- evolves _ (match ?x with _ => _ end) => destruct x
  | |- evolves _ ?m => first [ solve [auto with evolves] | keeps_head m ]
  end.

Ltac evolves_auto tac := repeat (evolves_step tac).

Create HintDb evolves.

Lemma run_ops_evolves (R : SimuladorOS -> SimuladorOS -> Prop)
    (Hrefl : Reflexive R) (Htrans : Transitive R) :
  (forall o, evolves R (do_op o)) -> forall ops s, R s (run_ops ops s).
Proof.
  intros H ops. unfold run_ops. induction ops as [|o ops IH]; intros s; simpl.
  - reflexivity.
  - etransitivity; [apply H | apply IH].
Qed.

(** *** The configuration *)

Lemma do_op_keeps_config o : keeps config_view (do_op o).
Proof. destruct o; simpl; keeps_auto. Qed.

(** X9.  The configuration is fixed at construction: no driver operation,
    returning or raising, changes the sizes, the replacement policy, the
    TLB switch, the limits of random processes or the numbers of frames
    and slots; so after any script they are what the constructor set. *)
Theorem configuration_is_immutable :
  (forall o, keeps config_view (do_op o)) /\
  (forall ops s, config_view (run_ops ops s) = config_view s).
Proof.
  split; [exact do_op_keeps_config | apply run_ops_keeps; exact do_op_keeps_config].
Qed.

Lemma evolves_clock_sweep (R : SimuladorOS -> SimuladorOS -> Prop)
    (Hrefl : Reflexive R) (Htrans : Transitive R) :
  (forall r s, R s (set_ram r s)) -> (forall v s, R s (set_clock_pointer v s)) ->
  forall fuel n, evolves R (clock_sweep fuel n).
Proof.
  intros Hram Hcp fuel n. induction fuel as [|fuel IH]; simpl; evolves_auto ltac:(auto).
Qed.

(** *** Counters and the event log *)

#[local] Instance counters_le_refl : Reflexive counters_le.
Proof. intros s. unfold counters_le. lia. Qed.

#[local] Instance counters_le_trans : Transitive counters_le.
Proof. intros a b c. unfold counters_le. lia. Qed.

Ltac counters_tac := unfold counters_le; proj_simpl; lia.

#[local] Hint Extern 1 (evolves counters_le (clock_sweep _ _)) =>
  apply evolves_clock_sweep; [exact _ | exact _ | intros; counters_tac | intros; counters_tac]
  : evolves.

(** X10.  No counter ever goes down: across every driver operation,
    returning or raising, and so across every script, the tick counter,
    the access clock, the counters of accesses, faults, swap-ins and
    swap-outs and the next PID are at least what they were. *)
Theorem counters_never_decrease :
  (forall o, evolves counters_le (do_op o)) /\
  (forall ops s, counters_le s (run_ops ops s)).
Proof.
  assert (H : forall o, evolves counters_le (do_op o)).
  { intros o. destruct o; simpl; evolves_auto counters_tac. }
  split; [exact H | apply run_ops_evolves; [exact _ | exact _ | exact H]].
Qed.

#[local] Instance log_extended_refl : Reflexive log_extended.
Proof. intros s. unfold log_extended. reflexivity. Qed.

#[local] Instance log_extended_trans : Transitive log_extended.
Proof. intros a b c. unfold log_extended. apply transitivity. Qed.

Ltac log_tac :=
  unfold log_extended; proj_simpl; first [reflexivity | apply prefix_app_r; reflexivity].

#[local] Hint Extern 1 (evolves log_extended (clock_sweep _ _)) =>
  apply evolves_clock_sweep; [exact _ | exact _ | intros; log_tac | intros; log_tac]
  : evolves.

(** X11.  The event log is append-only: across every driver operation,
    returning or raising, and so across every script, the log before is a
    prefix of the log after. *)
Theorem log_is_append_only :
  (forall o, evolves log_extended (do_op o)) /\
  (forall ops s, log_events s `prefix_of` log_events (run_ops ops s)).
Proof.
  assert (H : forall o, evolves log_extended (do_op o)).
  { intros o. destruct o; simpl; evolves_auto log_tac. }
  split; [exact H|]. intros ops s.
  apply (run_ops_evolves log_extended _ _ H ops s).
Qed.

(** *** The sizes of the arrays *)

Lemma py_set_length {A} (l : list A) (i : Z) (x : A) (r : list A) :
  py_set l i x = Some r -> length r = length l.
Proof.
  unfold py_set. destruct (py_index l i); [|discriminate].
  intros [= <-]. apply length_insert.
Qed.

Lemma ram_set_keeps_sizes i v : keeps array_sizes (ram_set i v).
Proof.
  intros s. unfold ram_set. rewrite get_bind.
  destruct (py_set (ram s) i v) as [r|] eqn:Hset; [|reflexivity].
  simpl. unfold array_sizes. proj_simpl. now rewrite (py_set_length _ _ _ _ Hset).
Qed.

Lemma swap_set_keeps_sizes i v : keeps array_sizes (swap_set i v).
Proof.
  intros s. unfold swap_set. rewrite get_bind.
  destruct (py_set (swap s) i v) as [r|] eqn:Hset; [|reflexivity].
  simpl. unfold array_sizes. proj_simpl. now rewrite (py_set_length _ _ _ _ Hset).
Qed.
#[local] Hint Resolve ram_set_keeps_sizes swap_set_keeps_sizes : keeps.

Lemma clock_sweep_keeps_sizes fuel n : keeps array_sizes (clock_sweep fuel n).
Proof. induction fuel as [|fuel IH]; simpl; keeps_auto. Qed.
#[local] Hint Resolve clock_sweep_keeps_sizes : keeps.

Lemma do_op_keeps_sizes o : keeps array_sizes (do_op o).
Proof. destruct o; simpl; keeps_auto. Qed.

Lemma boot_sizes c s0 :
  boot c = Some s0 ->
  length (ram s0) = Z.to_nat (num_marcos_ram s0) /\
  length (swap s0) = Z.to_nat (num_marcos_swap s0).
Proof.
  unfold boot, init. destruct (cfg_page_kb c =? 0); [discriminate|].
  intros [= <-]. proj_simpl. now rewrite !length_replicate.
Qed.

(** The two arrays keep the sizes the constructor gave them. *)
Lemma reachable_sizes s :
  reachable s ->
  length (ram s) = Z.to_nat (num_marcos_ram s) /\
  length (swap s) = Z.to_nat (num_marcos_swap s).
Proof.
  intros (c & ops & Hrun). unfold run_script in Hrun.
  destruct (boot c) as [s0|] eqn:Hboot; [|discriminate]. injection Hrun as <-.
  pose proof (run_ops_keeps array_sizes do_op_keeps_sizes ops s0) as Hs.
  pose proof (run_ops_keeps config_view do_op_keeps_config ops s0) as Hc.
  destruct (boot_sizes c s0 Hboot) as [H1 H2].
  injection Hs as Hs1 Hs2. injection Hc as _ _ _ _ _ _ _ Hn Hm.
  rewrite Hs1, Hs2, Hn, Hm. auto.
Qed.

(** X12.  RAM and swap are arrays of fixed size: no driver operation,
    returning or raising, changes the number of frames or of slots, and in
    every reachable state they are [num_marcos_ram] and [num_marcos_swap]
    (none when the quotient is negative). *)
Theorem arrays_have_fixed_size :
  (forall o, keeps array_sizes (do_op o)) /\
  (forall s, reachable s ->
             length (ram s) = Z.to_nat (num_marcos_ram s) /\
             length (swap s) = Z.to_nat (num_marcos_swap s)).
Proof. split; [exact do_op_keeps_sizes | exact reachable_sizes]. Qed.

Lemma arrays_have_fixed_size_witness :
  length (ram stale_tlb_state) = Z.to_nat (num_marcos_ram stale_tlb_state) /\
  length (swap stale_tlb_state) = Z.to_nat (num_marcos_swap stale_tlb_state).
Proof.
  apply (proj2 arrays_have_fixed_size stale_tlb_state).
  exists stale_tlb_cfg, stale_tlb_script. vm_compute. reflexivity.
Defined.

(** *** Processes *)

#[local] Instance objects_persist_refl : Reflexive objects_persist.
Proof. intros s h c Hc. eauto. Qed.

#[local] Instance objects_persist_trans : Transitive objects_persist.
Proof.
  intros s1 s2 s3 H12 H23 h c Hc. destruct (H12 h c Hc) as (c2 & Hc2 & Hi2).
  destruct (H23 h c2 Hc2) as (c3 & Hc3 & Hi3). exists c3. split; [exact Hc3 | congruence].
Qed.

Lemma objects_persist_insert s s' h c c' :
  pcbs s !! h = Some c -> pcbs s' = <[h := c']> (pcbs s) -> identity c' = identity c ->
  objects_persist s s'.
Proof.
  intros Hc Hs' Hid h1 c1 H1. rewrite Hs'. destruct (decide (h = h1)) as [<-|Hne].
  - exists c'. rewrite list_lookup_insert_eq by (eapply lookup_lt_Some; exact Hc).
    assert (c1 = c) by congruence. subst c1. auto.
  - exists c1. rewrite list_lookup_insert_ne by exact Hne. auto.
Qed.

Lemma update_pcb_persist h f :
  (forall c, identity (f c) = identity c) -> evolves objects_persist (update_pcb h f).
Proof.
  intros Hf s. destruct (pcbs s !! h) as [c|] eqn:Hc.
  - rewrite (update_pcb_ok h f c s Hc). cbn [snd].
    eapply objects_persist_insert; [exact Hc | reflexivity | apply Hf].
  - unfold update_pcb.
    erewrite bind_raise by (unfold deref; rewrite get_bind, Hc; reflexivity).
    cbn [snd]. reflexivity.
Qed.

Lemma pte_update_persist h page f : evolves objects_persist (pte_update h page f).
Proof.
  intros s. destruct (pcbs s !! h) as [c|] eqn:Hc.
  - destruct (pt_get (tabla_paginas c) page) as [e|] eqn:He.
    + rewrite (pte_update_ok h page f c e s Hc He). cbn [snd].
      eapply objects_persist_insert; [exact Hc | reflexivity|].
      unfold identity. proj_simpl. now rewrite length_insert.
    + unfold pte_update. erewrite bind_ok by (apply deref_ok; exact Hc). rewrite He.
      cbn [snd raise]. reflexivity.
  - unfold pte_update.
    erewrite bind_raise by (unfold deref; rewrite get_bind, Hc; reflexivity).
    cbn [snd]. reflexivity.
Qed.
#[local] Hint Resolve pte_update_persist : evolves.
#[local] Hint Extern 1 (evolves objects_persist (update_pcb _ _)) =>
  apply update_pcb_persist; intro; reflexivity : evolves.

Ltac persist_tac :=
  unfold objects_persist; proj_simpl;
  let h := fresh in let c := fresh in let H := fresh in
  intros h c H;
  first [ solve [eauto]
        | exists c; split; [apply lookup_app_l_Some; exact H | reflexivity] ].

#[local] Hint Extern 1 (evolves objects_persist (clock_sweep _ _)) =>
  apply evolves_clock_sweep; [exact _ | exact _ | intros; persist_tac | intros; persist_tac]
  : evolves.

(** X13.  Processes are never forgotten and never change identity: across
    every driver operation, returning or raising, and so across every
    script, each [PCB] created so far is still there with the same PID,
    name, size, priority, total instruction count, page count and
    page-table size. *)
Theorem processes_keep_identity :
  (forall o, evolves objects_persist (do_op o)) /\
  (forall ops s, objects_persist s (run_ops ops s)).
Proof.
  assert (H : forall o, evolves objects_persist (do_op o)).
  { intros o. destruct o; simpl; evolves_auto persist_tac. }
  split; [exact H | apply run_ops_evolves; [exact _ | exact _ | exact H]].
Qed.

(** X14.  PIDs are assigned in creation order from 1 and never reused: in
    every reachable state the process created k-th has PID k, the next PID
    is one more than the number of processes created, and two different
    processes have different PIDs. *)
Theorem pids_follow_creation_order (s : SimuladorOS) :
  reachable s ->
  (forall h c, pcbs s !! h = Some c -> pid c = Z.of_nat h + 1) /\
  contador_pid s = Z.of_nat (length (pcbs s)) + 1 /\
  (forall h1 h2 c1 c2, pcbs s !! h1 = Some c1 -> pcbs s !! h2 = Some c2 ->
                       pid c1 = pid c2 -> h1 = h2).
Proof.
  intros Hr. destruct (reachable_registry_inv s Hr) as (HU & HN & _).
  split; [exact HU | split; [exact HN|]].
  intros h1 h2 c1 c2 H1 H2 Heq. pose proof (HU _ _ H1). pose proof (HU _ _ H2). lia.
Qed.

Lemma pids_follow_creation_order_witness :
  (forall h c, pcbs stale_tlb_state !! h = Some c -> pid c = Z.of_nat h + 1) /\
  contador_pid stale_tlb_state = Z.of_nat (length (pcbs stale_tlb_state)) + 1 /\
  (forall h1 h2 c1 c2, pcbs stale_tlb_state !! h1 = Some c1 ->
                       pcbs stale_tlb_state !! h2 = Some c2 ->
                       pid c1 = pid c2 -> h1 = h2).
Proof.
  apply (pids_follow_creation_order stale_tlb_state).
  exists stale_tlb_cfg, stale_tlb_script. vm_compute. reflexivity.
Defined.

(** X15.  The TLB only knows pages that exist: in every reachable state
    each key [(pid, page)] of the TLB names a process that was created and
    a page inside its page table. *)
Theorem tlb_keys_name_existing_pages (s : SimuladorOS) :
  reachable s ->
  forall t p page, tlb s = Some t -> (p, page) ∈ (entries t).*1 ->
    exists h c, pcbs s !! h = Some c /\ pid c = p /\
                0 <= page < Z.of_nat (length (tabla_paginas c)).
Proof.
  intros Hr t p page Ht Hk. destruct (reachable_registry_inv s Hr) as (_ & _ & HK).
  exact (HK t p page Ht Hk).
Qed.

Lemma tlb_keys_name_existing_pages_witness :
  exists h c, pcbs stale_tlb_state !! h = Some c /\ pid c = 1 /\
              0 <= 1 < Z.of_nat (length (tabla_paginas c)).
Proof.
  apply (tlb_keys_name_existing_pages stale_tlb_state)
    with (t := mkTLB 4 [((1, 0), Some 0); ((1, 1), Some 1)]).
  - exists stale_tlb_cfg, stale_tlb_script. vm_compute. reflexivity.
  - vm_compute. reflexivity.
  - simpl. right. left.
Defined.

(** ** Accesses, faults and swap-ins *)

(** A prefix that leaves an observation alone can be skipped. *)
Lemma keeps_then_evolves {V A B} (f : SimuladorOS -> V) (Rv : V -> V -> Prop)
    (m : M A) (k : A -> M B) :
  (forall v, Rv v v) ->
  keeps f m -> (forall a, evolves (on f Rv) (k a)) -> evolves (on f Rv) (bind m k).
Proof.
  intros Hrefl Hm Hk s. unfold on, bind. specialize (Hm s).
  destruct (m s) as [[a|e] s1]; simpl in *.
  - rewrite <- Hm. apply Hk.
  - rewrite Hm. apply Hrefl.
Qed.

Lemma keeps_evolves_on {V A} (f : SimuladorOS -> V) (Rv : V -> V -> Prop) (m : M A) :
  (forall v, Rv v v) -> keeps f m -> evolves (on f Rv) m.
Proof. intros Hrefl Hm s. unfold on. rewrite (Hm s). apply Hrefl. Qed.

Lemma swap_in_step_refl v : swap_in_step v v.
Proof. destruct v as [[a f] i]. simpl. lia. Qed.

Lemma fault_step_refl v : fault_step v v.
Proof. destruct v as [[a f] i]. simpl. lia. Qed.

Ltac skip_kept Hrefl :=
  repeat (apply keeps_then_evolves; [exact Hrefl | solve [keeps_auto] | intro]).

(** Bringing a page back from swap counts at most one swap-in. *)
Lemma swap_in_counts h page_index slot :
  evolves (on metrics swap_in_step) (swap_in h page_index slot).
Proof.
  unfold swap_in. skip_kept swap_in_step_refl.
  match goal with |- evolves _ (match ?x with _ => _ end) => destruct x end.
  2:{ apply keeps_evolves_on; [exact swap_in_step_refl | keeps_auto]. }
  skip_kept swap_in_step_refl.
  intros s. unfold on. rewrite modify_bind.
  match goal with |- context [bind ?m ?k ?st] =>
    assert (Hk : keeps metrics (bind m k)) by keeps_auto; rewrite (Hk st) end.
  unfold metrics, swap_in_step. cbn [snd]. proj_simpl. lia.
Qed.

(** After its increments, [access_page] counts at most one fault. *)
Lemma access_page_counts h page_index s :
  total_accesos (snd (access_page h page_index s)) = total_accesos s + 1 /\
  0 <= swap_ins (snd (access_page h page_index s)) - swap_ins s /\
  swap_ins (snd (access_page h page_index s)) - swap_ins s
    <= total_fallos (snd (access_page h page_index s)) - total_fallos s /\
  total_fallos (snd (access_page h page_index s)) - total_fallos s <= 1.
Proof.
  unfold access_page. rewrite !modify_bind.
  match goal with |- context [bind ?m ?k ?st] =>
    assert (Hrest : evolves (on metrics fault_step) (bind m k));
    [|specialize (Hrest st); set (s' := snd (bind m k st)) in *; clearbody s';
      unfold on, metrics, fault_step in Hrest; proj_simpl in Hrest] end.
  { skip_kept fault_step_refl.
    match goal with |- evolves _ (if ?b then _ else _) => destruct b end.
    { apply keeps_evolves_on; [exact fault_step_refl | keeps_auto]. }
    skip_kept fault_step_refl.
    match goal with |- evolves _ (match ?x with _ => _ end) => destruct x as [entry|] end.
    2:{ apply keeps_evolves_on; [exact fault_step_refl | keeps_auto]. }
    destruct (present entry).
    { apply keeps_evolves_on; [exact fault_step_refl | keeps_auto]. }
    intros s0. unfold on. rewrite modify_bind.
    match goal with |- context [bind ?m ?k ?st] =>
      assert (Hk : evolves (on metrics swap_in_step) (bind m k));
      [|specialize (Hk st); set (s1 := snd (bind m k st)) in *; clearbody s1;
        unfold on, metrics, swap_in_step in Hk; proj_simpl in Hk;
        unfold metrics, fault_step; lia] end.
    skip_kept swap_in_step_refl.
    destruct (swap_slot entry).
    - apply swap_in_counts.
    - apply keeps_evolves_on; [exact swap_in_step_refl | keeps_auto]. }
  lia.
Qed.

(** X16.  One call of [access_page], returning or raising, counts exactly
    one access, at most one fault, and a swap-in only together with a
    fault. *)
Theorem access_counts_one_access_at_most_one_fault h page_index s :
  total_accesos (snd (access_page h page_index s)) = total_accesos s + 1 /\
  0 <= swap_ins (snd (access_page h page_index s)) - swap_ins s /\
  swap_ins (snd (access_page h page_index s)) - swap_ins s
    <= total_fallos (snd (access_page h page_index s)) - total_fallos s /\
  total_fallos (snd (access_page h page_index s)) - total_fallos s <= 1.
Proof. apply access_page_counts. Qed.

#[local] Instance keeps_ordered_refl : Reflexive keeps_ordered.
Proof. intros s H. exact H. Qed.

#[local] Instance keeps_ordered_trans : Transitive keeps_ordered.
Proof. intros a b c H1 H2 H. auto. Qed.

Lemma access_page_keeps_ordered h page_index : evolves keeps_ordered (access_page h page_index).
Proof.
  intros s. unfold keeps_ordered, metrics_ordered.
  pose proof (access_page_counts h page_index s). lia.
Qed.
#[local] Hint Resolve access_page_keeps_ordered : evolves.

Ltac ordered_tac := unfold keeps_ordered, metrics_ordered; proj_simpl; lia.

#[local] Hint Extern 1 (evolves keeps_ordered (clock_sweep _ _)) =>
  apply evolves_clock_sweep; [exact _ | exact _ | intros; ordered_tac | intros; ordered_tac]
  : evolves.

Lemma do_op_keeps_ordered o : evolves keeps_ordered (do_op o).
Proof. destruct o; simpl; evolves_auto ordered_tac. Qed.

(** X17.  In every reachable state the counters are ordered:
    [0 <= swap_ins <= total_fallos <= total_accesos]. *)
Theorem metrics_are_ordered (s : SimuladorOS) :
  reachable s ->
  0 <= swap_ins s /\ swap_ins s <= total_fallos s /\ total_fallos s <= total_accesos s.
Proof.
  intros (c & ops & Hrun). unfold run_script in Hrun.
  destruct (boot c) as [s0|] eqn:Hboot; [|discriminate]. injection Hrun as <-.
  apply (run_ops_evolves keeps_ordered _ _ do_op_keeps_ordered ops s0).
  revert Hboot. unfold boot, init. destruct (cfg_page_kb c =? 0); [discriminate|].
  intros [= <-]. unfold metrics_ordered. proj_simpl. lia.
Qed.

Lemma metrics_are_ordered_witness :
  0 <= swap_ins stale_tlb_state /\
  swap_ins stale_tlb_state <= total_fallos stale_tlb_state /\
  total_fallos stale_tlb_state <= total_accesos stale_tlb_state.
Proof.
  apply (metrics_are_ordered stale_tlb_state).
  exists stale_tlb_cfg, stale_tlb_script. vm_compute. reflexivity.
Defined.

(** ** The TLB and the CLOCK pointer in reachable states *)

#[local] Instance tlb_ok_refl : Reflexive tlb_ok.
Proof. intros s. split; auto. Qed.

#[local] Instance tlb_ok_trans : Transitive tlb_ok.
Proof. intros a b c [H1 H2] [H3 H4]. split; [congruence | auto]. Qed.

Lemma tlb_lookup_wf t p page :
  tlb_wf t ->
  tlb_wf (snd (tlb_lookup t p page)) /\ size (snd (tlb_lookup t p page)) = size t.
Proof.
  intros [Hnd Hcap]. unfold tlb_lookup.
  destruct (od_get (p, page) (entries t)) as [v|] eqn:Hget; simpl.
  - destruct (od_pop_NoDup (p, page) (entries t) Hnd) as [H1 H2].
    split; [|reflexivity]. split; simpl.
    + rewrite fmap_app. now apply NoDup_snoc_key.
    + rewrite length_app. simpl. pose proof (od_pop_length _ _ _ Hget). lia.
  - split; [split; assumption | reflexivity].
Qed.

Lemma tlb_lookup_size t p page : size (snd (tlb_lookup t p page)) = size t.
Proof. unfold tlb_lookup. now destruct (od_get (p, page) (entries t)). Qed.

Lemma tlb_add_size t p page fr t' : tlb_add t p page fr = Some t' -> size t' = size t.
Proof.
  unfold tlb_add. destruct (od_get (p, page) (entries t)); [intros [= <-]; reflexivity|].
  destruct (size t <=? Z.of_nat (length (entries t))).
  - destruct (entries t); [discriminate | intros [= <-]; reflexivity].
  - intros [= <-]. reflexivity.
Qed.

Lemma tlb_ok_set s t t' :
  tlb s = Some t -> size t' = size t -> (tlb_wf t -> tlb_wf t') ->
  tlb_ok s (set_tlb (Some t') s).
Proof.
  intros Ht Hsz Hwf. split; proj_simpl.
  - rewrite Ht. simpl. now rewrite Hsz.
  - intros H t0 [= <-]. apply Hwf. apply H. exact Ht.
Qed.

Lemma tlb_add_if_enabled_ok p page fr : evolves tlb_ok (tlb_add_if_enabled p page fr).
Proof.
  intros s. unfold tlb_add_if_enabled. rewrite get_bind.
  destruct (tlb s) as [t|] eqn:Ht; [|reflexivity].
  destruct (tlb_add t p page fr) as [t'|] eqn:Hadd; [|reflexivity].
  cbn [snd modify]. apply (tlb_ok_set s t t' Ht).
  - eapply tlb_add_size. exact Hadd.
  - intros Hwf. eapply tlb_add_wf; eassumption.
Qed.

Lemma tlb_invalidate_ok p :
  evolves tlb_ok
    (modify (fun s => set_tlb (option_map (fun t => tlb_invalidate_pid t p) (tlb s)) s)).
Proof.
  intros s. cbn [snd modify]. destruct (tlb s) as [t|] eqn:Ht; simpl.
  - apply (tlb_ok_set s t _ Ht); [reflexivity|].
    intros [Hnd Hcap]. unfold tlb_wf, tlb_invalidate_pid. simpl.
    assert (Hsub : sublist (List.filter (fun e => negb (fst (fst e) =? p)) (entries t))
                           (entries t)) by apply List_filter_sublist.
    split.
    + eapply sublist_NoDup; [exact Hnd|]. apply fmap_sublist. exact Hsub.
    + apply sublist_length in Hsub. lia.
  - split; proj_simpl; [now rewrite Ht | intros _ t0 [=]].
Qed.
#[local] Hint Resolve tlb_add_if_enabled_ok tlb_invalidate_ok : evolves.

Ltac tlb_tac := unfold tlb_ok; proj_simpl; split; [reflexivity | intros H; exact H].

#[local] Hint Extern 1 (evolves tlb_ok (clock_sweep _ _)) =>
  apply evolves_clock_sweep; [exact _ | exact _ | intros; tlb_tac | intros; tlb_tac]
  : evolves.

Lemma tlb_probe_ok h page_index : evolves tlb_ok (tlb_probe h page_index).
Proof.
  intros s. unfold tlb_probe. rewrite get_bind.
  destruct (tlb s) as [t|] eqn:Ht; [|reflexivity].
  destruct (pcbs s !! h) as [c|] eqn:Hc.
  - erewrite bind_ok by (apply deref_ok; exact Hc).
    destruct (tlb_lookup t (pid c) page_index) as [fr t'] eqn:Hl. rewrite modify_bind.
    match goal with |- tlb_ok s (snd (?m ?st)) =>
      assert (Hrest : evolves tlb_ok m) by evolves_auto tlb_tac;
      transitivity st; [|apply Hrest] end.
    apply (tlb_ok_set s t t' Ht).
    + pose proof (tlb_lookup_size t (pid c) page_index) as Hs. now rewrite Hl in Hs.
    + intros Hwf. pose proof (tlb_lookup_wf t (pid c) page_index Hwf) as [Hw _].
      now rewrite Hl in Hw.
  - erewrite bind_raise by (unfold deref; rewrite get_bind, Hc; reflexivity).
    cbn [snd]. reflexivity.
Qed.
#[local] Hint Resolve tlb_probe_ok : evolves.

Lemma do_op_tlb_ok o : evolves tlb_ok (do_op o).
Proof. destruct o; simpl; evolves_auto tlb_tac. Qed.

(** X18.  The TLB never exceeds its capacity: after any script on a
    simulator constructed with the TLB enabled and capacity [tlb_size],
    the TLB still has that capacity, its keys are pairwise different and
    it holds at most [max(0, tlb_size)] entries. *)
Theorem tlb_within_capacity (c : Config) (ops : list Op) (s : SimuladorOS) (t : TLB) :
  run_script c ops = Some s ->
  tlb s = Some t ->
  size t = cfg_tlb_size c /\
  NoDup (entries t).*1 /\
  Z.of_nat (length (entries t)) <= Z.max 0 (cfg_tlb_size c).
Proof.
  intros Hrun Ht. unfold run_script in Hrun.
  destruct (boot c) as [s0|] eqn:Hboot; [|discriminate]. injection Hrun as <-.
  destruct (run_ops_evolves tlb_ok _ _ do_op_tlb_ok ops s0) as [Hsz Hwf].
  revert Hboot. unfold boot, init. destruct (cfg_page_kb c =? 0); [discriminate|].
  intros [= <-]. proj_simpl in Hsz. proj_simpl in Hwf. rewrite Ht in Hsz.
  destruct (cfg_tlb_enabled c); [|discriminate]. simpl in Hsz. injection Hsz as Hsz.
  destruct (Hwf) with (t := t) as [Hnd Hcap]; [|exact Ht|].
  - intros t0 [= <-]. split; simpl; [constructor | lia].
  - rewrite <- Hsz. auto.
Qed.

Lemma tlb_within_capacity_witness :
  size (mkTLB 4 [((1, 0), Some 0); ((1, 1), Some 1)]) = cfg_tlb_size stale_tlb_cfg /\
  NoDup (entries (mkTLB 4 [((1, 0), Some 0); ((1, 1), Some 1)])).*1 /\
  Z.of_nat (length (entries (mkTLB 4 [((1, 0), Some 0); ((1, 1), Some 1)])))
    <= Z.max 0 (cfg_tlb_size stale_tlb_cfg).
Proof.
  apply (tlb_within_capacity stale_tlb_cfg stale_tlb_script stale_tlb_state).
  - vm_compute. reflexivity.
  - vm_compute. reflexivity.
Defined.

(** *** The CLOCK pointer *)

#[local] Instance keeps_pointer_refl : Reflexive keeps_pointer.
Proof. intros s. split; auto. Qed.

#[local] Instance keeps_pointer_trans : Transitive keeps_pointer.
Proof. intros a b c [H1 H2] [H3 H4]. split; [congruence | auto]. Qed.

Ltac pointer_tac :=
  unfold keeps_pointer, pointer_in_range; proj_simpl; split; [reflexivity | intros H; exact H].

Lemma pointer_set s v :
  keeps_pointer s (set_clock_pointer (v mod num_marcos_ram s) s).
Proof.
  split; proj_simpl; [reflexivity|]. intros _. unfold pointer_in_range. proj_simpl.
  intros Hn. apply Z.mod_pos_bound. exact Hn.
Qed.

(** Every assignment to the pointer is a remainder modulo the number of
    frames. *)
Lemma clock_sweep_pointer fuel : forall s,
  keeps_pointer s (snd (clock_sweep fuel (num_marcos_ram s) s)).
Proof.
  induction fuel as [|fuel IH]; intros s; simpl; rewrite get_bind; unfold py_mod;
    destruct (num_marcos_ram s =? 0) eqn:Hz; try reflexivity; rewrite !ret_bind.
  - rewrite modify_bind. cbn [snd ret]. apply pointer_set.
  - unfold bind at 1.
    assert (Hget : keeps (fun s => s) (ram_get (clock_pointer s mod num_marcos_ram s)))
      by (unfold ram_get; keeps_auto).
    specialize (Hget s). simpl in Hget.
    destruct (ram_get (clock_pointer s mod num_marcos_ram s) s) as [[f|e] s1];
      simpl in Hget; subst s1; [|reflexivity].
    destruct f as [c|].
    + destruct (negb (fr_referenced c)).
      * cbv iota. rewrite ret_bind, modify_bind. cbn [snd ret]. apply pointer_set.
      * cbv iota.
        destruct (py_set (ram s) (clock_pointer s mod num_marcos_ram s)
                    (Some (clear_referenced c))) as [r|] eqn:Hset.
        2:{ erewrite bind_raise by (unfold ram_set; rewrite get_bind, Hset; reflexivity).
            reflexivity. }
        erewrite bind_ok by (apply ram_set_ok; exact Hset).
        rewrite ret_bind, modify_bind.
        match goal with |- keeps_pointer s (snd (clock_sweep fuel _ ?st)) =>
          transitivity st;
            [|change (num_marcos_ram s) with (num_marcos_ram st) at 2; apply IH] end.
        transitivity (set_ram r s); [pointer_tac|].
        change (num_marcos_ram s) with (num_marcos_ram (set_ram r s)).
        apply pointer_set.
    + cbv iota. rewrite ret_bind, modify_bind. cbn [snd ret]. apply pointer_set.
Qed.

Lemma select_victim_frame_pointer : evolves keeps_pointer select_victim_frame.
Proof.
  intros s. unfold select_victim_frame. rewrite get_bind.
  assert (Hfifo : evolves keeps_pointer select_fifo)
    by (unfold select_fifo; evolves_auto pointer_tac).
  destruct (is_algo s "FIFO"); [apply Hfifo|].
  destruct (is_algo s "LRU"); [reflexivity|].
  destruct (is_algo s "CLOCK"); [apply clock_sweep_pointer | apply Hfifo].
Qed.
#[local] Hint Resolve select_victim_frame_pointer : evolves.

Lemma do_op_keeps_pointer o : evolves keeps_pointer (do_op o).
Proof. destruct o; simpl; evolves_auto pointer_tac. Qed.

(** X19.  The CLOCK pointer always names a frame: in every reachable
    state with at least one frame, [clock_pointer] lies in
    [0, num_marcos_ram) and [ram[clock_pointer]] exists. *)
Theorem clock_pointer_names_a_frame (s : SimuladorOS) :
  reachable s ->
  0 < num_marcos_ram s ->
  0 <= clock_pointer s < num_marcos_ram s /\
  exists f, py_get (ram s) (clock_pointer s) = Some f.
Proof.
  intros Hreach Hn. pose proof (reachable_sizes s Hreach) as [Hlen _].
  destruct Hreach as (c & ops & Hrun). unfold run_script in Hrun.
  destruct (boot c) as [s0|] eqn:Hboot; [|discriminate]. injection Hrun as <-.
  destruct (run_ops_evolves keeps_pointer _ _ do_op_keeps_pointer ops s0) as [Hnum Hptr].
  assert (Hr : 0 <= clock_pointer (run_ops ops s0) < num_marcos_ram (run_ops ops s0)).
  { apply Hptr; [|exact Hn]. revert Hboot. unfold boot, init.
    destruct (cfg_page_kb c =? 0); [discriminate|]. intros [= <-].
    unfold pointer_in_range. proj_simpl. lia. }
  split; [exact Hr|].
  rewrite py_get_in_range by lia. apply lookup_lt_is_Some_2. lia.
Qed.

Lemma clock_pointer_names_a_frame_witness :
  0 <= clock_pointer clock_state < num_marcos_ram clock_state /\
  exists f, py_get (ram clock_state) (clock_pointer clock_state) = Some f.
Proof.
  apply (clock_pointer_names_a_frame clock_state).
  - exists (two_frame_cfg "CLOCK"), clock_script. vm_compute. reflexivity.
  - vm_compute. reflexivity.
Defined.

(** ** Admission *)

Lemma place_page_in_frame_state h pagina f c e s :
  pcbs s !! h = Some c ->
  0 <= f < Z.of_nat (length (ram s)) ->
  pt_get (tabla_paginas c) pagina = Some e ->
  place_page_in_frame h pagina f s = (Ok tt, placed h pagina f c s).
Proof.
  intros Hc Hf He. unfold place_page_in_frame, placed.
  erewrite bind_ok by (apply deref_ok; exact Hc).
  rewrite get_bind.
  erewrite bind_ok by (apply ram_set_ok; apply py_set_in_range; exact Hf).
  erewrite bind_ok by (apply pte_update_ok; [exact Hc | exact He]).
  unfold when. destruct (is_algo s "FIFO"); reflexivity.
Qed.

Lemma placed_facts h pagina f c s :
  ram (placed h pagina f c s)
    = <[Z.to_nat f := Some (mkFrame (pid c) pagina (ticks s) (ticks s) true)]> (ram s) /\
  pcbs (placed h pagina f c s)
    = <[h := set_tabla_paginas
               (<[Z.to_nat pagina := mkPTE true (Some f) None (ticks s)]> (tabla_paginas c)) c]>
        (pcbs s) /\
  free_frames (placed h pagina f c s) = free_frames s /\
  free_path_view (placed h pagina f c s) = free_path_view s /\
  fifo_queue (placed h pagina f c s)
    = (if is_algo s "FIFO" then fifo_queue s ++ [f] else fifo_queue s).
Proof. unfold placed. destruct (is_algo s "FIFO"); repeat split. Qed.

Lemma pt_get_nat (t : list PTE) (k : nat) : pt_get t (Z.of_nat k) = t !! k.
Proof.
  unfold pt_get. destruct (Z.of_nat k <? 0) eqn:H; [apply Z.ltb_lt in H; lia|].
  now rewrite Nat2Z.id.
Qed.

(** The admission loop over pages [k, k + |fs|) when the free-frame queue
    starts with the frames [fs], with everything it does. *)
Lemma allocate_pages_resident h : forall (fs : list Z) (k : nat) rest c s,
  free_frames s = fs ++ rest ->
  pcbs s !! h = Some c ->
  (forall f, f ∈ fs -> 0 <= f < Z.of_nat (length (ram s))) ->
  (k + length fs <= length (tabla_paginas c))%nat ->
  exists s' c',
    for_each (seqZ (Z.of_nat k) (Z.of_nat (length fs))) (allocate_page h) s = (Ok tt, s') /\
    free_frames s' = rest /\
    free_path_view s' = free_path_view s /\
    fifo_queue s' = (if is_algo s "FIFO" then fifo_queue s ++ fs else fifo_queue s) /\
    pcbs s' = <[h := c']> (pcbs s) /\
    set_tabla_paginas [] c' = set_tabla_paginas [] c /\
    length (tabla_paginas c') = length (tabla_paginas c) /\
    (forall i, (i < k)%nat -> tabla_paginas c' !! i = tabla_paginas c !! i) /\
    (forall i f, fs !! i = Some f ->
                 tabla_paginas c' !! (k + i)%nat = Some (mkPTE true (Some f) None (ticks s))) /\
    (NoDup fs -> forall i f, fs !! i = Some f ->
       ram s' !! Z.to_nat f
       = Some (Some (mkFrame (pid c) (Z.of_nat (k + i)) (ticks s) (ticks s) true))) /\
    (forall i, Z.of_nat i ∉ fs -> ram s' !! i = ram s !! i).
Proof.
  induction fs as [|f fs IH]; intros k rest c s Hfree Hc Hrange Hlen.
  - exists s, c. simpl in *. destruct (is_algo s "FIFO"); rewrite ?app_nil_r;
      (repeat split; auto;
       [ symmetry; apply list_insert_id; exact Hc
       | intros i f Hi; rewrite lookup_nil in Hi; discriminate
       | intros _ i f Hi; rewrite lookup_nil in Hi; discriminate ]).
  - simpl length in *. rewrite Nat2Z.inj_succ. rewrite seqZ_cons by lia.
    rewrite Z.pred_succ. simpl for_each.
    assert (Hlt : (h < length (pcbs s))%nat) by (eapply lookup_lt_Some; exact Hc).
    assert (Hf : 0 <= f < Z.of_nat (length (ram s))) by (apply Hrange; left).
    destruct (lookup_lt_is_Some_2 (tabla_paginas c) k) as [e He]; [lia|].
    set (s0 := set_free_frames (fs ++ rest) s).
    assert (Hrun1 : allocate_page h (Z.of_nat k) s = (Ok tt, placed h (Z.of_nat k) f c s0)).
    { unfold allocate_page. simpl in Hfree. rewrite get_bind, Hfree, modify_bind.
      apply place_page_in_frame_state with (e := e);
        [exact Hc | exact Hf | rewrite pt_get_nat; exact He]. }
    destruct (placed_facts h (Z.of_nat k) f c s0) as (Hram1 & Hpcbs1 & Hfree1 & Hview1 & Hfifo1).
    set (s1 := placed h (Z.of_nat k) f c s0) in *.
    subst s0. proj_simpl in Hram1. proj_simpl in Hpcbs1. proj_simpl in Hfree1.
    unfold is_algo in Hfifo1. proj_simpl in Hfifo1. fold (is_algo s "FIFO") in Hfifo1.
    change (free_path_view s1 = free_path_view s) in Hview1.
    rewrite Nat2Z.id in Hpcbs1.
    set (c1 := set_tabla_paginas
                 (<[k := mkPTE true (Some f) None (ticks s)]> (tabla_paginas c)) c) in *.
    assert (Hc1 : pcbs s1 !! h = Some c1).
    { rewrite Hpcbs1. apply list_lookup_insert_eq. exact Hlt. }
    assert (Hlen1 : length (ram s1) = length (ram s)).
    { rewrite Hram1. apply length_insert. }
    assert (Hticks : ticks s1 = ticks s) by (unfold free_path_view, admission_untouched in Hview1; congruence).
    assert (Halgo : is_algo s1 "FIFO" = is_algo s "FIFO").
    { unfold is_algo. unfold free_path_view in Hview1. congruence. }
    destruct (IH (S k) rest c1 s1) as
      (s' & c' & Hrun & Hfree' & Hview' & Hfifo' & Hpcbs' & Hrest' & Htl & Hlow & Hres & Hocc & Hout);
      try assumption.
    { intros g Hg. rewrite Hlen1. apply Hrange. now right. }
    { subst c1. proj_simpl. rewrite length_insert. lia. }
    exists s', c'. erewrite bind_ok by exact Hrun1.
    replace (Z.succ (Z.of_nat k)) with (Z.of_nat (S k)) by lia.
    split; [exact Hrun|]. split; [exact Hfree'|]. split; [congruence|].
    split.
    { rewrite Hfifo', Halgo, Hfifo1. destruct (is_algo s "FIFO"); [|reflexivity].
      now rewrite <- app_assoc. }
    split.
    { rewrite Hpcbs', Hpcbs1. apply list_insert_insert_eq. }
    split; [rewrite Hrest'; reflexivity|].
    split.
    { rewrite Htl. subst c1. proj_simpl. apply length_insert. }
    split.
    { intros i Hi. rewrite Hlow by lia. subst c1. proj_simpl.
      apply list_lookup_insert_ne. lia. }
    split.
    { intros [|i] g Hi; simpl in Hi.
      - injection Hi as <-. rewrite Nat.add_0_r, Hlow by lia. subst c1. proj_simpl.
        apply list_lookup_insert_eq. lia.
      - replace (k + S i)%nat with (S k + i)%nat by lia. rewrite Hres with (f := g) by exact Hi.
        now rewrite Hticks. }
    split.
    { intros Hnd. apply NoDup_cons in Hnd as [Hnin Hnd]. intros [|i] g Hi; simpl in Hi.
      - injection Hi as <-. rewrite Hout by (rewrite Z2Nat.id by lia; exact Hnin).
        rewrite Hram1, Nat.add_0_r. apply list_lookup_insert_eq. lia.
      - rewrite (Hocc Hnd i g Hi). rewrite Hticks. subst c1. proj_simpl.
        replace (S k + i)%nat with (k + S i)%nat by lia. reflexivity. }
    { intros i Hi. rewrite not_elem_of_cons in Hi. destruct Hi as [Hne Hnin].
      rewrite Hout by exact Hnin. rewrite Hram1. apply list_lookup_insert_ne. lia. }
Qed.

(** X20.  Admission into free frames.  Take a size and a page size of at
    most 53 bits, for which the page count is the exact ceiling of the
    quotient.  When the free-frame queue holds at
    least as many frames as the new process has pages, and the frames at
    its head exist and are pairwise different, [crear_proceso] succeeds and
    returns the new object, which has the next PID, is [LISTO] and is
    appended to the ready queue; page [i] is resident in the [i]-th frame of
    the queue, stamped with the current tick, and that frame records the PID
    and the page; those frames leave the free queue and, under FIFO, join
    the FIFO queue in the same order; no other frame changes, and the swap,
    its free queue, the TLB, the CLOCK pointer, the counters, the clocks
    and the other queues are untouched. *)
Theorem admission_into_free_frames (s : SimuladorOS) nom tam_kb prio instr :
  0 <= tam_kb < 2 ^ 53 ->
  0 < page_kb s < 2 ^ 53 ->
  (page_count s tam_kb <= length (free_frames s))%nat ->
  NoDup (take (page_count s tam_kb) (free_frames s)) ->
  (forall f, f ∈ take (page_count s tam_kb) (free_frames s) ->
             0 <= f < Z.of_nat (length (ram s))) ->
  exists s1 c1,
    crear_proceso nom tam_kb prio instr s = (Ok (length (pcbs s)), s1) /\
    pcbs s1 = pcbs s ++ [c1] /\
    set_tabla_paginas [] c1 = set_tabla_paginas [] (fresh_PCB s nom tam_kb prio instr) /\
    length (tabla_paginas c1) = page_count s tam_kb /\
    cola_listos s1 = cola_listos s ++ [length (pcbs s)] /\
    contador_pid s1 = contador_pid s + 1 /\
    free_frames s1 = drop (page_count s tam_kb) (free_frames s) /\
    fifo_queue s1 = (if is_algo s "FIFO"
                     then fifo_queue s ++ take (page_count s tam_kb) (free_frames s)
                     else fifo_queue s) /\
    (forall i f, take (page_count s tam_kb) (free_frames s) !! i = Some f ->
       tabla_paginas c1 !! i = Some (mkPTE true (Some f) None (ticks s)) /\
       ram s1 !! Z.to_nat f
       = Some (Some (mkFrame (contador_pid s) (Z.of_nat i) (ticks s) (ticks s) true))) /\
    (forall i, Z.of_nat i ∉ take (page_count s tam_kb) (free_frames s) ->
               ram s1 !! i = ram s !! i) /\
    admission_untouched s1 = admission_untouched s.
Proof.
  intros Htam Hpage Hfit Hnd Hrange.
  assert (Hpk : page_kb s <> 0) by lia.
  pose proof (page_count_exact s tam_kb Htam Hpage) as Hex.
  set (P := page_count s tam_kb) in *.
  set (fs := take P (free_frames s)) in *. set (rest := drop P (free_frames s)).
  set (h := length (pcbs s)).
  set (sb := before_allocation s nom tam_kb prio instr).
  set (c0 := fresh_PCB s nom tam_kb prio instr).
  assert (Hfs : length fs = P) by (subst fs; rewrite length_take; lia).
  assert (Hsplit : free_frames s = fs ++ rest) by (symmetry; apply take_drop).
  assert (Hc0 : pcbs sb !! h = Some c0).
  { subst sb. rewrite pcbs_before_allocation. apply list_lookup_middle. reflexivity. }
  assert (Hc0len : length (tabla_paginas c0) = P).
  { subst c0. unfold fresh_PCB. proj_simpl. apply length_replicate. }
  destruct (allocate_pages_resident h fs 0 rest c0 sb) as
    (s1 & c1 & Hrun1 & Hfree1 & Hview1 & Hfifo1 & Hpcbs1 & Hrest1 & Htl1 & _ & Hres1 & Hocc1 & Hout1).
  { exact Hsplit. }
  { exact Hc0. }
  { intros f Hf. apply Hrange. exact Hf. }
  { rewrite Hc0len. lia. }
  exists s1, c1.
  split.
  { rewrite crear_proceso_prefix by assumption. fold h sb.
    erewrite bind_ok; [reflexivity|].
    unfold allocate_pages_for_process.
    erewrite bind_ok by (apply deref_ok; exact Hc0).
    subst c0. unfold fresh_PCB at 1. proj_simpl.
    rewrite py_range_to_nat. fold (page_count s tam_kb). fold P. rewrite <- Hfs. exact Hrun1. }
  split.
  { rewrite Hpcbs1. subst sb. rewrite pcbs_before_allocation. fold c0.
    replace h with (length (pcbs s) + 0)%nat by (subst h; lia).
    rewrite insert_app_r. reflexivity. }
  split; [exact Hrest1|].
  split; [congruence|].
  unfold free_path_view in Hview1.
  split; [change (cola_listos s ++ [h]) with (cola_listos sb); congruence|].
  split; [change (contador_pid s + 1) with (contador_pid sb); congruence|].
  split; [exact Hfree1|].
  split; [exact Hfifo1|].
  split.
  { intros i f Hi. split.
    - exact (Hres1 i f Hi).
    - exact (Hocc1 Hnd i f Hi). }
  split; [exact Hout1|].
  change (admission_untouched s) with (admission_untouched sb). congruence.
Qed.

Lemma admission_into_free_frames_witness :
  exists s1 c1,
    crear_proceso "A" 512 1 5 (state_after (two_frame_cfg "FIFO") []) = (Ok 0%nat, s1) /\
    pcbs s1 = [c1] /\ free_frames s1 = [] /\ fifo_queue s1 = [0; 1].
Proof.
  destruct (admission_into_free_frames (state_after (two_frame_cfg "FIFO") []) "A" 512 1 5)
    as (s1 & c1 & H1 & H2 & _ & _ & _ & _ & H3 & H4 & _).
  - lia.
  - vm_compute. split; reflexivity.
  - vm_compute. lia.
  - apply (bool_decide_unpack _). vm_compute. exact I.
  - intros f Hf. vm_compute in Hf.
    replace (length (ram (state_after (two_frame_cfg "FIFO") []))) with 2%nat
      by (vm_compute; reflexivity).
    apply elem_of_cons in Hf as [-> | Hf]; [lia|].
    apply elem_of_cons in Hf as [-> | Hf]; [lia|].
    apply elem_of_nil in Hf. contradiction.
  - exists s1, c1. auto.
Defined.

(** *** When no frame can be taken *)

Lemma yields_bind {A B} (P : B -> Prop) (m : M A) (k : A -> M B) :
  (forall a, yields P (k a)) -> yields P (bind m k).
Proof.
  intros H s b. unfold bind. destruct (m s) as [[a|e] s1]; simpl; [apply H | discriminate].
Qed.

Lemma yields_ret {A} (P : A -> Prop) (a : A) : P a -> yields P (ret a).
Proof. intros H s b [= <-]. exact H. Qed.

Lemma yields_raise {A} (P : A -> Prop) e : yields P (@raise A e).
Proof. intros s b [=]. Qed.

(** The CLOCK sweep returns a frame or raises; it never reports that there
    is no victim. *)
Lemma clock_sweep_yields_frame fuel n : yields (fun r => r <> None) (clock_sweep fuel n).
Proof.
  induction fuel as [|fuel IH]; simpl;
    repeat first [ apply yields_bind; intro
                 | apply yields_ret; discriminate
                 | exact IH
                 | match goal with |- yields _ (match ?x with _ => _ end) => destruct x end ].
Qed.

Lemma select_lru_None (fs : list (option Frame)) :
  select_lru fs = None <-> forall i f, fs !! i <> Some (Some f).
Proof.
  split.
  - intros Hsel i f Hi.
    destruct (select_lru_spec fs) as (v & fv & Hv & _); [eauto|]. congruence.
  - intros Hno. unfold select_lru. pose proof (lru_loop_inv fs 0 None) as H.
    destruct (lru_loop 0 fs None) as [[v t]|]; [|reflexivity].
    destruct H as [[Heq _] | (k & fk & _ & Hk & _)]; [discriminate|].
    exfalso. exact (Hno k fk Hk).
Qed.

Lemma select_victim_none (s : SimuladorOS) :
  no_victim s -> select_victim_frame s = (Ok None, s).
Proof.
  intros [[Halgo Hno] | (Hlru & Hclock & Hq)].
  - rewrite select_victim_frame_lru by exact Halgo.
    apply select_lru_None in Hno. now rewrite Hno.
  - unfold select_victim_frame, is_algo. rewrite get_bind.
    apply String.eqb_neq in Hlru, Hclock. rewrite Hlru, Hclock.
    assert (Hfifo : select_fifo s = (Ok None, s))
      by (unfold select_fifo; rewrite get_bind, Hq; reflexivity).
    destruct (replacement_algo s =? "FIFO")%string; exact Hfifo.
Qed.

(** X21.  [select_victim_frame] reports that there is no victim exactly
    when the policy is LRU and no frame is occupied, or the policy is
    neither LRU nor CLOCK and the FIFO queue is empty; under CLOCK it never
    does (it returns a frame or raises). *)
Theorem select_victim_none_iff (s : SimuladorOS) :
  fst (select_victim_frame s) = Ok None <-> no_victim s.
Proof.
  split; [|intros H; now rewrite select_victim_none].
  unfold select_victim_frame, is_algo, no_victim. rewrite get_bind.
  assert (Hfifo : fst (select_fifo s) = Ok None -> fifo_queue s = []).
  { rewrite select_fifo_effect. simpl. intros [= H].
    destruct (fifo_queue s); [reflexivity | discriminate]. }
  destruct (replacement_algo s =? "FIFO")%string eqn:H1.
  { apply String.eqb_eq in H1. intros H. right. rewrite H1.
    split; [discriminate|]. split; [discriminate | auto]. }
  destruct (replacement_algo s =? "LRU")%string eqn:H2.
  { apply String.eqb_eq in H2. simpl. intros [= H]. left.
    split; [exact H2 | apply select_lru_None; exact H]. }
  apply String.eqb_neq in H2.
  destruct (replacement_algo s =? "CLOCK")%string eqn:H3.
  { intros H. exfalso. exact (clock_sweep_yields_frame _ _ _ _ H eq_refl). }
  apply String.eqb_neq in H3. intros H. right. auto.
Qed.

(** *** Admission when no frame is free and none can be taken *)

Lemma allocate_page_stored h pagina slot rest c e s :
  free_frames s = [] -> no_victim s -> free_swap_slots s = slot :: rest ->
  pcbs s !! h = Some c -> pt_get (tabla_paginas c) pagina = Some e ->
  0 <= slot < Z.of_nat (length (swap s)) ->
  allocate_page h pagina s = (Ok tt, stored h pagina slot c e rest s).
Proof.
  intros Hfree Hnv Hslots Hc He Hslot. unfold allocate_page. rewrite get_bind, Hfree.
  erewrite bind_ok by (apply select_victim_none; exact Hnv).
  cbv beta iota. rewrite get_bind, Hslots, modify_bind.
  erewrite bind_ok by (apply deref_ok; exact Hc).
  erewrite bind_ok by (apply pte_update_ok; [exact Hc | exact He]).
  erewrite bind_ok by (apply swap_set_ok; apply py_set_in_range; exact Hslot).
  rewrite log_bind. unfold modify, stored. proj_simpl. reflexivity.
Qed.

Lemma allocate_page_nowhere h pagina c s :
  free_frames s = [] -> no_victim s -> free_swap_slots s = [] -> pcbs s !! h = Some c ->
  allocate_page h pagina s
  = (Ok tt, set_log_events (log_events s ++ [(ticks s, EvSinEspacio pagina (pid c))]) s).
Proof.
  intros Hfree Hnv Hslots Hc. unfold allocate_page. rewrite get_bind, Hfree.
  erewrite bind_ok by (apply select_victim_none; exact Hnv).
  cbv beta iota. rewrite get_bind, Hslots.
  erewrite bind_ok by (apply deref_ok; exact Hc).
  reflexivity.
Qed.

Lemma no_victim_view s s' :
  swap_path_view s' = swap_path_view s -> no_victim s -> no_victim s'.
Proof.
  unfold swap_path_view, swap_admission_untouched, no_victim. intros H.
  assert (Hram : ram s' = ram s) by congruence.
  assert (Hq : fifo_queue s' = fifo_queue s) by congruence.
  assert (Halgo : replacement_algo s' = replacement_algo s) by congruence.
  rewrite Hram, Hq, Halgo. auto.
Qed.

Lemma for_each_app_ok {A} (body : A -> M unit) (ys : list A) : forall xs s s1,
  for_each xs body s = (Ok tt, s1) ->
  for_each (xs ++ ys) body s = for_each ys body s1.
Proof.
  induction xs as [|x xs IH]; intros s s1 H; simpl in *.
  - injection H as <-. reflexivity.
  - unfold bind in *. destruct (body x s) as [[u|e] s0]; [apply IH; exact H | discriminate].
Qed.

(** The admission loop over pages [k, k + |ss|) when no frame is free,
    none can be taken and the free-slot queue starts with [ss]: page
    [k + i] is sent to slot [ss !! i]. *)
Lemma allocate_pages_stored h : forall (ss : list Z) (k : nat) rest c s,
  free_frames s = [] -> no_victim s ->
  free_swap_slots s = ss ++ rest ->
  pcbs s !! h = Some c ->
  (forall x, x ∈ ss -> 0 <= x < Z.of_nat (length (swap s))) ->
  (k + length ss <= length (tabla_paginas c))%nat ->
  exists s' c',
    for_each (seqZ (Z.of_nat k) (Z.of_nat (length ss))) (allocate_page h) s = (Ok tt, s') /\
    free_swap_slots s' = rest /\
    swap_path_view s' = swap_path_view s /\
    swap_outs s' = swap_outs s + Z.of_nat (length ss) /\
    pcbs s' = <[h := c']> (pcbs s) /\
    set_tabla_paginas [] c' = set_tabla_paginas [] c /\
    length (tabla_paginas c') = length (tabla_paginas c) /\
    (forall i, (i < k \/ k + length ss <= i)%nat ->
               tabla_paginas c' !! i = tabla_paginas c !! i) /\
    (forall i x, ss !! i = Some x ->
       exists e, tabla_paginas c !! (k + i)%nat = Some e /\
                 tabla_paginas c' !! (k + i)%nat
                 = Some (mkPTE false None (Some x) (last_access e))) /\
    (NoDup ss -> forall i x, ss !! i = Some x ->
       swap s' !! Z.to_nat x = Some (Some (mkSlot (pid c) (Z.of_nat (k + i)) (ticks s)))) /\
    (forall i, Z.of_nat i ∉ ss -> swap s' !! i = swap s !! i).
Proof.
  induction ss as [|x ss IH]; intros k rest c s Hfree Hnv Hslots Hc Hrange Hlen.
  - exists s, c. simpl in *. rewrite Z.add_0_r.
    repeat split; auto;
      [ symmetry; apply list_insert_id; exact Hc
      | intros i y Hi; rewrite lookup_nil in Hi; discriminate
      | intros _ i y Hi; rewrite lookup_nil in Hi; discriminate ].
  - simpl length in *. rewrite Nat2Z.inj_succ. rewrite seqZ_cons by lia.
    rewrite Z.pred_succ. simpl for_each. simpl in Hslots.
    assert (Hlt : (h < length (pcbs s))%nat) by (eapply lookup_lt_Some; exact Hc).
    assert (Hx : 0 <= x < Z.of_nat (length (swap s))) by (apply Hrange; left).
    destruct (lookup_lt_is_Some_2 (tabla_paginas c) k) as [e He]; [lia|].
    pose proof (allocate_page_stored h (Z.of_nat k) x (ss ++ rest) c e s Hfree Hnv Hslots Hc)
      as Hrun1.
    rewrite pt_get_nat in Hrun1. specialize (Hrun1 He Hx).
    set (s1 := stored h (Z.of_nat k) x c e (ss ++ rest) s) in *.
    set (c1 := set_tabla_paginas
                 (<[k := mkPTE false None (Some x) (last_access e)]> (tabla_paginas c)) c).
    assert (Hview1 : swap_path_view s1 = swap_path_view s) by reflexivity.
    assert (Hpcbs1 : pcbs s1 = <[h := c1]> (pcbs s)).
    { subst s1 c1. unfold stored. proj_simpl. now rewrite Nat2Z.id. }
    assert (Hswap1 : swap s1 = <[Z.to_nat x := Some (mkSlot (pid c) (Z.of_nat k) (ticks s))]> (swap s))
      by reflexivity.
    assert (Hc1 : pcbs s1 !! h = Some c1).
    { rewrite Hpcbs1. apply list_lookup_insert_eq. exact Hlt. }
    destruct (IH (S k) rest c1 s1) as
      (s' & c' & Hrun & Hslots' & Hview' & Hso' & Hpcbs' & Hrest' & Htl & Hsame & Hres & Hocc & Hout).
    { exact Hfree. }
    { apply (no_victim_view s); [exact Hview1 | exact Hnv]. }
    { reflexivity. }
    { exact Hc1. }
    { intros y Hy. rewrite Hswap1, length_insert. apply Hrange. now right. }
    { subst c1. proj_simpl. rewrite length_insert. lia. }
    exists s', c'. erewrite bind_ok by exact Hrun1.
    replace (Z.succ (Z.of_nat k)) with (Z.of_nat (S k)) by lia.
    split; [exact Hrun|]. split; [exact Hslots'|]. split; [congruence|].
    split.
    { rewrite Hso'. subst s1. unfold stored. proj_simpl. lia. }
    split.
    { rewrite Hpcbs', Hpcbs1. apply list_insert_insert_eq. }
    split; [rewrite Hrest'; reflexivity|].
    split.
    { rewrite Htl. subst c1. proj_simpl. apply length_insert. }
    split.
    { intros i Hi. rewrite Hsame by lia. subst c1. proj_simpl.
      apply list_lookup_insert_ne. lia. }
    split.
    { intros [|i] y Hi; simpl in Hi.
      - injection Hi as <-. rewrite Nat.add_0_r. exists e. split; [exact He|].
        rewrite Hsame by lia. subst c1. proj_simpl. apply list_lookup_insert_eq. lia.
      - destruct (Hres i y Hi) as (e' & He' & Hnew).
        replace (k + S i)%nat with (S k + i)%nat by lia. exists e'. split; [|exact Hnew].
        rewrite <- He'. subst c1. proj_simpl. symmetry. apply list_lookup_insert_ne. lia. }
    split.
    { intros Hnd. apply NoDup_cons in Hnd as [Hnin Hnd]. intros [|i] y Hi; simpl in Hi.
      - injection Hi as <-. rewrite Hout by (rewrite Z2Nat.id by lia; exact Hnin).
        rewrite Hswap1, Nat.add_0_r. apply list_lookup_insert_eq. lia.
      - rewrite (Hocc Hnd i y Hi).
        replace (S k + i)%nat with (k + S i)%nat by lia. reflexivity. }
    { intros i Hi. rewrite not_elem_of_cons in Hi. destruct Hi as [Hne Hnin].
      rewrite Hout by exact Hnin. rewrite Hswap1. apply list_lookup_insert_ne. lia. }
Qed.

(** With no frame and no slot, the loop only writes log lines. *)
Lemma allocate_pages_nowhere h c : forall (xs : list Z) s,
  free_frames s = [] -> no_victim s -> free_swap_slots s = [] -> pcbs s !! h = Some c ->
  exists s',
    for_each xs (allocate_page h) s = (Ok tt, s') /\
    (swap_path_view s', pcbs s', swap s', free_swap_slots s', swap_outs s')
    = (swap_path_view s, pcbs s, swap s, free_swap_slots s, swap_outs s).
Proof.
  induction xs as [|x xs IH]; intros s Hfree Hnv Hslots Hc.
  - exists s. split; reflexivity.
  - simpl for_each. rewrite (bind_ok _ _ _ _ _ (allocate_page_nowhere h x c s Hfree Hnv Hslots Hc)).
    set (s1 := set_log_events _ s).
    destruct (IH s1) as (s' & Hrun & Hv); try assumption.
    exists s'. split; [exact Hrun | exact Hv].
Qed.

(** X22.  Admission when nothing is free in RAM.  Take a size and a page
    size of at most 53 bits, for which the page count is the exact ceiling
    of the quotient.  When the free-frame
    queue is empty and there is no victim, [crear_proceso] still succeeds
    and queues the process as [LISTO]: its first pages go directly to the
    free swap slots, in queue order (entry not present, no frame, the slot;
    the slot records PID, page and tick), [swap_outs] grows by the number
    of pages stored, and the pages for which no slot is left stay without
    frame and without slot.  The frames, the FIFO queue, the TLB and the
    other counters are untouched. *)
Theorem admission_without_frames_goes_to_swap (s : SimuladorOS) nom tam_kb prio instr :
  0 <= tam_kb < 2 ^ 53 ->
  0 < page_kb s < 2 ^ 53 ->
  free_frames s = [] ->
  no_victim s ->
  NoDup (take (page_count s tam_kb) (free_swap_slots s)) ->
  (forall x, x ∈ take (page_count s tam_kb) (free_swap_slots s) ->
             0 <= x < Z.of_nat (length (swap s))) ->
  exists s1 c1,
    crear_proceso nom tam_kb prio instr s = (Ok (length (pcbs s)), s1) /\
    pcbs s1 = pcbs s ++ [c1] /\
    set_tabla_paginas [] c1 = set_tabla_paginas [] (fresh_PCB s nom tam_kb prio instr) /\
    length (tabla_paginas c1) = page_count s tam_kb /\
    cola_listos s1 = cola_listos s ++ [length (pcbs s)] /\
    contador_pid s1 = contador_pid s + 1 /\
    free_swap_slots s1 = drop (page_count s tam_kb) (free_swap_slots s) /\
    swap_outs s1
    = swap_outs s + Z.of_nat (length (take (page_count s tam_kb) (free_swap_slots s))) /\
    (forall i x, take (page_count s tam_kb) (free_swap_slots s) !! i = Some x ->
       tabla_paginas c1 !! i = Some (mkPTE false None (Some x) 0) /\
       swap s1 !! Z.to_nat x = Some (Some (mkSlot (contador_pid s) (Z.of_nat i) (ticks s)))) /\
    (forall i, (length (free_swap_slots s) <= i < page_count s tam_kb)%nat ->
               tabla_paginas c1 !! i = Some (mkPTE false None None 0)) /\
    (forall i, Z.of_nat i ∉ take (page_count s tam_kb) (free_swap_slots s) ->
               swap s1 !! i = swap s !! i) /\
    swap_admission_untouched s1 = swap_admission_untouched s.
Proof.
  intros Htam Hpage Hfree Hnv Hnd Hrange.
  assert (Hpk : page_kb s <> 0) by lia.
  pose proof (page_count_exact s tam_kb Htam Hpage) as Hex.
  set (P := page_count s tam_kb) in *.
  set (ss := take P (free_swap_slots s)) in *. set (rest := drop P (free_swap_slots s)).
  set (h := length (pcbs s)).
  set (sb := before_allocation s nom tam_kb prio instr).
  set (c0 := fresh_PCB s nom tam_kb prio instr).
  assert (Hss : length ss = Nat.min P (length (free_swap_slots s)))
    by (subst ss; apply length_take).
  assert (Hsplit : free_swap_slots s = ss ++ rest) by (symmetry; apply take_drop).
  assert (Hc0 : pcbs sb !! h = Some c0).
  { subst sb. rewrite pcbs_before_allocation. apply list_lookup_middle. reflexivity. }
  assert (Hc0tab : tabla_paginas c0 = replicate P (mkPTE false None None 0)) by reflexivity.
  assert (Hc0len : length (tabla_paginas c0) = P).
  { rewrite Hc0tab. apply length_replicate. }
  assert (Hviewb : swap_path_view sb
                   = (swap_admission_untouched s, cola_listos s ++ [h], contador_pid s + 1,
                      replacement_algo s)) by reflexivity.
  destruct (allocate_pages_stored h ss 0 rest c0 sb) as
    (s' & c1 & Hrun1 & Hslots1 & Hview1 & Hso1 & Hpcbs1 & Hrest1 & Htl1 & Hsame1 & Hres1 & Hocc1 & Hout1).
  { exact Hfree. }
  { exact Hnv. }
  { exact Hsplit. }
  { exact Hc0. }
  { intros x Hx. apply Hrange. exact Hx. }
  { rewrite Hc0len. lia. }
  assert (Hc1 : pcbs s' !! h = Some c1).
  { rewrite Hpcbs1. apply list_lookup_insert_eq. eapply lookup_lt_Some. exact Hc0. }
  assert (Hnv' : no_victim s').
  { apply (no_victim_view sb); [exact Hview1 | exact Hnv]. }
  assert (Hfree' : free_frames s' = []).
  { unfold swap_path_view, swap_admission_untouched in Hview1.
    assert (Hf : free_frames s' = free_frames sb) by congruence.
    rewrite Hf. exact Hfree. }
  assert (Htail : exists s1,
    for_each (seqZ (Z.of_nat (length ss)) (Z.of_nat (P - length ss))) (allocate_page h) s'
    = (Ok tt, s1) /\
    (swap_path_view s1, pcbs s1, swap s1, free_swap_slots s1, swap_outs s1)
    = (swap_path_view s', pcbs s', swap s', free_swap_slots s', swap_outs s')).
  { destruct (decide (P <= length (free_swap_slots s))%nat) as [Hle|Hgt].
    - replace (P - length ss)%nat with 0%nat by lia. exists s'. split; reflexivity.
    - apply allocate_pages_nowhere with (c := c1); try assumption.
      rewrite Hslots1. subst rest. apply drop_ge. lia. }
  destruct Htail as (s1 & Hrun2 & Hv2).
  assert (Hview2 : swap_path_view s1 = swap_path_view s') by congruence.
  assert (Hpcbs2 : pcbs s1 = pcbs s') by congruence.
  assert (Hswap2 : swap s1 = swap s') by congruence.
  assert (Hslots2 : free_swap_slots s1 = free_swap_slots s') by congruence.
  assert (Hso2 : swap_outs s1 = swap_outs s') by congruence.
  clear Hv2.
  exists s1, c1.
  split.
  { rewrite crear_proceso_prefix by assumption. fold h sb.
    erewrite bind_ok; [reflexivity|].
    unfold allocate_pages_for_process.
    erewrite bind_ok by (apply deref_ok; exact Hc0).
    subst c0. unfold fresh_PCB at 1. proj_simpl.
    rewrite py_range_to_nat. fold (page_count s tam_kb). fold P.
    replace (Z.of_nat P) with (Z.of_nat (length ss) + Z.of_nat (P - length ss)) by lia.
    rewrite seqZ_app by lia. rewrite Z.add_0_l.
    rewrite (for_each_app_ok _ _ _ _ _ Hrun1). exact Hrun2. }
  split.
  { rewrite Hpcbs2, Hpcbs1. subst sb. rewrite pcbs_before_allocation. fold c0.
    replace h with (length (pcbs s) + 0)%nat by (subst h; lia).
    rewrite insert_app_r. reflexivity. }
  split; [exact Hrest1|].
  split; [congruence|].
  assert (Hview : swap_path_view s1
                  = (swap_admission_untouched s, cola_listos s ++ [h], contador_pid s + 1,
                     replacement_algo s)) by congruence.
  unfold swap_path_view in Hview.
  assert (Hu : swap_admission_untouched s1 = swap_admission_untouched s) by congruence.
  assert (Hcl : cola_listos s1 = cola_listos s ++ [h]) by congruence.
  assert (Hcp : contador_pid s1 = contador_pid s + 1) by congruence.
  split; [exact Hcl|]. split; [exact Hcp|].
  split; [congruence|].
  split; [rewrite Hso2, Hso1; reflexivity|].
  split.
  { intros i x Hi. split.
    - destruct (Hres1 i x Hi) as (e & He & Hnew).
      change (0 + i)%nat with i in He, Hnew. rewrite Hnew.
      rewrite Hc0tab in He. apply lookup_replicate in He as [-> _]. reflexivity.
    - rewrite Hswap2. exact (Hocc1 Hnd i x Hi). }
  split.
  { intros i Hi. rewrite Hsame1 by lia. rewrite Hc0tab. apply lookup_replicate_2. lia. }
  split; [intros i Hi; rewrite Hswap2; apply Hout1; exact Hi|].
  exact Hu.
Qed.

Lemma admission_without_frames_goes_to_swap_witness :
  exists s1 c1,
    crear_proceso "P1" 768 1 10 (state_after (no_frames_cfg "FIFO") []) = (Ok 0%nat, s1) /\
    pcbs s1 = [c1] /\ free_swap_slots s1 = [] /\ swap_outs s1 = 2.
Proof.
  destruct (admission_without_frames_goes_to_swap
              (state_after (no_frames_cfg "FIFO") []) "P1" 768 1 10)
    as (s1 & c1 & H1 & H2 & _ & _ & _ & _ & H3 & H4 & _).
  - lia.
  - vm_compute. split; reflexivity.
  - vm_compute. reflexivity.
  - right. vm_compute. split; [discriminate | split; [discriminate | reflexivity]].
  - apply (bool_decide_unpack _). vm_compute. exact I.
  - intros x Hx. vm_compute in Hx.
    replace (length (swap (state_after (no_frames_cfg "FIFO") []))) with 2%nat
      by (vm_compute; reflexivity).
    apply elem_of_cons in Hx as [-> | Hx]; [lia|].
    apply elem_of_cons in Hx as [-> | Hx]; [lia|].
    apply elem_of_nil in Hx. contradiction.
  - exists s1, c1. auto.
Defined.

(** ** Termination *)

#[local] Instance released_refl : Reflexive released.
Proof. intros s. unfold released, frees. repeat split; auto. Qed.

#[local] Instance released_trans : Transitive released.
Proof.
  intros a b c [(H1 & H2 & H3 & H4 & H5 & H6 & H7) H8] [(K1 & K2 & K3 & K4 & K5 & K6 & K7) K8].
  split; [|congruence]. unfold frees.
  split; [congruence|]. split; [congruence|].
  split; [auto|]. split; [auto|].
  split; [etransitivity; eassumption|].
  split; etransitivity; eassumption.
Qed.

Lemma insert_None_occupied {A} (l : list (option A)) (k i : nat) (x : A) :
  <[k := None]> l !! i = Some (Some x) -> l !! i = Some (Some x).
Proof.
  intros H. destruct (decide (i = k)) as [->|Hne].
  - apply list_lookup_insert_Some in H as [(_ & H & _) | (Hne & _)];
      [discriminate | contradiction].
  - now rewrite list_lookup_insert_ne in H by auto.
Qed.

Lemma py_set_insert {A} (l : list A) (i : Z) (x : A) r :
  py_set l i x = Some r -> exists k, r = <[k := x]> l.
Proof. unfold py_set. destruct (py_index l i) as [k|]; [intros [= <-]; eauto | discriminate]. Qed.

Lemma released_ram_set fr : evolves released (ram_set fr None).
Proof.
  intros s. unfold ram_set. rewrite get_bind.
  destruct (py_set (ram s) fr None) as [r|] eqn:Hset; [|reflexivity].
  apply py_set_insert in Hset as [k ->]. cbn [snd modify].
  split; [|reflexivity]. unfold frees. proj_simpl.
  split; [apply length_insert|]. split; [reflexivity|].
  split; [intros i x; apply insert_None_occupied|].
  repeat split; auto.
Qed.

Lemma released_swap_set slot : evolves released (swap_set slot None).
Proof.
  intros s. unfold swap_set. rewrite get_bind.
  destruct (py_set (swap s) slot None) as [r|] eqn:Hset; [|reflexivity].
  apply py_set_insert in Hset as [k ->]. cbn [snd modify].
  split; [|reflexivity]. unfold frees. proj_simpl.
  split; [reflexivity|]. split; [apply length_insert|].
  split; [auto|].
  split; [intros i x; apply insert_None_occupied|].
  repeat split; auto.
Qed.

Lemma remove_first_sublist x l : remove_first x l `sublist_of` l.
Proof.
  induction l as [|y l IH]; simpl; [constructor|].
  destruct (x =? y); [now apply sublist_cons | now apply sublist_skip].
Qed.

Lemma released_free_frame fr :
  evolves released (modify (fun s => set_free_frames (free_frames s ++ [fr]) s)).
Proof.
  intros s. cbn [snd modify]. split; [|reflexivity]. unfold frees. proj_simpl.
  repeat split; auto. now exists [fr].
Qed.

Lemma released_free_slot slot :
  evolves released (modify (fun s => set_free_swap_slots (free_swap_slots s ++ [slot]) s)).
Proof.
  intros s. cbn [snd modify]. split; [|reflexivity]. unfold frees. proj_simpl.
  repeat split; auto. now exists [slot].
Qed.

Lemma released_fifo fr :
  evolves released (modify (fun s => set_fifo_queue (remove_first fr (fifo_queue s)) s)).
Proof.
  intros s. cbn [snd modify]. split; [|reflexivity]. unfold frees. proj_simpl.
  repeat split; auto. apply remove_first_sublist.
Qed.
#[local] Hint Resolve released_ram_set released_swap_set released_free_frame
  released_free_slot released_fifo : evolves.

Lemma release_entry_released e : evolves released (release_entry e).
Proof. unfold release_entry. evolves_auto ltac:(fail). Qed.

(** In a state whose arrays have the configured sizes the loop body never
    raises. *)
Lemma release_entry_returns e s :
  length (ram s) = Z.to_nat (num_marcos_ram s) ->
  length (swap s) = Z.to_nat (num_marcos_swap s) ->
  exists s1, release_entry e s = (Ok tt, s1).
Proof.
  intros Hram Hswap. unfold release_entry.
  match goal with |- exists s1, bind ?m ?k s = _ =>
    assert (HA : exists sA, m s = (Ok tt, sA) /\ swap sA = swap s /\
                            num_marcos_swap sA = num_marcos_swap s) end.
  { destruct (frame e) as [fr|]; [|eexists; split; [reflexivity | auto]].
    destruct (present e); [|eexists; split; [reflexivity | auto]].
    rewrite get_bind.
    destruct ((0 <=? fr) && (fr <? num_marcos_ram s)) eqn:Hg;
      [|eexists; split; [reflexivity | auto]].
    apply andb_true_iff in Hg as [H0 H1]. apply Z.leb_le in H0. apply Z.ltb_lt in H1.
    destruct (lookup_lt_is_Some_2 (ram s) (Z.to_nat fr)) as [content Hcontent]; [lia|].
    erewrite bind_ok by (apply ram_get_ok; rewrite py_get_in_range by lia; exact Hcontent).
    destruct content; [|eexists; split; [reflexivity | auto]].
    erewrite bind_ok by (apply ram_set_ok; apply py_set_in_range; lia).
    rewrite modify_bind. eexists. split; [reflexivity | auto]. }
  destruct HA as (sA & HrunA & HswapA & HnumA). erewrite bind_ok by exact HrunA.
  destruct (swap_slot e) as [slot|]; [|eexists; reflexivity].
  rewrite get_bind.
  destruct ((0 <=? slot) && (slot <? num_marcos_swap sA)) eqn:Hg; [|eexists; reflexivity].
  apply andb_true_iff in Hg as [H0 H1]. apply Z.leb_le in H0. apply Z.ltb_lt in H1.
  destruct (lookup_lt_is_Some_2 (swap sA) (Z.to_nat slot)) as [content Hcontent];
    [rewrite HswapA; lia|].
  erewrite bind_ok
    by (apply swap_get_ok; rewrite py_get_in_range by (rewrite HswapA; lia); exact Hcontent).
  destruct content; [|eexists; reflexivity].
  erewrite bind_ok by (apply swap_set_ok; apply py_set_in_range; rewrite HswapA; lia).
  eexists. reflexivity.
Qed.

Lemma release_entries_return : forall (es : list PTE) s,
  length (ram s) = Z.to_nat (num_marcos_ram s) ->
  length (swap s) = Z.to_nat (num_marcos_swap s) ->
  exists s1, for_each es release_entry s = (Ok tt, s1) /\ released s s1.
Proof.
  induction es as [|e es IH]; intros s Hram Hswap.
  - exists s. split; reflexivity.
  - destruct (release_entry_returns e s Hram Hswap) as [s0 Hrun0].
    pose proof (release_entry_released e s) as Hrel0. rewrite Hrun0 in Hrel0. cbn [snd] in Hrel0.
    destruct Hrel0 as [Hfrees0 Hview0].
    assert (Hn : num_marcos_ram s0 = num_marcos_ram s) by (unfold release_view in Hview0; congruence).
    assert (Hm : num_marcos_swap s0 = num_marcos_swap s) by (unfold release_view in Hview0; congruence).
    destruct Hfrees0 as (Hl1 & Hl2 & Hrest).
    destruct (IH s0) as (s1 & Hrun1 & Hrel1); [congruence | congruence |].
    exists s1. simpl for_each. erewrite bind_ok by exact Hrun0. split; [exact Hrun1|].
    transitivity s0; [|exact Hrel1]. split; [|exact Hview0]. unfold frees. auto.
Qed.

(** What [terminar_proceso] does in a state whose arrays have the configured
    sizes. *)
Lemma terminar_proceso_ok (s : SimuladorOS) (h : handle) (c : PCB) (motivo : string) :
  length (ram s) = Z.to_nat (num_marcos_ram s) ->
  length (swap s) = Z.to_nat (num_marcos_swap s) ->
  pcbs s !! h = Some c ->
  exists s',
    terminar_proceso h motivo s = (Ok tt, s') /\
    pcbs s' = <[h := set_motivo_terminacion motivo (set_estado TERMINADO c)]> (pcbs s) /\
    procesos_terminados s' = procesos_terminados s ++ [h] /\
    tlb s' = option_map (fun t => tlb_invalidate_pid t (pid c)) (tlb s) /\
    (forall t' page, tlb s' = Some t' -> od_get (pid c, page) (entries t') = None) /\
    log_events s' = log_events s ++ [(ticks s, EvTerminado (pid c) motivo)] /\
    frees s s' /\
    termination_untouched s' = termination_untouched s.
Proof.
  intros Hram Hswap Hc.
  destruct (release_entries_return (tabla_paginas c) s Hram Hswap)
    as (s1 & Hrun1 & Hfrees1 & Hview1).
  unfold release_view in Hview1.
  assert (Hpcbs1 : pcbs s1 = pcbs s) by congruence.
  assert (Htlb1 : tlb s1 = tlb s) by congruence.
  assert (Hterm1 : procesos_terminados s1 = procesos_terminados s) by congruence.
  assert (Hlog1 : log_events s1 = log_events s) by congruence.
  assert (Hun1 : termination_untouched s1 = termination_untouched s) by congruence.
  assert (Hticks1 : ticks s1 = ticks s) by (unfold termination_untouched in Hun1; congruence).
  assert (Hlt : (h < length (pcbs s))%nat) by (eapply lookup_lt_Some; exact Hc).
  eexists. split.
  { unfold terminar_proceso.
    erewrite bind_ok by (apply deref_ok; exact Hc).
    erewrite bind_ok by exact Hrun1.
    rewrite modify_bind.
    erewrite bind_ok by (apply update_pcb_ok; proj_simpl; rewrite Hpcbs1; exact Hc).
    erewrite bind_ok.
    2:{ apply update_pcb_ok. proj_simpl. rewrite Hpcbs1.
        apply list_lookup_insert_eq. exact Hlt. }
    rewrite modify_bind. unfold log, modify. reflexivity. }
  proj_simpl.
  split; [rewrite Hpcbs1; apply list_insert_insert_eq|].
  split; [now rewrite Hterm1|].
  split; [now rewrite Htlb1|].
  split.
  { intros t' page Ht'. rewrite Htlb1 in Ht'. destruct (tlb s) as [t|]; [|discriminate].
    injection Ht' as <-. unfold tlb_invalidate_pid. simpl.
    rewrite od_get_filter_pid. simpl. now rewrite Z.eqb_refl. }
  split; [now rewrite Hlog1, Hticks1|].
  split; [exact Hfrees1 | exact Hun1].
Qed.

(** X23.  Termination.  In a state whose arrays have the configured sizes
    (every reachable state), [terminar_proceso] does not raise.  It marks
    the object [TERMINADO] with the given reason and changes nothing else
    in it -- the page table keeps its entries as they were --, appends it
    to the list of terminated processes, removes every TLB entry of its
    PID, and logs the termination.  Memory is only given back: a frame or
    slot occupied afterwards had the same content before, the free queues
    are only appended to, the FIFO queue only loses elements.  The running
    process, the ready and blocked queues, the counters and the clocks are
    not touched. *)
Theorem terminar_proceso_effects (s : SimuladorOS) (h : handle) (c : PCB) (motivo : string) :
  length (ram s) = Z.to_nat (num_marcos_ram s) ->
  length (swap s) = Z.to_nat (num_marcos_swap s) ->
  pcbs s !! h = Some c ->
  exists s',
    terminar_proceso h motivo s = (Ok tt, s') /\
    pcbs s' = <[h := set_motivo_terminacion motivo (set_estado TERMINADO c)]> (pcbs s) /\
    procesos_terminados s' = procesos_terminados s ++ [h] /\
    tlb s' = option_map (fun t => tlb_invalidate_pid t (pid c)) (tlb s) /\
    (forall t' page, tlb s' = Some t' -> od_get (pid c, page) (entries t') = None) /\
    log_events s' = log_events s ++ [(ticks s, EvTerminado (pid c) motivo)] /\
    frees s s' /\
    termination_untouched s' = termination_untouched s.
Proof. apply terminar_proceso_ok. Qed.

Lemma terminar_proceso_effects_witness :
  exists s',
    terminar_proceso 0%nat "Forzada por Usuario" stale_tlb_state = (Ok tt, s') /\
    procesos_terminados s' = [0%nat] /\
    tlb s' = Some (mkTLB 4 []).
Proof.
  destruct (terminar_proceso_effects stale_tlb_state 0%nat
              (hd (mkPCB 0 "" 0 0 0 0 NUEVO 0 [] "") (pcbs stale_tlb_state))
              "Forzada por Usuario")
    as (s' & H1 & _ & H2 & H3 & _).
  - vm_compute. reflexivity.
  - vm_compute. reflexivity.
  - vm_compute. reflexivity.
  - exists s'. split; [exact H1|]. split; [exact H2 | exact H3].
Defined.

(** ** Eviction and page access *)

Lemma find_pcb_by_pid_same (s s' : SimuladorOS) (p : Z) :
  (pcbs s', proceso_actual s', cola_listos s', cola_bloqueados s', procesos_terminados s')
  = (pcbs s, proceso_actual s, cola_listos s, cola_bloqueados s, procesos_terminados s) ->
  find_pcb_by_pid s' p = find_pcb_by_pid s p.
Proof.
  intros H. unfold find_pcb_by_pid, pcb_has_pid.
  assert (H1 : pcbs s' = pcbs s) by congruence.
  assert (H2 : proceso_actual s' = proceso_actual s) by congruence.
  assert (H3 : cola_listos s' = cola_listos s) by congruence.
  assert (H4 : cola_bloqueados s' = cola_bloqueados s) by congruence.
  assert (H5 : procesos_terminados s' = procesos_terminados s) by congruence.
  rewrite H1, H2, H3, H4, H5. reflexivity.
Qed.

Lemma find_pcb_by_pid_Some_pid (s : SimuladorOS) (p : Z) (h : handle) :
  find_pcb_by_pid s p = Some h -> exists c, pcbs s !! h = Some c /\ pid c = p.
Proof.
  unfold find_pcb_by_pid. intros H. apply pcb_has_pid_true.
  destruct (List.find _ (option_list (proceso_actual s))) as [h0|] eqn:H0.
  { injection H as <-. now apply find_Some_elem in H0. }
  destruct (List.find _ (cola_listos s)) as [h1|] eqn:H1.
  { injection H as <-. now apply find_Some_elem in H1. }
  destruct (List.find _ (cola_bloqueados s)) as [h2|] eqn:H2.
  { injection H as <-. now apply find_Some_elem in H2. }
  now apply find_Some_elem in H.
Qed.

Lemma pt_get_insert (t : list PTE) (page : Z) (e : PTE) :
  0 <= page < Z.of_nat (length t) -> pt_get (<[Z.to_nat page := e]> t) page = Some e.
Proof.
  intros H. unfold pt_get. destruct (page <? 0) eqn:Hneg; [apply Z.ltb_lt in Hneg; lia|].
  apply list_lookup_insert_eq. lia.
Qed.

(** A successful eviction. *)
Lemma swap_out_frame_evicts f fr0 slot rest h c s :
  0 <= f < Z.of_nat (length (ram s)) ->
  ram s !! Z.to_nat f = Some (Some fr0) ->
  free_swap_slots s = slot :: rest ->
  0 <= slot < Z.of_nat (length (swap s)) ->
  find_pcb_by_pid s (fr_pid fr0) = Some h ->
  pcbs s !! h = Some c ->
  0 <= fr_page fr0 < Z.of_nat (length (tabla_paginas c)) ->
  exists s1,
    swap_out_frame f s = (Ok (Some slot), s1) /\
    ram s1 = <[Z.to_nat f := None]> (ram s) /\
    swap s1 = <[Z.to_nat slot := Some (mkSlot (fr_pid fr0) (fr_page fr0) (ticks s))]> (swap s) /\
    pcbs s1 = <[h := set_tabla_paginas
                       (<[Z.to_nat (fr_page fr0) := mkPTE false None (Some slot) (ticks s)]>
                          (tabla_paginas c)) c]> (pcbs s) /\
    free_frames s1 = free_frames s ++ [f] /\
    free_swap_slots s1 = rest /\
    fifo_queue s1 = remove_first f (fifo_queue s) /\
    swap_outs s1 = swap_outs s + 1 /\
    log_events s1
    = log_events s ++ [(ticks s, EvSwapping (fr_page fr0) (fr_pid fr0) slot f)] /\
    eviction_untouched s1 = eviction_untouched s.
Proof.
  intros Hf Hocc Hslots Hslot Hown Hc Hpage.
  destruct (pt_get_in_range _ _ Hpage) as [e He].
  eexists. split.
  { unfold swap_out_frame.
    erewrite bind_ok by (apply ram_get_ok; rewrite py_get_in_range by exact Hf; exact Hocc).
    cbv beta iota zeta. rewrite get_bind, Hslots, modify_bind.
    erewrite bind_ok by (apply swap_set_ok; apply py_set_in_range; exact Hslot).
    rewrite get_bind.
    erewrite (find_pcb_by_pid_same s) by reflexivity. rewrite Hown.
    erewrite bind_ok by (apply pte_update_ok; [exact Hc | exact He]).
    erewrite bind_ok by (apply ram_set_ok; apply py_set_in_range; exact Hf).
    rewrite !modify_bind, log_bind. reflexivity. }
  proj_simpl. repeat split.
Qed.

Lemma tlb_probe_off h page s : tlb s = None -> tlb_probe h page s = (Ok false, s).
Proof. intros H. unfold tlb_probe. rewrite get_bind, H. reflexivity. Qed.

Lemma tlb_add_if_enabled_off p page fr s :
  tlb s = None -> tlb_add_if_enabled p page fr s = (Ok tt, s).
Proof. intros H. unfold tlb_add_if_enabled. rewrite get_bind, H. reflexivity. Qed.

(** A fault on a page held in swap, serviced from a free frame, with the
    TLB disabled. *)
Lemma access_page_swap_in_free h page slot f rest c e s :
  tlb s = None ->
  pcbs s !! h = Some c ->
  pt_get (tabla_paginas c) page = Some e ->
  present e = false ->
  swap_slot e = Some slot ->
  free_frames s = f :: rest ->
  0 <= f < Z.of_nat (length (ram s)) ->
  0 <= slot < Z.of_nat (length (swap s)) ->
  exists s2,
    access_page h page s = (Ok true, s2) /\
    ram s2 = <[Z.to_nat f := Some (mkFrame (pid c) page (ticks s + 1) (access_clock s + 1) true)]>
               (ram s) /\
    pcbs s2 = <[h := set_tabla_paginas
                       (<[Z.to_nat page := mkPTE true (Some f) None (access_clock s + 1)]>
                          (tabla_paginas c)) c]> (pcbs s) /\
    swap s2 = <[Z.to_nat slot := None]> (swap s) /\
    free_swap_slots s2 = free_swap_slots s ++ [slot] /\
    free_frames s2 = rest /\
    fifo_queue s2 = (if is_algo s "FIFO" then fifo_queue s ++ [f] else fifo_queue s) /\
    (total_accesos s2, total_fallos s2, swap_ins s2, swap_outs s2)
    = (total_accesos s + 1, total_fallos s + 1, swap_ins s + 1, swap_outs s) /\
    (ticks s2, access_clock s2) = (ticks s + 1, access_clock s + 1) /\
    tlb s2 = None /\
    access_untouched s2 = access_untouched s.
Proof.
  intros Htlb Hc He Hpres Hsl Hfree Hf Hslot.
  assert (H : exists s2, access_page h page s = (Ok true, s2) /\
    s2 = (if is_algo s "FIFO" then set_fifo_queue (fifo_queue s ++ [f]) else fun x => x)
           (set_log_events
              (log_events s ++ [(ticks s + 1, EvFallo (pid c) page);
                                (ticks s + 1, EvSwapIn page (pid c) slot f)])
           (set_swap_ins (swap_ins s + 1)
           (set_free_swap_slots (free_swap_slots s ++ [slot])
           (set_swap (<[Z.to_nat slot := None]> (swap s))
           (set_pcbs (<[h := set_tabla_paginas
                       (<[Z.to_nat page := mkPTE true (Some f) None (access_clock s + 1)]>
                          (tabla_paginas c)) c]> (pcbs s))
           (set_ram (<[Z.to_nat f := Some (mkFrame (pid c) page (ticks s + 1)
                                             (access_clock s + 1) true)]> (ram s))
           (set_free_frames rest
           (set_total_fallos (total_fallos s + 1)
           (set_ticks (ticks s + 1)
           (set_access_clock (access_clock s + 1)
           (set_total_accesos (total_accesos s + 1) s)))))))))))).
  { eexists. split; [|reflexivity].
    unfold access_page. rewrite !modify_bind.
    erewrite bind_ok by (apply tlb_probe_off; exact Htlb).
    cbv beta iota.
    erewrite bind_ok by (apply deref_ok; exact Hc).
    rewrite He, Hpres, modify_bind, log_bind, Hsl.
    unfold swap_in.
    erewrite bind_ok by (apply deref_ok; exact Hc).
    rewrite get_bind. proj_simpl. rewrite Hfree.
    erewrite bind_ok by (rewrite modify_bind; reflexivity).
    cbv beta iota. rewrite get_bind.
    erewrite bind_ok by (apply ram_set_ok; apply py_set_in_range; exact Hf).
    erewrite bind_ok by (apply pte_update_ok; [exact Hc | exact He]).
    erewrite bind_ok by (apply swap_set_ok; apply py_set_in_range; exact Hslot).
    rewrite !modify_bind, log_bind. unfold when.
    match goal with |- context [is_algo ?st "FIFO"] =>
      change (is_algo st "FIFO") with (is_algo s "FIFO") end.
    destruct (is_algo s "FIFO").
    - rewrite modify_bind.
      erewrite bind_ok by (apply tlb_add_if_enabled_off; exact Htlb).
      unfold ret. proj_simpl. rewrite <- app_assoc. reflexivity.
    - rewrite ret_bind.
      erewrite bind_ok by (apply tlb_add_if_enabled_off; exact Htlb).
      unfold ret. proj_simpl. rewrite <- app_assoc. reflexivity. }
  destruct H as (s2 & Hrun & ->). eexists. split; [exact Hrun|].
  destruct (is_algo s "FIFO"); proj_simpl; repeat split; exact Htlb.
Qed.

(** X24.  A successful eviction.  When frame [f] holds page [page] of
    process [p], a swap slot is free and the simulator still holds the
    process (found by PID through the running process and the queues),
    [swap_out_frame] returns the slot at the head of the free-slot queue;
    the slot records [p], [page] and the tick; the page-table entry becomes
    not present, without frame, with that slot; the frame is emptied,
    appended to the free-frame queue and removed from the FIFO queue;
    [swap_outs] grows by one.  The TLB is not touched. *)
Theorem swap_out_frame_moves_page_to_swap f fr0 slot rest h c (s : SimuladorOS) :
  0 <= f < Z.of_nat (length (ram s)) ->
  ram s !! Z.to_nat f = Some (Some fr0) ->
  free_swap_slots s = slot :: rest ->
  0 <= slot < Z.of_nat (length (swap s)) ->
  find_pcb_by_pid s (fr_pid fr0) = Some h ->
  pcbs s !! h = Some c ->
  0 <= fr_page fr0 < Z.of_nat (length (tabla_paginas c)) ->
  exists s1,
    swap_out_frame f s = (Ok (Some slot), s1) /\
    ram s1 = <[Z.to_nat f := None]> (ram s) /\
    swap s1 = <[Z.to_nat slot := Some (mkSlot (fr_pid fr0) (fr_page fr0) (ticks s))]> (swap s) /\
    pcbs s1 = <[h := set_tabla_paginas
                       (<[Z.to_nat (fr_page fr0) := mkPTE false None (Some slot) (ticks s)]>
                          (tabla_paginas c)) c]> (pcbs s) /\
    free_frames s1 = free_frames s ++ [f] /\
    free_swap_slots s1 = rest /\
    fifo_queue s1 = remove_first f (fifo_queue s) /\
    swap_outs s1 = swap_outs s + 1 /\
    log_events s1
    = log_events s ++ [(ticks s, EvSwapping (fr_page fr0) (fr_pid fr0) slot f)] /\
    eviction_untouched s1 = eviction_untouched s.
Proof. apply swap_out_frame_evicts. Qed.

Lemma swap_out_frame_moves_page_to_swap_witness :
  exists s1,
    swap_out_frame 0 one_resident_state = (Ok (Some 0), s1) /\
    ram s1 = [None] /\ free_frames s1 = [0].
Proof.
  destruct (swap_out_frame_moves_page_to_swap 0 (mkFrame 1 0 0 0 true) 0 [] 0%nat
              (hd no_PCB (pcbs one_resident_state)) one_resident_state)
    as (s1 & H1 & H2 & _ & _ & H3 & _).
  - replace (length (ram one_resident_state)) with 1%nat by (vm_compute; reflexivity). lia.
  - vm_compute. reflexivity.
  - vm_compute. reflexivity.
  - replace (length (swap one_resident_state)) with 1%nat by (vm_compute; reflexivity). lia.
  - vm_compute. reflexivity.
  - vm_compute. reflexivity.
  - vm_compute. split; [discriminate | reflexivity].
  - exists s1. split; [exact H1|]. split; [exact H2 | exact H3].
Defined.

(** X25.  When [swap_out_frame] gives up.  On an empty frame it returns
    [None] and changes nothing.  On an occupied frame with no free swap
    slot it returns [None] and only writes a log line: the frame stays
    occupied and no queue, table or counter changes. *)
Theorem swap_out_frame_gives_up (s : SimuladorOS) (f : Z) :
  (py_get (ram s) f = Some None -> swap_out_frame f s = (Ok None, s)) /\
  (forall fr0, py_get (ram s) f = Some (Some fr0) -> free_swap_slots s = [] ->
     swap_out_frame f s
     = (Ok None, set_log_events (log_events s ++ [(ticks s, EvSwapLleno)]) s)) /\
  (py_get (ram s) f = None -> swap_out_frame f s = (Raise IndexError, s)).
Proof.
  unfold swap_out_frame. split; [|split].
  - intros H. erewrite bind_ok by (apply ram_get_ok; exact H). reflexivity.
  - intros fr0 H Hslots. erewrite bind_ok by (apply ram_get_ok; exact H).
    cbv beta iota zeta. rewrite get_bind, Hslots. reflexivity.
  - intros H. erewrite bind_raise; [reflexivity|].
    unfold ram_get. rewrite get_bind, H. reflexivity.
Qed.

(** X26.  A fault on a page held in swap, with a free frame and the TLB
    disabled: [access_page] returns [True]; the page is loaded into the
    frame at the head of the free-frame queue, stamped with the advanced
    clocks; its entry becomes present in that frame without slot; the slot
    is emptied and appended to the free-slot queue; under FIFO the frame
    joins the FIFO queue; accesses, faults and swap-ins grow by one each,
    swap-outs stay. *)
Theorem access_page_swaps_in h page slot f rest c e (s : SimuladorOS) :
  tlb s = None ->
  pcbs s !! h = Some c ->
  pt_get (tabla_paginas c) page = Some e ->
  present e = false ->
  swap_slot e = Some slot ->
  free_frames s = f :: rest ->
  0 <= f < Z.of_nat (length (ram s)) ->
  0 <= slot < Z.of_nat (length (swap s)) ->
  exists s2,
    access_page h page s = (Ok true, s2) /\
    ram s2 = <[Z.to_nat f := Some (mkFrame (pid c) page (ticks s + 1) (access_clock s + 1) true)]>
               (ram s) /\
    pcbs s2 = <[h := set_tabla_paginas
                       (<[Z.to_nat page := mkPTE true (Some f) None (access_clock s + 1)]>
                          (tabla_paginas c)) c]> (pcbs s) /\
    swap s2 = <[Z.to_nat slot := None]> (swap s) /\
    free_swap_slots s2 = free_swap_slots s ++ [slot] /\
    free_frames s2 = rest /\
    fifo_queue s2 = (if is_algo s "FIFO" then fifo_queue s ++ [f] else fifo_queue s) /\
    (total_accesos s2, total_fallos s2, swap_ins s2, swap_outs s2)
    = (total_accesos s + 1, total_fallos s + 1, swap_ins s + 1, swap_outs s) /\
    (ticks s2, access_clock s2) = (ticks s + 1, access_clock s + 1) /\
    tlb s2 = None /\
    access_untouched s2 = access_untouched s.
Proof. apply access_page_swap_in_free. Qed.

Lemma access_page_swaps_in_witness :
  exists s2,
    access_page 0%nat 0 one_evicted_state = (Ok true, s2) /\
    swap s2 = [None] /\ free_frames s2 = [].
Proof.
  destruct (access_page_swaps_in 0%nat 0 0 0 [] (hd no_PCB (pcbs one_evicted_state))
              (mkPTE false None (Some 0) 0) one_evicted_state)
    as (s2 & H1 & _ & _ & H2 & _ & H3 & _).
  - vm_compute. reflexivity.
  - vm_compute. reflexivity.
  - vm_compute. reflexivity.
  - reflexivity.
  - reflexivity.
  - vm_compute. reflexivity.
  - replace (length (ram one_evicted_state)) with 1%nat by (vm_compute; reflexivity). lia.
  - replace (length (swap one_evicted_state)) with 1%nat by (vm_compute; reflexivity). lia.
  - exists s2. split; [exact H1|]. split; [exact H2 | exact H3].
Defined.

(** X27.  Evicting a page and touching it again brings it back.  With
    the TLB disabled and no other frame free, after [swap_out_frame f] and
    an access to the evicted page by its owner, the page is again in frame
    [f] and present in the page table, with the stamps of the access; the
    slot it went through is empty and has moved to the back of the
    free-slot queue; the free-frame queue is empty as before; one swap-out,
    one swap-in, one fault and one access have been counted. *)
Theorem evict_then_access_restores_page f fr0 slot rest h c (s : SimuladorOS) :
  tlb s = None ->
  free_frames s = [] ->
  0 <= f < Z.of_nat (length (ram s)) ->
  ram s !! Z.to_nat f = Some (Some fr0) ->
  free_swap_slots s = slot :: rest ->
  0 <= slot < Z.of_nat (length (swap s)) ->
  find_pcb_by_pid s (fr_pid fr0) = Some h ->
  pcbs s !! h = Some c ->
  0 <= fr_page fr0 < Z.of_nat (length (tabla_paginas c)) ->
  exists s1 s2,
    swap_out_frame f s = (Ok (Some slot), s1) /\
    access_page h (fr_page fr0) s1 = (Ok true, s2) /\
    ram s2 = <[Z.to_nat f := Some (mkFrame (fr_pid fr0) (fr_page fr0) (ticks s + 1)
                                       (access_clock s + 1) true)]> (ram s) /\
    pcbs s2 = <[h := set_tabla_paginas
                       (<[Z.to_nat (fr_page fr0)
                          := mkPTE true (Some f) None (access_clock s + 1)]>
                          (tabla_paginas c)) c]> (pcbs s) /\
    swap s2 = <[Z.to_nat slot := None]> (swap s) /\
    free_swap_slots s2 = rest ++ [slot] /\
    free_frames s2 = [] /\
    (total_accesos s2, total_fallos s2, swap_ins s2, swap_outs s2)
    = (total_accesos s + 1, total_fallos s + 1, swap_ins s + 1, swap_outs s + 1).
Proof.
  intros Htlb Hfree Hf Hocc Hslots Hslot Hown Hc Hpage.
  destruct (find_pcb_by_pid_Some_pid s _ h Hown) as (c' & Hc' & Hpid).
  rewrite Hc in Hc'. injection Hc' as <-.
  assert (Hlt : (h < length (pcbs s))%nat) by (eapply lookup_lt_Some; exact Hc).
  destruct (swap_out_frame_evicts f fr0 slot rest h c s Hf Hocc Hslots Hslot Hown Hc Hpage)
    as (s1 & Hrun1 & Hram1 & Hswap1 & Hpcbs1 & Hff1 & Hfs1 & _ & Hso1 & _ & Hun1).
  unfold eviction_untouched in Hun1.
  set (c1 := set_tabla_paginas
               (<[Z.to_nat (fr_page fr0) := mkPTE false None (Some slot) (ticks s)]>
                  (tabla_paginas c)) c) in *.
  destruct (access_page_swap_in_free h (fr_page fr0) slot f [] c1
              (mkPTE false None (Some slot) (ticks s)) s1)
    as (s2 & Hrun2 & Hram2 & Hpcbs2 & Hswap2 & Hfs2 & Hff2 & _ & Hcount2 & _).
  { congruence. }
  { rewrite Hpcbs1. apply list_lookup_insert_eq. exact Hlt. }
  { subst c1. proj_simpl. apply pt_get_insert. exact Hpage. }
  { reflexivity. }
  { reflexivity. }
  { rewrite Hff1, Hfree. reflexivity. }
  { rewrite Hram1, length_insert. exact Hf. }
  { rewrite Hswap1, length_insert. exact Hslot. }
  exists s1, s2. split; [exact Hrun1|]. split; [exact Hrun2|].
  assert (Hticks : ticks s1 = ticks s) by congruence.
  assert (Hac : access_clock s1 = access_clock s) by congruence.
  split.
  { rewrite Hram2, Hram1, list_insert_insert_eq, Hticks, Hac. subst c1. proj_simpl.
    now rewrite Hpid. }
  split.
  { rewrite Hpcbs2, Hpcbs1, list_insert_insert_eq, Hac. subst c1. proj_simpl.
    now rewrite list_insert_insert_eq. }
  split; [rewrite Hswap2, Hswap1; apply list_insert_insert_eq|].
  split; [rewrite Hfs2, Hfs1; reflexivity|].
  split; [exact Hff2|].
  rewrite Hcount2, Hso1.
  assert (Ha : total_accesos s1 = total_accesos s) by congruence.
  assert (Hfa : total_fallos s1 = total_fallos s) by congruence.
  assert (Hsi : swap_ins s1 = swap_ins s) by congruence.
  now rewrite Ha, Hfa, Hsi.
Qed.

Lemma evict_then_access_restores_page_witness :
  exists s1 s2,
    swap_out_frame 0 one_resident_state = (Ok (Some 0), s1) /\
    access_page 0%nat 0 s1 = (Ok true, s2) /\
    swap s2 = [None] /\ free_frames s2 = [].
Proof.
  destruct (evict_then_access_restores_page 0 (mkFrame 1 0 0 0 true) 0 [] 0%nat
              (hd no_PCB (pcbs one_resident_state)) one_resident_state)
    as (s1 & s2 & H1 & H2 & _ & _ & H3 & _ & H4 & _).
  - vm_compute. reflexivity.
  - vm_compute. reflexivity.
  - replace (length (ram one_resident_state)) with 1%nat by (vm_compute; reflexivity). lia.
  - vm_compute. reflexivity.
  - vm_compute. reflexivity.
  - replace (length (swap one_resident_state)) with 1%nat by (vm_compute; reflexivity). lia.
  - vm_compute. reflexivity.
  - vm_compute. reflexivity.
  - vm_compute. split; [discriminate | reflexivity].
  - exists s1, s2. split; [exact H1|]. split; [exact H2|]. split; [exact H3 | exact H4].
Defined.

(** X28.  A hit through the page table, with the TLB disabled.  When the
    entry of the page is present and names an occupied frame,
    [access_page] returns [True] and counts an access but no fault; the
    frame gets the advanced access clock as its [last_access] and its
    referenced bit set, keeping its occupant and load time; the entry gets
    the same stamp; nothing is logged and the swap, the queues and the
    other counters stay. *)
Theorem access_resident_page_is_a_hit h page f c e fr (s : SimuladorOS) :
  tlb s = None ->
  pcbs s !! h = Some c ->
  pt_get (tabla_paginas c) page = Some e ->
  present e = true ->
  frame e = Some f ->
  0 <= f < Z.of_nat (length (ram s)) ->
  ram s !! Z.to_nat f = Some (Some fr) ->
  exists s',
    access_page h page s = (Ok true, s') /\
    ram s' = <[Z.to_nat f := Some (touch (access_clock s + 1) fr)]> (ram s) /\
    pcbs s' = <[h := set_tabla_paginas
                       (<[Z.to_nat page := set_last_access (access_clock s + 1) e]>
                          (tabla_paginas c)) c]> (pcbs s) /\
    total_accesos s' = total_accesos s + 1 /\
    (ticks s', access_clock s') = (ticks s + 1, access_clock s + 1) /\
    tlb s' = None /\
    hit_untouched s' = hit_untouched s.
Proof.
  intros Htlb Hc He Hpres Hframe Hf Hocc.
  eexists. split.
  { unfold access_page. rewrite !modify_bind.
    erewrite bind_ok by (apply tlb_probe_off; exact Htlb).
    cbv beta iota.
    erewrite bind_ok by (apply deref_ok; exact Hc).
    rewrite He, Hpres, get_bind, Hframe.
    erewrite bind_ok.
    2:{ erewrite bind_ok
          by (apply ram_get_ok; rewrite py_get_in_range by exact Hf; exact Hocc).
        cbv beta iota. apply ram_set_ok. apply py_set_in_range. exact Hf. }
    erewrite bind_ok by (apply pte_update_ok; [exact Hc | exact He]).
    erewrite bind_ok by (apply tlb_add_if_enabled_off; exact Htlb).
    reflexivity. }
  proj_simpl. repeat split. exact Htlb.
Qed.

Lemma access_resident_page_is_a_hit_witness :
  exists s',
    access_page 0%nat 0 one_resident_state = (Ok true, s') /\
    total_accesos s' = 1 /\
    total_fallos s' = 0.
Proof.
  destruct (access_resident_page_is_a_hit 0%nat 0 0 (hd no_PCB (pcbs one_resident_state))
              (mkPTE true (Some 0) None 0) (mkFrame 1 0 0 0 true) one_resident_state)
    as (s' & H1 & _ & _ & H2 & _ & _ & H3).
  - vm_compute. reflexivity.
  - vm_compute. reflexivity.
  - vm_compute. reflexivity.
  - reflexivity.
  - reflexivity.
  - replace (length (ram one_resident_state)) with 1%nat by (vm_compute; reflexivity). lia.
  - vm_compute. reflexivity.
  - exists s'. split; [exact H1|]. split; [exact H2|].
    assert (H : total_fallos s' = total_fallos one_resident_state)
      by (unfold hit_untouched in H3; congruence).
    rewrite H. reflexivity.
Defined.

(** X29.  A hit through the TLB.  When the TLB holds the key of the
    process and the page with frame [f], and that frame is occupied,
    [access_page] returns [True] without a fault and without consulting the
    page-table entry: whether the entry is present or names that frame
    plays no role, only its [last_access] is overwritten.  The frame gets
    the advanced access clock and its referenced bit, whoever occupies it,
    and the key becomes the most recently used one. *)
Theorem access_through_tlb_is_a_hit h page f t c e fr (s : SimuladorOS) :
  tlb s = Some t ->
  pcbs s !! h = Some c ->
  od_get (pid c, page) (entries t) = Some (Some f) ->
  0 <= f < Z.of_nat (length (ram s)) ->
  ram s !! Z.to_nat f = Some (Some fr) ->
  pt_get (tabla_paginas c) page = Some e ->
  exists s',
    access_page h page s = (Ok true, s') /\
    ram s' = <[Z.to_nat f := Some (touch (access_clock s + 1) fr)]> (ram s) /\
    pcbs s' = <[h := set_tabla_paginas
                       (<[Z.to_nat page := set_last_access (access_clock s + 1) e]>
                          (tabla_paginas c)) c]> (pcbs s) /\
    tlb s' = Some (mkTLB (size t)
                     (od_pop (pid c, page) (entries t) ++ [((pid c, page), Some f)])) /\
    total_accesos s' = total_accesos s + 1 /\
    (ticks s', access_clock s') = (ticks s + 1, access_clock s + 1) /\
    hit_untouched s' = hit_untouched s.
Proof.
  intros Htlb Hc Hget Hf Hocc He.
  eexists. split.
  { unfold access_page. rewrite !modify_bind.
    erewrite bind_ok.
    2:{ unfold tlb_probe. rewrite get_bind. proj_simpl. rewrite Htlb.
        erewrite bind_ok by (apply deref_ok; exact Hc).
        unfold tlb_lookup. rewrite Hget. cbv beta iota. rewrite modify_bind.
        cbv beta iota.
        erewrite bind_ok
          by (apply ram_get_ok; rewrite py_get_in_range by exact Hf; exact Hocc).
        cbv beta iota.
        erewrite bind_ok by (apply ram_set_ok; apply py_set_in_range; exact Hf).
        erewrite bind_ok by (apply pte_update_ok; [exact Hc | exact He]).
        reflexivity. }
    reflexivity. }
  proj_simpl. repeat split.
Qed.

Lemma access_through_tlb_is_a_hit_witness :
  exists s',
    access_page 0%nat 1 stale_tlb_state = (Ok true, s') /\
    tlb s' = Some (mkTLB 4 [((1, 0), Some 0); ((1, 1), Some 1)]) /\
    total_accesos s' = 3.
Proof.
  destruct (access_through_tlb_is_a_hit 0%nat 1 1
              (mkTLB 4 [((1, 0), Some 0); ((1, 1), Some 1)])
              (hd no_PCB (pcbs stale_tlb_state))
              (mkPTE true (Some 1) None 2) (mkFrame 1 1 0 2 true) stale_tlb_state)
    as (s' & H1 & _ & _ & H2 & H3 & _).
  - vm_compute. reflexivity.
  - vm_compute. reflexivity.
  - vm_compute. reflexivity.
  - replace (length (ram stale_tlb_state)) with 2%nat by (vm_compute; reflexivity). lia.
  - vm_compute. reflexivity.
  - vm_compute. reflexivity.
  - exists s'. split; [exact H1|]. split; [exact H2 | exact H3].
Defined.

(** ** The scheduling cycle *)

Lemma update_pcb_keeps_cpu h f :
  (forall c, pcb_static (f c) = pcb_static c) -> keeps cpu_view (update_pcb h f).
Proof.
  intros Hf s. destruct (pcbs s !! h) as [c|] eqn:Hc.
  - rewrite (update_pcb_ok h f c s Hc). unfold cpu_view. cbn [snd]. proj_simpl.
    rewrite list_fmap_insert, Hf.
    rewrite (list_insert_id (pcb_static <$> pcbs s)); [reflexivity|].
    now rewrite list_lookup_fmap, Hc.
  - unfold update_pcb. erewrite bind_raise; [reflexivity|].
    unfold deref. rewrite get_bind, Hc. reflexivity.
Qed.
#[local] Hint Extern 1 (keeps cpu_view (update_pcb _ _)) =>
  apply update_pcb_keeps_cpu; intro; reflexivity : keeps.

(** A page access changes page tables only: no queue, no state, no
    instruction count. *)
Lemma access_page_keeps_cpu h page : keeps cpu_view (access_page h page).
Proof. keeps_auto. Qed.

Lemma access_page_keeps_sizes h page : keeps array_sizes (access_page h page).
Proof. keeps_auto. Qed.

Lemma run_current_effects d p c s s' :
  length (ram s) = Z.to_nat (num_marcos_ram s) ->
  length (swap s) = Z.to_nat (num_marcos_swap s) ->
  proceso_actual s = Some p ->
  pcbs s !! p = Some c ->
  paginas c <> 0 ->
  run_current d p s = (Ok tt, s') ->
  exists c',
    pcbs s' !! p = Some c' /\
    instrucciones_restantes c' = instrucciones_restantes c - 1 /\
    total_accesos s' = total_accesos s + 1 /\
    (ticks s', access_clock s') = (ticks s + 1, access_clock s + 1) /\
    cola_listos s' = cola_listos s /\
    (if instrucciones_restantes c - 1 <=? 0
     then estado c' = TERMINADO /\ motivo_terminacion c' = "Finalización Normal" /\
          proceso_actual s' = None /\
          procesos_terminados s' = procesos_terminados s ++ [p]
     else estado c' = estado c /\ proceso_actual s' = Some p /\
          procesos_terminados s' = procesos_terminados s).
Proof.
  intros Hram Hswap Hact Hc Hpag Hrun. unfold run_current in Hrun.
  erewrite bind_ok in Hrun by (apply deref_ok; exact Hc).
  apply Z.eqb_neq in Hpag. rewrite Hpag in Hrun.
  unfold randint in Hrun. destruct (paginas c - 1 <? 0); [discriminate|].
  rewrite ret_bind in Hrun. set (pg := 0 + _) in Hrun.
  unfold bind at 1 in Hrun.
  pose proof (access_page_keeps_cpu p pg s) as Hcpu.
  pose proof (access_page_keeps_sizes p pg s) as Hsizes.
  pose proof (access_page_counts p pg s) as [Hcount _].
  pose proof (access_page_clocks p pg s) as [Hticks Hclock].
  destruct (access_page p pg s) as [[b|e] s1]; [|discriminate].
  cbn [snd] in Hcpu, Hsizes, Hcount, Hticks, Hclock.
  unfold cpu_view in Hcpu. unfold array_sizes in Hsizes.
  assert (Hact1 : proceso_actual s1 = proceso_actual s) by congruence.
  assert (Hcl1 : cola_listos s1 = cola_listos s) by congruence.
  assert (Hterm1 : procesos_terminados s1 = procesos_terminados s) by congruence.
  assert (Hmap : pcb_static <$> pcbs s1 = pcb_static <$> pcbs s) by congruence.
  assert (Hn1 : num_marcos_ram s1 = num_marcos_ram s) by congruence.
  assert (Hm1 : num_marcos_swap s1 = num_marcos_swap s) by congruence.
  assert (Hlr1 : length (ram s1) = length (ram s)) by congruence.
  assert (Hls1 : length (swap s1) = length (swap s)) by congruence.
  assert (Hc1 : exists c1, pcbs s1 !! p = Some c1 /\ pcb_static c1 = pcb_static c).
  { apply (f_equal (fun l => l !! p)) in Hmap. rewrite !list_lookup_fmap, Hc in Hmap.
    destruct (pcbs s1 !! p) as [c1|]; simpl in Hmap; [|discriminate].
    exists c1. split; [reflexivity | congruence]. }
  destruct Hc1 as (c1 & Hc1 & Hstatic).
  assert (Hinstr : instrucciones_restantes c1 = instrucciones_restantes c)
    by (apply (f_equal instrucciones_restantes) in Hstatic; exact Hstatic).
  assert (Hestado : estado c1 = estado c)
    by (apply (f_equal estado) in Hstatic; exact Hstatic).
  assert (Hlt : (p < length (pcbs s1))%nat) by (eapply lookup_lt_Some; exact Hc1).
  erewrite bind_ok in Hrun by (apply deref_ok; exact Hc1).
  erewrite bind_ok in Hrun by (apply update_pcb_ok; exact Hc1).
  set (c2 := set_instrucciones_restantes (instrucciones_restantes c1 - 1) c1) in *.
  set (s2 := set_pcbs (<[p := c2]> (pcbs s1)) s1) in *.
  assert (Hc2 : pcbs s2 !! p = Some c2) by (apply list_lookup_insert_eq; exact Hlt).
  erewrite bind_ok in Hrun by (apply deref_ok; exact Hc2).
  change (instrucciones_restantes c2) with (instrucciones_restantes c1 - 1) in Hrun.
  rewrite Hinstr in Hrun.
  destruct (instrucciones_restantes c - 1 <=? 0).
  - destruct (terminar_proceso_ok s2 p c2 "Finalización Normal")
      as (s3 & Hrun3 & Hpcbs3 & Hterm3 & _ & _ & _ & _ & Hun3).
    { change (length (ram s1) = Z.to_nat (num_marcos_ram s1)). congruence. }
    { change (length (swap s1) = Z.to_nat (num_marcos_swap s1)). congruence. }
    { exact Hc2. }
    erewrite bind_ok in Hrun by exact Hrun3.
    injection Hrun as <-. unfold termination_untouched in Hun3.
    exists (set_motivo_terminacion "Finalización Normal" (set_estado TERMINADO c2)).
    proj_simpl.
    split; [rewrite Hpcbs3; apply list_lookup_insert_eq; eapply lookup_lt_Some; exact Hc2|].
    split; [exact (f_equal (fun x => x - 1) Hinstr)|].
    assert (Ha : total_accesos s3 = total_accesos s2) by congruence.
    assert (Ht : ticks s3 = ticks s2) by congruence.
    assert (Hk : access_clock s3 = access_clock s2) by congruence.
    assert (Hq : cola_listos s3 = cola_listos s2) by congruence.
    split; [rewrite Ha; exact Hcount|].
    split; [rewrite Ht, Hk; change (ticks s2) with (ticks s1);
            change (access_clock s2) with (access_clock s1); congruence|].
    split; [rewrite Hq; exact Hcl1|].
    split; [reflexivity|]. split; [reflexivity|]. split; [reflexivity|].
    rewrite Hterm3. change (procesos_terminados s2) with (procesos_terminados s1).
    now rewrite Hterm1.
  - injection Hrun as <-. exists c2. subst s2 c2. proj_simpl.
    split; [apply list_lookup_insert_eq; exact Hlt|].
    split; [exact (f_equal (fun x => x - 1) Hinstr)|].
    split; [exact Hcount|]. split; [congruence|]. split; [exact Hcl1|].
    split; [exact Hestado|]. split; congruence.
Qed.

(** X30.  One cycle, one instruction.  Take a state whose arrays have the
    configured sizes, a cycle without random arrival, and the process the
    cycle runs -- the current one or, when the CPU is idle, the head of the
    ready queue -- with at least one page.  If [ejecutar_ciclo] returns,
    then the process has one instruction less, exactly one page access has
    been counted and both clocks have advanced by two.  When the count
    reaches zero (or less) the process is [TERMINADO] with the reason
    [Finalización Normal], is appended to the terminated list and the CPU
    is idle; otherwise it is the running process, [EJECUTANDO] if it was
    dispatched in this cycle. *)
Theorem cycle_runs_one_instruction d p c (s s' : SimuladorOS) :
  length (ram s) = Z.to_nat (num_marcos_ram s) ->
  length (swap s) = Z.to_nat (num_marcos_swap s) ->
  arrives d = false ->
  current_or_next s = Some p ->
  pcbs s !! p = Some c ->
  paginas c <> 0 ->
  ejecutar_ciclo d s = (Ok tt, s') ->
  exists c',
    pcbs s' !! p = Some c' /\
    instrucciones_restantes c' = instrucciones_restantes c - 1 /\
    total_accesos s' = total_accesos s + 1 /\
    (ticks s', access_clock s') = (ticks s + 2, access_clock s + 2) /\
    (if instrucciones_restantes c - 1 <=? 0
     then estado c' = TERMINADO /\ motivo_terminacion c' = "Finalización Normal" /\
          proceso_actual s' = None /\
          procesos_terminados s' = procesos_terminados s ++ [p]
     else proceso_actual s' = Some p /\
          procesos_terminados s' = procesos_terminados s /\
          (proceso_actual s = None -> estado c' = EJECUTANDO)).
Proof.
  intros Hram Hswap Harr Hnext Hc Hpag Hrun.
  assert (Hlt : (p < length (pcbs s))%nat) by (eapply lookup_lt_Some; exact Hc).
  unfold ejecutar_ciclo in Hrun. rewrite !modify_bind, Harr in Hrun. cbv iota in Hrun.
  rewrite ret_bind, get_bind in Hrun. proj_simpl in Hrun.
  set (s0 := set_access_clock _ _) in Hrun.
  unfold current_or_next in Hnext.
  destruct (proceso_actual s) as [q|] eqn:Hact.
  - injection Hnext as ->. rewrite ret_bind, get_bind in Hrun.
    change (proceso_actual s0) with (proceso_actual s) in Hrun. rewrite Hact in Hrun.
    destruct (run_current_effects d p c s0 s') as (c' & H1 & H2 & H3 & H4 & _ & H5);
      try assumption.
    exists c'. split; [exact H1|]. split; [exact H2|]. split; [exact H3|].
    split.
    { rewrite H4. subst s0. proj_simpl. f_equal; lia. }
    destruct (instrucciones_restantes c - 1 <=? 0).
    + exact H5.
    + destruct H5 as (_ & H6 & H7). split; [exact H6|]. split; [exact H7|]. discriminate.
  - destruct (cola_listos s) as [|p' rest] eqn:Hcola; [discriminate|].
    injection Hnext as ->.
    set (cd := set_estado EJECUTANDO c).
    set (sd := set_log_events (log_events s0 ++ [(ticks s0, EvDespacho (pid cd))])
                 (set_pcbs (<[p := cd]> (pcbs s))
                    (set_proceso_actual (Some p) (set_cola_listos rest s0)))).
    assert (Hplan : planificar s0 = (Ok tt, sd)).
    { unfold planificar. rewrite get_bind.
      change (proceso_actual s0) with (proceso_actual s).
      change (cola_listos s0) with (cola_listos s). rewrite Hact, Hcola.
      rewrite !modify_bind.
      erewrite bind_ok by (apply update_pcb_ok; exact Hc).
      erewrite bind_ok
        by (apply deref_ok; proj_simpl; apply list_lookup_insert_eq; exact Hlt).
      reflexivity. }
    erewrite bind_ok in Hrun by exact Hplan. rewrite get_bind in Hrun.
    change (proceso_actual sd) with (Some p) in Hrun. cbv iota in Hrun.
    destruct (run_current_effects d p cd sd s') as (c' & H1 & H2 & H3 & H4 & _ & H5).
    { exact Hram. }
    { exact Hswap. }
    { reflexivity. }
    { apply list_lookup_insert_eq. exact Hlt. }
    { exact Hpag. }
    { exact Hrun. }
    exists c'. split; [exact H1|]. split; [exact H2|]. split; [exact H3|].
    split.
    { rewrite H4. subst sd s0. proj_simpl. f_equal; lia. }
    change (instrucciones_restantes cd) with (instrucciones_restantes c) in H5.
    destruct (instrucciones_restantes c - 1 <=? 0).
    + exact H5.
    + destruct H5 as (H6 & H7 & H8). split; [exact H7|]. split; [exact H8|].
      intros _. exact H6.
Qed.

Lemma cycle_runs_one_instruction_witness :
  exists c',
    pcbs (snd (ejecutar_ciclo quiet one_resident_state)) !! 0%nat = Some c' /\
    instrucciones_restantes c' = 4 /\
    total_accesos (snd (ejecutar_ciclo quiet one_resident_state)) = 1.
Proof.
  destruct (cycle_runs_one_instruction quiet 0%nat (hd no_PCB (pcbs one_resident_state))
              one_resident_state (snd (ejecutar_ciclo quiet one_resident_state)))
    as (c' & H1 & H2 & H3 & _).
  - vm_compute. reflexivity.
  - vm_compute. reflexivity.
  - reflexivity.
  - vm_compute. reflexivity.
  - vm_compute. reflexivity.
  - vm_compute. discriminate.
  - vm_compute. reflexivity.
  - exists c'. split; [exact H1|]. split; [exact H2 | exact H3].
Defined.

(** ** The tick counter and the access clock: the amounts *)

Lemma clock_step_refl v : clock_step v v.
Proof. destruct v as [[t a] n]. simpl. lia. Qed.

(** A suffix that leaves an observation alone can be dropped. *)
Lemma evolves_then_keeps {V A B} (f : SimuladorOS -> V) (Rv : V -> V -> Prop)
    (m : M A) (k : A -> M B) :
  evolves (on f Rv) m -> (forall a, keeps f (k a)) -> evolves (on f Rv) (bind m k).
Proof.
  intros Hm Hk s. unfold on, bind. specialize (Hm s). unfold on in Hm.
  destruct (m s) as [[a|e] s1]; simpl in *; [rewrite (Hk a s1)|]; exact Hm.
Qed.

Lemma access_page_clock_step h page_index :
  evolves (on clocks clock_step) (access_page h page_index).
Proof.
  intros s. unfold on, clocks, clock_step.
  pose proof (access_page_clocks h page_index s) as [Ht Ha].
  pose proof (access_page_counts h page_index s) as [Hn _]. lia.
Qed.

(** After its two increments, [ejecutar_ciclo] advances the counters only
    through the one call of [access_page] it may make. *)
Lemma ejecutar_ciclo_clocks d s :
  exists k, (k = 0 \/ k = 1) /\
    total_accesos (snd (ejecutar_ciclo d s)) = total_accesos s + k /\
    ticks (snd (ejecutar_ciclo d s)) = ticks s + 1 + k /\
    access_clock (snd (ejecutar_ciclo d s)) = access_clock s + 1 + k.
Proof.
  unfold ejecutar_ciclo. rewrite !modify_bind.
  match goal with |- context [bind ?m ?k ?st] =>
    assert (Hrest : evolves (on clocks clock_step) (bind m k));
    [|specialize (Hrest st); set (s' := snd (bind m k st)) in *; clearbody s';
      unfold on, clocks, clock_step in Hrest; proj_simpl in Hrest] end.
  { skip_kept clock_step_refl.
    match goal with |- evolves _ (match ?x with _ => _ end) => destruct x as [p|] end.
    2:{ apply keeps_evolves_on; [exact clock_step_refl | keeps_auto]. }
    skip_kept clock_step_refl.
    match goal with |- evolves _ (if ?b then _ else _) => destruct b end.
    { apply keeps_evolves_on; [exact clock_step_refl | keeps_auto]. }
    skip_kept clock_step_refl.
    apply evolves_then_keeps; [apply access_page_clock_step | intro; keeps_auto]. }
  exists (total_accesos s' - total_accesos s). lia.
Qed.

(** C10.  In every reachable state the tick counter equals the access
    clock.  Both are 0 after construction.  A page access advances each of
    them by exactly 1, whether it returns or raises.  A scheduling cycle
    advances each of them by exactly 1 with its first two statements, and
    further only through the one page access it may perform: by 1 in all
    when it counts no access, by 2 when it counts one.  No other method
    changes either of them: admission, random admission, suspension,
    resumption, forced termination, termination and dispatch leave both as
    they are.  So every driver operation advances the two by the same
    amount. *)
Theorem ticks_equal_access_clock :
  (forall s, reachable s -> ticks s = access_clock s) /\
  (forall c s0, boot c = Some s0 -> ticks s0 = 0 /\ access_clock s0 = 0) /\
  (forall h page_index s,
      ticks (snd (access_page h page_index s)) = ticks s + 1 /\
      access_clock (snd (access_page h page_index s)) = access_clock s + 1) /\
  (forall d s, exists k, (k = 0 \/ k = 1) /\
      total_accesos (snd (ejecutar_ciclo d s)) = total_accesos s + k /\
      ticks (snd (ejecutar_ciclo d s)) = ticks s + 1 + k /\
      access_clock (snd (ejecutar_ciclo d s)) = access_clock s + 1 + k) /\
  ((forall nom tam_kb prio instr, keeps clock_pair (crear_proceso nom tam_kb prio instr)) /\
   (forall d, keeps clock_pair (crear_proceso_aleatorio d)) /\
   (forall p, keeps clock_pair (suspender_proceso p)) /\
   (forall p, keeps clock_pair (reanudar_proceso p)) /\
   (forall p, keeps clock_pair (forzar_terminacion p)) /\
   (forall h motivo, keeps clock_pair (terminar_proceso h motivo)) /\
   keeps clock_pair planificar) /\
  (forall o s,
      ticks (snd (do_op o s)) - ticks s
      = access_clock (snd (do_op o s)) - access_clock s).
Proof.
  split; [|split; [exact boot_clocks | split; [exact access_page_clocks|]]].
  - intros s (c & ops & Hrun). unfold run_script in Hrun.
    destruct (boot c) as [s0|] eqn:Hboot; [|discriminate]. injection Hrun as <-.
    pose proof (run_ops_keeps drift do_op_keeps_drift ops s0) as Hd.
    destruct (boot_clocks c s0 Hboot) as [Ht Ha]. unfold drift in Hd. lia.
  - split; [exact ejecutar_ciclo_clocks|]. split.
    + split; [intros; keeps_auto|]. split; [intros; keeps_auto|].
      split; [intros; keeps_auto|]. split; [intros; keeps_auto|].
      split; [intros; keeps_auto|]. split; [intros; keeps_auto | keeps_auto].
    + intros o s. pose proof (do_op_keeps_drift o s) as Hd. unfold drift in Hd. lia.
Qed.

(** The two counters after a script with two accesses. *)
Lemma ticks_equal_access_clock_witness :
  reachable stale_tlb_state /\ ticks stale_tlb_state = access_clock stale_tlb_state.
Proof.
  assert (H : reachable stale_tlb_state).
  { exists stale_tlb_cfg, stale_tlb_script. vm_compute. reflexivity. }
  split; [exact H | exact (proj1 ticks_equal_access_clock stale_tlb_state H)].
Defined.
